(** * Lattice: transcript acquisition and the partial-failure pipeline

    A shallow embedding of the caption locator and decoder
    ([pkg/youtube]), of the batch and lookup functions of [internal/db]
    and of the orchestrator [internal/services], followed by the
    properties stated about them.

    Go strings are byte sequences: they are modelled as [string] (a list
    of 8-bit [ascii]).  Slices keep the difference between [nil] and an
    empty non-nil slice.  Calls that leave the process (the database,
    the yt-dlp tool and HTTP, the Claude API) go through an abstract
    world, and every such call is recorded in a trace.  Logging, the
    [context.Context] argument and the deferred [rows.Close()] change no
    result and are left out. *)

From Stdlib Require Import Ascii String List ZArith Lia Bool DecimalString.
From stdpp Require Import base option list gmap strings.

Set Warnings "-register-all".
Local Open Scope stdpp_scope.

(** ** Errors and results *)

(** Go [error] values.  [Wrapped] is [fmt.Errorf("msg: %w", cause)]. *)
Inductive error :=
| ErrNoRows
| ErrTxDone
| ErrEmptyResponse
| ErrRateLimitExceeded
| ErrTimeout
| ErrAPIError
| ErrNoTranscript
| ErrInvalidURL
| ErrVideoPrivate
| ErrCommandFailed
| ErrorString (msg : string)
| Wrapped (msg : string) (cause : error).

(** A Go pair [(value, error)] of which exactly one side is meaningful. *)
Inductive result (A : Type) :=
| Ok (a : A)
| Err (e : error).
Arguments Ok {A} a.
Arguments Err {A} e.

(** ** Package [strings] *)

Definition LF : ascii := "010".
Definition nl : string := String LF "".
Definition nlnl : string := String LF (String LF "").

(** [strings.Contains]. *)
Fixpoint Contains (s substr : string) : bool :=
  String.prefix substr s ||
  match s with
  | String _ s' => Contains s' substr
  | EmptyString => false
  end.

(** [strings.Split] for a non-empty separator (the only use here): the
    pieces between the leftmost non-overlapping occurrences of [sep].
    [skip] counts the bytes of a separator still to be passed over. *)
Fixpoint splitFrom (sep : string) (skip : nat) (s : string) : string * list string :=
  match s with
  | EmptyString => (EmptyString, [])
  | String c s' =>
    match skip with
    | S k => splitFrom sep k s'
    | O =>
      if String.prefix sep s
      then let '(p, ps) := splitFrom sep (String.length sep - 1) s' in (EmptyString, p :: ps)
      else let '(p, ps) := splitFrom sep 0 s' in (String c p, ps)
    end
  end.

Definition Split (s sep : string) : list string :=
  let '(p, ps) := splitFrom sep 0 s in p :: ps.

(** [strings.Join]. *)
Fixpoint Join (elems : list string) (sep : string) : string :=
  match elems with
  | [] => EmptyString
  | [e] => e
  | e :: rest => e +:+ sep +:+ Join rest sep
  end.

(** [strings.ReplaceAll] for a non-empty [old]. *)
Fixpoint replaceAllFrom (old new : string) (skip : nat) (s : string) : string :=
  match s with
  | EmptyString => EmptyString
  | String c s' =>
    match skip with
    | S k => replaceAllFrom old new k s'
    | O =>
      if String.prefix old s
      then new +:+ replaceAllFrom old new (String.length old - 1) s'
      else String c (replaceAllFrom old new 0 s')
    end
  end.

Definition ReplaceAll (s old new : string) : string := replaceAllFrom old new 0 s.

(** The six ASCII bytes of [unicode.IsSpace]. *)
Definition asciiSpace (c : ascii) : bool :=
  match c with
  | "009" | "010" | "011" | "012" | "013" | " " => true
  | _ => false
  end%char.

(** UTF-8 encodings of the other code points of [unicode.IsSpace]:
    U+0085 and U+00A0 on two bytes; U+1680, U+2000..U+200A, U+2028,
    U+2029, U+202F, U+205F and U+3000 on three. *)
Definition isSpace2 (c d : ascii) : bool :=
  match c, d with
  | "194", "133" | "194", "160" => true
  | _, _ => false
  end%char.

Definition isSpaceE280 (e : ascii) : bool :=
  let n := nat_of_ascii e in
  ((128 <=? n) && (n <=? 138)) || (n =? 168) || (n =? 169) || (n =? 175).

Definition isSpace3 (c d e : ascii) : bool :=
  match c, d, e with
  | "225", "154", "128" => true
  | "226", "128", _ => isSpaceE280 e
  | "226", "129", "159" => true
  | "227", "128", "128" => true
  | _, _, _ => false
  end%char.

(** The whole string is the encoding of one white-space rune. *)
Definition isSpaceRune (s : string) : bool :=
  match s with
  | String c EmptyString => asciiSpace c
  | String c (String d EmptyString) => isSpace2 c d
  | String c (String d (String e EmptyString)) => isSpace3 c d e
  | _ => false
  end.

(** [strings.TrimLeftFunc(s, unicode.IsSpace)]. *)
Fixpoint trimLeftSpace (s : string) : string :=
  match s with
  | EmptyString => EmptyString
  | String c s1 =>
    if asciiSpace c then trimLeftSpace s1 else
    match s1 with
    | String d s2 =>
      if isSpace2 c d then trimLeftSpace s2 else
      match s2 with
      | String e s3 => if isSpace3 c d e then trimLeftSpace s3 else s
      | EmptyString => s
      end
    | EmptyString => s
    end
  end.

(** [strings.TrimRightFunc(s, unicode.IsSpace)]: a white-space rune is
    removed from the end as long as there is one.  The runes are at
    most three bytes long, so after the tail has been trimmed the only
    new candidate is the whole remaining string. *)
Fixpoint trimRightSpace (s : string) : string :=
  match s with
  | EmptyString => EmptyString
  | String c s1 =>
    let t := trimRightSpace s1 in
    if isSpaceRune (String c t) then EmptyString else String c t
  end.

(** [strings.TrimSpace]. *)
Definition TrimSpace (s : string) : string := trimRightSpace (trimLeftSpace s).

(** ** Package [regexp]

    The fragment of RE2 syntax the program uses: a pattern is a
    sequence of atoms, an atom is one character of a class, a repeated
    class (greedy or lazy) or an anchor.  Matching is leftmost-first,
    as a backtracking search finds it.  Classes are tested on bytes;
    every class used below either consists of ASCII bytes or excludes
    one ASCII byte, so the matched spans are those of the rune-level
    matcher. *)

Inductive atom :=
| Chr (p : ascii -> bool)
| Star (p : ascii -> bool) (greedy : bool)
| Plus (p : ascii -> bool) (greedy : bool)
| Bol (multiline : bool)
| Eol (multiline : bool).

Definition atBol (multiline : bool) (prev : option ascii) : bool :=
  match prev with
  | None => true
  | Some c => multiline && Ascii.eqb c LF
  end.

Definition atEol (multiline : bool) (s : string) : bool :=
  match s with
  | EmptyString => true
  | String c _ => multiline && Ascii.eqb c LF
  end.

(** [matchHere re prev s] matches [re] at the start of [s], [prev]
    being the byte before it, and returns what follows the match. *)
Fixpoint matchHere (re : list atom) (prev : option ascii) (s : string) {struct re}
  : option string :=
  match re with
  | [] => Some s
  | a :: re' =>
    let rep (p : ascii -> bool) (greedy : bool) :=
      fix rep (prev : option ascii) (s : string) {struct s} : option string :=
        match s with
        | String c s' =>
          if p c then
            if greedy then
              match rep (Some c) s' with
              | Some r => Some r
              | None => matchHere re' prev s
              end
            else
              match matchHere re' prev s with
              | Some r => Some r
              | None => rep (Some c) s'
              end
          else matchHere re' prev s
        | EmptyString => matchHere re' prev s
        end in
    match a with
    | Chr p =>
      match s with
      | String c s' => if p c then matchHere re' (Some c) s' else None
      | EmptyString => None
      end
    | Star p greedy => rep p greedy prev s
    | Plus p greedy =>
      match s with
      | String c s' => if p c then rep p greedy (Some c) s' else None
      | EmptyString => None
      end
    | Bol m => if atBol m prev then matchHere re' prev s else None
    | Eol m => if atEol m s then matchHere re' prev s else None
    end
  end.

(** Length of the match of [re] at the start of [s]. *)
Definition matchLen (re : list atom) (prev : option ascii) (s : string) : option nat :=
  match matchHere re prev s with
  | Some r => Some (String.length s - String.length r)
  | None => None
  end.

(** [Regexp.ReplaceAllString] for a pattern that matches no empty string
    and a replacement without [$]: successive leftmost matches are
    replaced, the search resuming after each match. *)
Fixpoint replaceFrom (re : list atom) (repl : string) (skip : nat)
    (prev : option ascii) (s : string) : string :=
  match s with
  | EmptyString => EmptyString
  | String c s' =>
    match skip with
    | S k => replaceFrom re repl k (Some c) s'
    | O =>
      match matchLen re prev s with
      | Some (S n) => repl +:+ replaceFrom re repl n (Some c) s'
      | _ => String c (replaceFrom re repl 0 (Some c) s')
      end
    end
  end.

Definition ReplaceAllString (re : list atom) (src repl : string) : string :=
  replaceFrom re repl 0 None src.

Definition isChar (c : ascii) : ascii -> bool := Ascii.eqb c.
Definition notChar (c : ascii) : ascii -> bool := fun x => negb (Ascii.eqb c x).
Definition anyChar : ascii -> bool := fun _ => true.

(** [(?i)] on an ASCII letter given in upper case. *)
Definition foldCase (c : ascii) : ascii -> bool :=
  fun x => Ascii.eqb c x || Ascii.eqb (ascii_of_nat (nat_of_ascii c + 32)) x.

(** [\s] is [[\t\n\f\r ]]. *)
Definition reSpace (c : ascii) : bool :=
  match c with
  | "009" | "010" | "012" | "013" | " " => true
  | _ => false
  end%char.

(** [\s+] *)
Definition reWhitespace : list atom := [Plus reSpace true].

(** [(?i)^WEBVTT[^\n]*\n] *)
Definition reHeader : list atom :=
  [Bol false; Chr (foldCase "W"); Chr (foldCase "E"); Chr (foldCase "B"); Chr (foldCase "V");
   Chr (foldCase "T"); Chr (foldCase "T"); Star (notChar LF) true; Chr (isChar LF)]%char.

(** [(?m)^NOTE.*$] *)
Definition reNote : list atom :=
  [Bol true; Chr (isChar "N"); Chr (isChar "O"); Chr (isChar "T"); Chr (isChar "E");
   Star (notChar LF) true; Eol true]%char.

(** [(?s)STYLE\s*\n.*?\n\n] *)
Definition reStyle : list atom :=
  [Chr (isChar "S"); Chr (isChar "T"); Chr (isChar "Y"); Chr (isChar "L"); Chr (isChar "E");
   Star reSpace true; Chr (isChar LF); Star anyChar false; Chr (isChar LF); Chr (isChar LF)]%char.

(** [<[^>]+>] *)
Definition reTag : list atom :=
  [Chr (isChar "<"); Plus (notChar ">") true; Chr (isChar ">")]%char.

(** ** The caption decoder ([pkg/youtube], subtitle parser) *)

(** The target of [json.Unmarshal] in [ParseJSON3]. *)
Record JSON3Seg := { UTF8 : string }.
Record JSON3Event := { Segs : list JSON3Seg }.
Record JSON3Result := { Events : list JSON3Event }.

(** [encoding/json] is not part of the repository: decoding into each
    target type the program uses is a parameter. *)
Class JSONDecoder (T : Type) := Unmarshal : string -> result T.

Section Decoder.
Context {decJSON3 : JSONDecoder JSON3Result}.

(** [SubtitleParser.ParseJSON3]. *)
Definition ParseJSON3 (data : string) : result string :=
  match Unmarshal data with
  | Err err => Err (Wrapped "failed to parse JSON3" err)
  | Ok res =>
    let text :=
      fold_left (fun text event =>
        fold_left (fun text seg =>
          if negb (String.eqb (UTF8 seg) "") && negb (String.eqb (UTF8 seg) nl)
          then text +:+ UTF8 seg +:+ " "
          else text) (Segs event) text) (Events res) "" in
    Ok (TrimSpace text)
  end.
End Decoder.

(** [SubtitleParser.ParseSRT]. *)
Definition ParseSRT (data : string) : result string :=
  let content := data in
  let blocks := Split content nlnl in
  let text :=
    fold_left (fun text block =>
      let lines := Split (TrimSpace block) nl in
      if 3 <=? length lines
      then text +:+ Join (drop 2 lines) " " +:+ " "
      else text) blocks "" in
  Ok (TrimSpace text).

(** The body of the inner loop of [ParseVTT]: what one line adds. *)
Definition vttLine (text line : string) : string :=
  if negb (Contains line "-->") && negb (String.eqb (TrimSpace line) "")
  then
    let line := ReplaceAllString reTag line "" in
    text +:+ TrimSpace line +:+ " "
  else text.

(** [SubtitleParser.ParseVTT]. *)
Definition ParseVTT (data : string) : result string :=
  let content := data in
  let content := ReplaceAllString reHeader content "" in
  let content := ReplaceAllString reNote content "" in
  let content := ReplaceAllString reStyle content "" in
  let blocks := Split content nlnl in
  let text :=
    fold_left (fun text block =>
      let lines := Split (TrimSpace block) nl in
      fold_left vttLine lines text) blocks "" in
  Ok (TrimSpace text).

(** [SubtitleParser.CleanTranscript]. *)
Definition CleanTranscript (text : string) : string :=
  let text := ReplaceAllString reWhitespace text " " in
  let text := ReplaceAll text "[Music]" "" in
  let text := ReplaceAll text "[Applause]" "" in
  let text := ReplaceAll text "[Laughter]" "" in
  TrimSpace text.

(** ** The caption locator ([pkg/youtube/client.go]) *)

(** The untyped values [json.Unmarshal] stores in an [interface{}].
    Numbers are [float64] in Go; the locator never looks at one, so a
    number is kept as its literal text. *)
Inductive JSON :=
| JNull
| JBool (b : bool)
| JNumber (literal : string)
| JString (s : string)
| JArray (xs : list JSON)
| JObject (m : gmap string JSON).

(** Type assertions [v.(T)] on the result of a map index: a missing key
    gives the nil interface, on which every assertion fails. *)
Definition asObject (v : option JSON) : option (gmap string JSON) :=
  match v with Some (JObject m) => Some m | _ => None end.

Definition asArray (v : option JSON) : option (list JSON) :=
  match v with Some (JArray xs) => Some xs | _ => None end.

Definition asString (v : option JSON) : option string :=
  match v with Some (JString s) => Some s | _ => None end.

(** The body of the inner loop of [extractSubtitleURL]: [Some] is the
    [return] inside it. *)
Definition matchEntry (preferredFormat : string) (sub : JSON) : option (string * string) :=
  match asObject (Some sub) with
  | Some subInfo =>
    match asString (subInfo !! "ext") with
    | Some ext =>
      if String.eqb ext preferredFormat then
        match asString (subInfo !! "url") with
        | Some url => Some (url, preferredFormat)
        | None => None
        end
      else None
    | None => None
    end
  | None => None
  end.

Fixpoint scanEntries (preferredFormat : string) (enSubs : list JSON) : option (string * string) :=
  match enSubs with
  | [] => None
  | sub :: rest =>
    match matchEntry preferredFormat sub with
    | Some r => Some r
    | None => scanEntries preferredFormat rest
    end
  end.

Fixpoint scanFormats (formatPreference : list string) (enSubs : list JSON) : option (string * string) :=
  match formatPreference with
  | [] => None
  | preferredFormat :: rest =>
    match scanEntries preferredFormat enSubs with
    | Some r => Some r
    | None => scanFormats rest enSubs
    end
  end.

(** "If no preferred format found, use first available". *)
Definition firstAvailable (first : JSON) : string * string :=
  match asObject (Some first) with
  | Some subInfo =>
    match asString (subInfo !! "url") with
    | Some url =>
      let format := match asString (subInfo !! "ext") with Some ext => ext | None => "unknown" end in
      (url, format)
    | None => ("", "")
    end
  | None => ("", "")
  end.

(** [Client.extractSubtitleURL]. *)
Definition extractSubtitleURL (subsData : gmap string JSON) (formatPreference : list string)
  : string * string :=
  match asArray (subsData !! "en") with
  | Some (first :: rest) =>
    match scanFormats formatPreference (first :: rest) with
    | Some r => r
    | None => firstAvailable first
    end
  | _ => ("", "")
  end.

Definition formatPreference : list string := ["json3"; "vtt"; "srv3"; "srv2"; "srv1"].

(** One collection of [findBestSubtitleURL]. *)
Definition fromCollection (videoData : gmap string JSON) (key : string) : string * string :=
  match asObject (videoData !! key) with
  | Some caps => extractSubtitleURL caps formatPreference
  | None => ("", "")
  end.

(** [Client.findBestSubtitleURL]. *)
Definition findBestSubtitleURL (videoData : gmap string JSON) : string * string :=
  let '(url, format) := fromCollection videoData "automatic_captions" in
  if negb (String.eqb url "") then (url, format) else
  let '(url, format) := fromCollection videoData "subtitles" in
  if negb (String.eqb url "") then (url, format) else
  ("", "").

(** ** Slices *)

(** A Go slice, [nil] kept apart from the empty non-nil slice. *)
Inductive slice (A : Type) :=
| nilSlice
| Slice (items : list A).
Arguments nilSlice {A}.
Arguments Slice {A} items.

Definition elems {A} (s : slice A) : list A :=
  match s with nilSlice => [] | Slice l => l end.

Definition len {A} (s : slice A) : nat := length (elems s).

(** [append(s, x)]. *)
Definition append1 {A} (s : slice A) (x : A) : slice A := Slice (elems s ++ [x]).

(** [append(s, t...)]: appending nothing to [nil] leaves [nil]. *)
Definition appendAll {A} (s t : slice A) : slice A :=
  match s, elems t with
  | nilSlice, [] => nilSlice
  | _, l => Slice (elems s ++ l)
  end.

(** ** Models ([internal/models]) *)

(** [time.Time], as the store hands it out. *)
Definition Time := Z.

Module SourceContent.
Record t := {
  ID : Z; Type_ : string; URL : string; Title : string; Transcript : string;
  ProcessedAt : Time; CreatedAt : Time }.
End SourceContent.

Module CreateSourceContentRequest.
Record t := { Type_ : string; URL : string; Title : string; Transcript : string }.
End CreateSourceContentRequest.

Module Concept.
Record t := {
  ID : Z; Title : string; Description : string; SourceContentID : option Z;
  CreatedAt : Time; UpdatedAt : Time }.
End Concept.

Module QuizQuestion.
Record t := {
  ID : Z; ConceptID : Z; Question : string;
  OptionA : string; OptionB : string; OptionC : string; OptionD : string;
  CorrectAnswer : string; Explanation : string; CreatedAt : Time }.
End QuizQuestion.

Module GeneratedContent.
Record t := {
  ID : Z; Platform : string; Title : string; Body : string;
  ConceptIDs : list Z; Status : string;
  PublishedAt : option Time; CreatedAt : Time; UpdatedAt : Time }.
End GeneratedContent.

(** [pkg/youtube] types. *)
Module Transcript.
Record t := { Text : string; Language : string }.
End Transcript.

Module Metadata.
Record t := { Title : string; Duration : Z; Channel : string }.
End Metadata.

Module VideoInfo.
Record t := { Transcript : option Transcript.t; Metadata : Metadata.t }.
End VideoInfo.

(** [services.ProcessResult]. *)
Module ProcessResult.
Record t := {
  SourceContent : option SourceContent.t;
  Concepts : slice Concept.t;
  Quizzes : slice QuizQuestion.t;
  GeneratedContent : slice GeneratedContent.t }.
End ProcessResult.

(** ** The outside world *)

(** The SQL statements of [internal/db], with their arguments. *)
Inductive Statement :=
| InsertSourceContent (req : CreateSourceContentRequest.t)
| SelectSourceContentByURL (url : string)
| InsertConcept (concept : Concept.t)
| SelectConceptsBySourceContentID (sourceContentID : Z)
| InsertQuizQuestion (q : QuizQuestion.t)
| SelectQuizzesBySourceContentID (sourceContentID : Z)
| InsertGeneratedContent (content : GeneratedContent.t)
| SelectGeneratedContents.

(** The user prompts are [fmt.Sprintf] of a fixed template; a prompt is
    kept as its template and the arguments put into it, which determine
    the text. *)
Inductive PromptTemplate :=
| ExtractConceptsTemplate
| GenerateQuizTemplate
| LinkedInTemplate
| TwitterTemplate
| BlogTemplate
| EmailTemplate.

Record UserPrompt := { template : PromptTemplate; args : list string }.

(** What a cursor of [DB.Query] delivers: the outcome of [Scan] on each
    row, then [rows.Err()]. *)
Record Rows (A : Type) := { scanned : list (result A); rowsErr : option error }.
Arguments scanned {A} r.
Arguments rowsErr {A} r.

(** Every call that leaves the process. *)
Inductive Event :=
| EvQueryRow (q : Statement)
| EvQuery (q : Statement)
| EvBegin
| EvTxQueryRow (q : Statement)
| EvCommit
| EvRollback
| EvGetVideoInfo (videoURL : string)
| EvSendMessage (systemPrompt : string) (userMessage : UserPrompt).

(** The database, the transcript acquirer ([youtube.Client.GetVideoInfo],
    which runs yt-dlp and downloads the captions) and the Claude client
    ([claude.Client.SendMessageWithSystem]) answer as a function of a
    world state [W] that they may change. *)
Class External (W : Type) := {
  sourceContentRow : Statement -> W -> result SourceContent.t * W;
  conceptRow : Statement -> W -> result Concept.t * W;
  quizRow : Statement -> W -> result QuizQuestion.t * W;
  contentRow : Statement -> W -> result GeneratedContent.t * W;
  conceptRows : Statement -> W -> result (Rows Concept.t) * W;
  quizRows : Statement -> W -> result (Rows QuizQuestion.t) * W;
  contentRows : Statement -> W -> result (Rows GeneratedContent.t) * W;
  txBegin : W -> option error * W;
  txCommit : W -> option error * W;
  txRollback : W -> W;
  videoInfo : string -> W -> result VideoInfo.t * W;
  sendMessage : string -> UserPrompt -> W -> result string * W
}.

(** The state of a run: the world and the calls made so far. *)
Record State (W : Type) := { world : W; trace : list Event }.
Arguments world {W} s.
Arguments trace {W} s.
Arguments Build_State {W} world trace.

Definition M (W A : Type) : Type := State W -> A * State W.

Definition ret {W A} (a : A) : M W A := fun st => (a, st).

Definition bind {W A B} (k : A -> M W B) (m : M W A) : M W B :=
  fun st => let '(a, st') := m st in k a st'.

(** [x ← m; k] runs [m], then [k] in the state [m] leaves. *)
#[global] Instance M_bind {W} : MBind (M W) := @bind W.

(** A call: the world answers and the call is appended to the trace. *)
Definition call {W A} (ev : Event) (f : W -> A * W) : M W A :=
  fun st => let '(a, w) := f (world st) in (a, Build_State w (trace st ++ [ev])).

(** ** Package [claude]: reading the reply *)

(** [text[n:]]. *)
Definition from (n : nat) (text : string) : string :=
  String.substring n (String.length text - n) text.

(** The part of [ParseJSONResponse] before [json.Unmarshal]: the content
    of a fenced code block, when the reply has one. *)
Definition fencedJSON (responseText : string) : string :=
  let text := responseText in
  if Contains text "```json" then
    match String.index 0 "```json" text with
    | Some start =>
      let start := start + String.length "```json" in
      match String.index 0 "```" (from start text) with
      | Some end_ => String.substring start end_ text
      | None => text
      end
    | None => text
    end
  else if Contains text "```" then
    match String.index 0 "```" text with
    | Some start =>
      let start := start + String.length "```" in
      let start :=
        match String.index 0 nl (from start text) with
        | Some newlineIdx => start + newlineIdx + 1
        | None => start
        end in
      match String.index 0 "```" (from start text) with
      | Some end_ => String.substring start end_ text
      | None => text
      end
    | None => text
    end
  else text.

(** [claude.ParseJSONResponse]. *)
Definition ParseJSONResponse {T} {dec : JSONDecoder T} (responseText : string) : result T :=
  match Unmarshal (fencedJSON responseText) with
  | Err err => Err (Wrapped "failed to parse JSON response" err)
  | Ok target => Ok target
  end.

(** [strings.ToUpper]: bytes are mapped when the string is ASCII;
    otherwise [strings.Map(unicode.ToUpper, s)] needs the Unicode case
    tables, which are a parameter. *)
Class UnicodeTables := mapToUpper : string -> string.

Definition isASCII (s : string) : bool :=
  forallb (fun c => nat_of_ascii c <? 128) (list_ascii_of_string s).

Definition upperByte (c : ascii) : ascii :=
  let n := nat_of_ascii c in
  if (97 <=? n) && (n <=? 122) then ascii_of_nat (n - 32) else c.

Definition ToUpper {tables : UnicodeTables} (s : string) : string :=
  if isASCII s
  then string_of_list_ascii (map upperByte (list_ascii_of_string s))
  else mapToUpper s.

(** The reply shapes of [ExtractConcepts], [GenerateQuiz] and
    [GenerateContent]. *)
Module ConceptData.
Record t := { Title : string; Description : string }.
End ConceptData.

Module QuizData.
Record t := {
  Question : string;
  OptionA : string; OptionB : string; OptionC : string; OptionD : string;
  CorrectAnswer : string; Explanation : string }.
End QuizData.

Module ContentData.
Record t := { Title : string; Body : string }.
End ContentData.

(** [%d] of an [int]. *)
Definition itoa (n : Z) : string := DecimalString.NilZero.string_of_int (Z.to_int n).

(** [services.ClaudeService] without its client, which is the world. *)
Record ClaudeService := { conceptsMin : Z; conceptsMax : Z }.

Section Program.
Context {W : Type} {ext : External W}.
Context {decConcepts : JSONDecoder (list ConceptData.t)}
        {decQuiz : JSONDecoder (list QuizData.t)}
        {decContent : JSONDecoder ContentData.t} {tables : UnicodeTables}.

(** *** [internal/db] *)

(** [db.CreateSourceContent]. *)
Definition CreateSourceContent (req : CreateSourceContentRequest.t)
  : M W (result SourceContent.t) :=
  let query := InsertSourceContent req in
  r ← call (EvQueryRow query) (sourceContentRow query);
  match r with
  | Err err => ret (Err (Wrapped "failed to create source content" err))
  | Ok sc => ret (Ok sc)
  end.

(** [db.GetSourceContentByURL]: [Ok None] is [(nil, nil)]. *)
Definition GetSourceContentByURL (url : string) : M W (result (option SourceContent.t)) :=
  let query := SelectSourceContentByURL url in
  r ← call (EvQueryRow query) (sourceContentRow query);
  match r with
  | Err ErrNoRows => ret (Ok None)
  | Err err => ret (Err (Wrapped "failed to query source content" err))
  | Ok sc => ret (Ok (Some sc))
  end.

(** The loop [for rows.Next()] of the two lookups by source content:
    a failed [Scan] returns, a row is appended. *)
Fixpoint scanAll {A} (msg : string) (rows : list (result A)) (acc : slice A)
  : result (slice A) :=
  match rows with
  | [] => Ok acc
  | Err err :: _ => Err (Wrapped msg err)
  | Ok row :: rest => scanAll msg rest (append1 acc row)
  end.

(** [db.GetConceptsBySourceContentID]. *)
Definition GetConceptsBySourceContentID (sourceContentID : Z)
  : M W (result (slice Concept.t)) :=
  let query := SelectConceptsBySourceContentID sourceContentID in
  r ← call (EvQuery query) (conceptRows query);
  match r with
  | Err err => ret (Err (Wrapped "failed to query concepts" err))
  | Ok rows =>
    match scanAll "failed to scan concept" (scanned rows) nilSlice with
    | Err err => ret (Err err)
    | Ok concepts =>
      match rowsErr rows with
      | Some err => ret (Err (Wrapped "error iterating concepts" err))
      | None => ret (Ok concepts)
      end
    end
  end.

(** [db.GetQuizzesBySourceContentID]. *)
Definition GetQuizzesBySourceContentID (sourceContentID : Z)
  : M W (result (slice QuizQuestion.t)) :=
  let query := SelectQuizzesBySourceContentID sourceContentID in
  r ← call (EvQuery query) (quizRows query);
  match r with
  | Err err => ret (Err (Wrapped "failed to query quiz questions" err))
  | Ok rows =>
    match scanAll "failed to scan quiz question" (scanned rows) nilSlice with
    | Err err => ret (Err err)
    | Ok questions =>
      match rowsErr rows with
      | Some err => ret (Err (Wrapped "error iterating quiz questions" err))
      | None => ret (Ok questions)
      end
    end
  end.

(** The filter of [GetGeneratedContentByConceptIDs]: the inner loop
    appends [gc] and breaks at the first concept id of [gc] equal to
    [targetID]; the outer loop runs it for every [targetID]. *)
Fixpoint matchTarget (targetID : Z) (contentIDs : list Z) (gc : GeneratedContent.t)
    (contents : slice GeneratedContent.t) : slice GeneratedContent.t :=
  match contentIDs with
  | [] => contents
  | contentID :: rest =>
    if Z.eqb contentID targetID then append1 contents gc
    else matchTarget targetID rest gc contents
  end.

Fixpoint matchTargets (conceptIDs : list Z) (gc : GeneratedContent.t)
    (contents : slice GeneratedContent.t) : slice GeneratedContent.t :=
  match conceptIDs with
  | [] => contents
  | targetID :: rest =>
    matchTargets rest gc (matchTarget targetID (GeneratedContent.ConceptIDs gc) gc contents)
  end.

(** The loop [for rows.Next()] of [GetGeneratedContentByConceptIDs]. *)
Fixpoint filterRows (conceptIDs : list Z) (rows : list (result GeneratedContent.t))
    (contents : slice GeneratedContent.t) : result (slice GeneratedContent.t) :=
  match rows with
  | [] => Ok contents
  | Err err :: _ => Err (Wrapped "failed to scan generated content" err)
  | Ok gc :: rest => filterRows conceptIDs rest (matchTargets conceptIDs gc contents)
  end.

(** [db.GetGeneratedContentByConceptIDs]. *)
Definition GetGeneratedContentByConceptIDs (conceptIDs : slice Z)
  : M W (result (slice GeneratedContent.t)) :=
  let query := SelectGeneratedContents in
  r ← call (EvQuery query) (contentRows query);
  match r with
  | Err err => ret (Err (Wrapped "failed to query generated contents" err))
  | Ok rows =>
    match filterRows (elems conceptIDs) (scanned rows) nilSlice with
    | Err err => ret (Err err)
    | Ok contents =>
      match rowsErr rows with
      | Some err => ret (Err (Wrapped "error iterating generated contents" err))
      | None => ret (Ok contents)
      end
    end
  end.

(** The insert loops of the three batch functions. *)
Fixpoint insertConcepts (concepts : list Concept.t) (createdConcepts : slice Concept.t)
  : M W (result (slice Concept.t)) :=
  match concepts with
  | [] => ret (Ok createdConcepts)
  | concept :: rest =>
    let query := InsertConcept concept in
    r ← call (EvTxQueryRow query) (conceptRow query);
    match r with
    | Err err => ret (Err (Wrapped "failed to create concept" err))
    | Ok c => insertConcepts rest (append1 createdConcepts c)
    end
  end.

Fixpoint insertQuestions (questions : list QuizQuestion.t)
    (createdQuestions : slice QuizQuestion.t) : M W (result (slice QuizQuestion.t)) :=
  match questions with
  | [] => ret (Ok createdQuestions)
  | q :: rest =>
    let query := InsertQuizQuestion q in
    r ← call (EvTxQueryRow query) (quizRow query);
    match r with
    | Err err => ret (Err (Wrapped "failed to create quiz question" err))
    | Ok created => insertQuestions rest (append1 createdQuestions created)
    end
  end.

Fixpoint insertContents (contents : list GeneratedContent.t)
    (createdContents : slice GeneratedContent.t) : M W (result (slice GeneratedContent.t)) :=
  match contents with
  | [] => ret (Ok createdContents)
  | content :: rest =>
    let query := InsertGeneratedContent content in
    r ← call (EvTxQueryRow query) (contentRow query);
    match r with
    | Err err => ret (Err (Wrapped "failed to create generated content" err))
    | Ok gc => insertContents rest (append1 createdContents gc)
    end
  end.

(** A batch inside a transaction: [DB.Begin], the inserts, [tx.Commit],
    and the deferred [tx.Rollback] on every way out. *)
Definition inTransaction {A} (inserts : M W (result (slice A))) : M W (result (slice A)) :=
  b ← call EvBegin txBegin;
  match b with
  | Some err => ret (Err (Wrapped "failed to begin transaction" err))
  | None =>
    r ← (created ← inserts;
          match created with
          | Err err => ret (Err err)
          | Ok created =>
            c ← call EvCommit txCommit;
            match c with
            | Some err => ret (Err (Wrapped "failed to commit transaction" err))
            | None => ret (Ok created)
            end
          end);
    _ ← call EvRollback (fun w => (tt, txRollback w));
    ret r
  end.

(** [db.CreateConceptsBatch]. *)
Definition CreateConceptsBatch (concepts : slice Concept.t)
  : M W (result (slice Concept.t)) :=
  if len concepts =? 0 then ret (Ok (Slice []))
  else inTransaction (insertConcepts (elems concepts) (Slice [])).

(** [db.CreateQuizBatch]. *)
Definition CreateQuizBatch (questions : slice QuizQuestion.t)
  : M W (result (slice QuizQuestion.t)) :=
  if len questions =? 0 then ret (Ok (Slice []))
  else inTransaction (insertQuestions (elems questions) (Slice [])).

(** [db.CreateGeneratedContentBatch]. *)
Definition CreateGeneratedContentBatch (contents : slice GeneratedContent.t)
  : M W (result (slice GeneratedContent.t)) :=
  if len contents =? 0 then ret (Ok (Slice []))
  else inTransaction (insertContents (elems contents) (Slice [])).

(** *** [internal/services]: the Claude service *)

(** [ClaudeService.ExtractConcepts]. *)
Definition ExtractConcepts (s : ClaudeService) (transcript : string) (sourceContentID : Z)
  : M W (result (slice Concept.t)) :=
  let systemPrompt :=
    "You are an expert educator extracting core learnable concepts from content." in
  let userPrompt :=
    {| template := ExtractConceptsTemplate;
       args := [itoa (conceptsMin s); itoa (conceptsMax s); transcript] |} in
  r ← call (EvSendMessage systemPrompt userPrompt) (sendMessage systemPrompt userPrompt);
  match r with
  | Err err => ret (Err (Wrapped "failed to extract concepts" err))
  | Ok responseText =>
    match ParseJSONResponse responseText with
    | Err err => ret (Err (Wrapped "failed to parse concept JSON" err))
    | Ok conceptData =>
      ret (Ok (Slice (map (fun c =>
        {| Concept.ID := 0%Z;
           Concept.Title := ConceptData.Title c;
           Concept.Description := ConceptData.Description c;
           Concept.SourceContentID := Some sourceContentID;
           Concept.CreatedAt := 0%Z;
           Concept.UpdatedAt := 0%Z |}) conceptData)))
    end
  end.

(** The two prompts of [GenerateQuiz]. *)
Definition quizSystemPrompt : string :=
  "You are an expert educator creating effective quiz questions that test understanding and application, not just recall.".

Definition quizUserPrompt (concept : Concept.t) : UserPrompt :=
  {| template := GenerateQuizTemplate;
     args := [Concept.Title concept; Concept.Description concept] |}.

(** [ClaudeService.GenerateQuiz]. *)
Definition GenerateQuiz (s : ClaudeService) (concept : Concept.t)
  : M W (result (slice QuizQuestion.t)) :=
  let systemPrompt := quizSystemPrompt in
  let userPrompt := quizUserPrompt concept in
  r ← call (EvSendMessage systemPrompt userPrompt) (sendMessage systemPrompt userPrompt);
  match r with
  | Err err => ret (Err (Wrapped "failed to generate quiz" err))
  | Ok responseText =>
    match ParseJSONResponse responseText with
    | Err err => ret (Err (Wrapped "failed to parse quiz JSON" err))
    | Ok quizData =>
      ret (Ok (Slice (map (fun q =>
        {| QuizQuestion.ID := 0%Z;
           QuizQuestion.ConceptID := Concept.ID concept;
           QuizQuestion.Question := QuizData.Question q;
           QuizQuestion.OptionA := QuizData.OptionA q;
           QuizQuestion.OptionB := QuizData.OptionB q;
           QuizQuestion.OptionC := QuizData.OptionC q;
           QuizQuestion.OptionD := QuizData.OptionD q;
           QuizQuestion.CorrectAnswer := ToUpper (QuizData.CorrectAnswer q);
           QuizQuestion.Explanation := QuizData.Explanation q;
           QuizQuestion.CreatedAt := 0%Z |}) quizData)))
    end
  end.

(** [ClaudeService.getContentPrompts]. *)
Definition getContentPrompts (platform conceptsText : string) : string * UserPrompt :=
  if String.eqb platform "linkedin" then
    ("You are a consultant writing a LinkedIn post demonstrating expertise to attract clients.",
     {| template := LinkedInTemplate; args := [conceptsText] |})
  else if String.eqb platform "twitter" then
    ("You are a consultant creating an engaging X (Twitter) thread to demonstrate expertise.",
     {| template := TwitterTemplate; args := [conceptsText] |})
  else if String.eqb platform "blog" then
    ("You are a consultant writing an educational blog post to demonstrate deep expertise.",
     {| template := BlogTemplate; args := [conceptsText] |})
  else
    ("You are a consultant creating valuable content to share with your network.",
     {| template := EmailTemplate; args := [conceptsText] |}).

(** [ClaudeService.generateTitleFromConcepts]. *)
Definition generateTitleFromConcepts (concepts : slice Concept.t) : string :=
  match elems concepts with
  | [] => "Generated Content"
  | [c] => Concept.Title c
  | c :: _ => Concept.Title c +:+ " and More"
  end.

(** The concept summary of [GenerateContent]: one line
    ["%d. %s: %s\n"] for each concept. *)
Fixpoint conceptsText (i : Z) (concepts : list Concept.t) : string :=
  match concepts with
  | [] => ""
  | c :: rest =>
    (itoa (i + 1)%Z +:+ ". " +:+ Concept.Title c +:+ ": " +:+ Concept.Description c +:+ nl)
    +:+ conceptsText (i + 1)%Z rest
  end.

(** [ClaudeService.GenerateContent]. *)
Definition GenerateContent (s : ClaudeService) (platform : string)
    (concepts : slice Concept.t) : M W (result GeneratedContent.t) :=
  let '(systemPrompt, userPrompt) :=
    getContentPrompts platform (conceptsText 0%Z (elems concepts)) in
  r ← call (EvSendMessage systemPrompt userPrompt) (sendMessage systemPrompt userPrompt);
  match r with
  | Err err => ret (Err (Wrapped "failed to generate content" err))
  | Ok responseText =>
    let contentData :=
      match ParseJSONResponse responseText with
      | Err _ =>
        {| ContentData.Title := generateTitleFromConcepts concepts;
           ContentData.Body := responseText |}
      | Ok contentData => contentData
      end in
    let conceptIDs := map Concept.ID (elems concepts) in
    ret (Ok {| GeneratedContent.ID := 0%Z;
               GeneratedContent.Platform := platform;
               GeneratedContent.Title := ContentData.Title contentData;
               GeneratedContent.Body := ContentData.Body contentData;
               GeneratedContent.ConceptIDs := conceptIDs;
               GeneratedContent.Status := "draft";
               GeneratedContent.PublishedAt := None;
               GeneratedContent.CreatedAt := 0%Z;
               GeneratedContent.UpdatedAt := 0%Z |})
  end.

(** *** [internal/services]: the orchestrator *)

(** [youtube.Client.GetVideoInfo], at the boundary. *)
Definition GetVideoInfo (videoURL : string) : M W (result VideoInfo.t) :=
  call (EvGetVideoInfo videoURL) (videoInfo videoURL).

(** [SourceContentService.getExistingProcessResult]. *)
Definition getExistingProcessResult (sourceContent : SourceContent.t)
  : M W (result ProcessResult.t) :=
  r ← GetConceptsBySourceContentID (SourceContent.ID sourceContent);
  let concepts := match r with Err _ => Slice [] | Ok concepts => concepts end in
  r ← GetQuizzesBySourceContentID (SourceContent.ID sourceContent);
  let quizzes := match r with Err _ => Slice [] | Ok quizzes => quizzes end in
  generatedContent ←
    (if 0 <? len concepts then
       let conceptIDs := Slice (map Concept.ID (elems concepts)) in
       r ← GetGeneratedContentByConceptIDs conceptIDs;
       match r with
       | Err _ => ret (Slice [])
       | Ok content => ret content
       end
     else ret nilSlice);
  ret (Ok {| ProcessResult.SourceContent := Some sourceContent;
             ProcessResult.Concepts := concepts;
             ProcessResult.Quizzes := quizzes;
             ProcessResult.GeneratedContent := generatedContent |}).

(** The result of the two degraded returns of step 4. *)
Definition sourceOnly (sourceContent : SourceContent.t) : ProcessResult.t :=
  {| ProcessResult.SourceContent := Some sourceContent;
     ProcessResult.Concepts := Slice [];
     ProcessResult.Quizzes := Slice [];
     ProcessResult.GeneratedContent := Slice [] |}.

(** The loop of step 5. *)
Fixpoint generateQuizzes (s : ClaudeService) (savedConcepts : list Concept.t)
    (allQuizzes : slice QuizQuestion.t) : M W (slice QuizQuestion.t) :=
  match savedConcepts with
  | [] => ret allQuizzes
  | concept :: rest =>
    r ← GenerateQuiz s concept;
    match r with
    | Err _ => generateQuizzes s rest allQuizzes
    | Ok quizzes => generateQuizzes s rest (appendAll allQuizzes quizzes)
    end
  end.

(** The loop of step 6. *)
Fixpoint generateContents (s : ClaudeService) (platforms : list string)
    (savedConcepts : slice Concept.t) (generatedContents : slice GeneratedContent.t)
  : M W (slice GeneratedContent.t) :=
  match platforms with
  | [] => ret generatedContents
  | platform :: rest =>
    r ← GenerateContent s platform savedConcepts;
    match r with
    | Err _ => generateContents s rest savedConcepts generatedContents
    | Ok content => generateContents s rest savedConcepts (append1 generatedContents content)
    end
  end.

Definition platforms : list string := ["linkedin"; "twitter"; "blog"].

(** "Save quizzes to database": the block [if len(allQuizzes) > 0],
    which leaves the new value of [allQuizzes]. *)
Definition saveQuizzes (allQuizzes : slice QuizQuestion.t) : M W (slice QuizQuestion.t) :=
  if 0 <? len allQuizzes then
    r ← CreateQuizBatch allQuizzes;
    match r with
    | Err _ => ret (Slice [])
    | Ok savedQuizzes => ret savedQuizzes
    end
  else ret allQuizzes.

(** "Save generated content to database": the block
    [if len(generatedContents) > 0]. *)
Definition saveContents (generatedContents : slice GeneratedContent.t)
  : M W (slice GeneratedContent.t) :=
  if 0 <? len generatedContents then
    r ← CreateGeneratedContentBatch generatedContents;
    match r with
    | Err _ => ret (Slice [])
    | Ok savedContent => ret savedContent
    end
  else ret generatedContents.

(** Steps 6 and 7 of [ProcessYouTubeURL]: content for every platform,
    its batch insert, the complete result. *)
Definition contentStage (s : ClaudeService) (sourceContent : SourceContent.t)
    (savedConcepts : slice Concept.t) (allQuizzes : slice QuizQuestion.t)
  : M W (result ProcessResult.t) :=
  generatedContents ← generateContents s platforms savedConcepts nilSlice;
  generatedContents ← saveContents generatedContents;
  ret (Ok {| ProcessResult.SourceContent := Some sourceContent;
             ProcessResult.Concepts := savedConcepts;
             ProcessResult.Quizzes := allQuizzes;
             ProcessResult.GeneratedContent := generatedContents |}).

(** Step 5 of [ProcessYouTubeURL]: quizzes for every concept and their
    batch insert; then the content stage. *)
Definition quizStage (s : ClaudeService) (sourceContent : SourceContent.t)
    (savedConcepts : slice Concept.t) : M W (result ProcessResult.t) :=
  allQuizzes ← generateQuizzes s (elems savedConcepts) nilSlice;
  allQuizzes ← saveQuizzes allQuizzes;
  contentStage s sourceContent savedConcepts allQuizzes.

(** [SourceContentService.ProcessYouTubeURL]. *)
Definition ProcessYouTubeURL (s : ClaudeService) (url : string)
  : M W (result ProcessResult.t) :=
  existing ← GetSourceContentByURL url;
  match existing with
  | Err err => ret (Err (Wrapped "failed to check for duplicates" err))
  | Ok (Some existing) => getExistingProcessResult existing
  | Ok None =>
    info ← GetVideoInfo url;
    match info with
    | Err err => ret (Err (Wrapped "failed to fetch YouTube video" err))
    | Ok info =>
      match VideoInfo.Transcript info with
      | None => ret (Err (ErrorString "no transcript available for this video"))
      | Some transcript =>
        saved ← CreateSourceContent
          {| CreateSourceContentRequest.Type_ := "youtube";
             CreateSourceContentRequest.URL := url;
             CreateSourceContentRequest.Title := Metadata.Title (VideoInfo.Metadata info);
             CreateSourceContentRequest.Transcript := Transcript.Text transcript |};
        match saved with
        | Err err => ret (Err (Wrapped "failed to save source content" err))
        | Ok sourceContent =>
          extracted ← ExtractConcepts s (Transcript.Text transcript)
                         (SourceContent.ID sourceContent);
          match extracted with
          | Err _ => ret (Ok (sourceOnly sourceContent))
          | Ok concepts =>
            saved ← CreateConceptsBatch concepts;
            match saved with
            | Err _ => ret (Ok (sourceOnly sourceContent))
            | Ok savedConcepts => quizStage s sourceContent savedConcepts
            end
          end
        end
      end
    end
  end.

End Program.

(** ** Observations on a run *)

(** A call to the transcript acquirer; a call to the derivation service. *)
Definition isAcquisition (ev : Event) : bool :=
  match ev with EvGetVideoInfo _ => true | _ => false end.

Definition isDerivation (ev : Event) : bool :=
  match ev with EvSendMessage _ _ => true | _ => false end.

(** The store operations of a transaction. *)
Definition isTransaction (ev : Event) : bool :=
  match ev with
  | EvBegin | EvTxQueryRow _ | EvCommit | EvRollback => true
  | _ => false
  end.

(** The generated-content rows whose insert was attempted. *)
Fixpoint insertedContents (evs : list Event) : list GeneratedContent.t :=
  match evs with
  | [] => []
  | EvTxQueryRow (InsertGeneratedContent gc) :: rest => gc :: insertedContents rest
  | _ :: rest => insertedContents rest
  end.

(** The successful results among [rs], in order. *)
Fixpoint successes {A} (rs : list (result A)) : list A :=
  match rs with
  | [] => []
  | Ok a :: rest => a :: successes rest
  | Err _ :: rest => successes rest
  end.

(** The number of failed results among [rs]. *)
Fixpoint failures {A} (rs : list (result A)) : nat :=
  match rs with
  | [] => 0
  | Ok _ :: rest => failures rest
  | Err _ :: rest => S (failures rest)
  end.

Section Observers.
Context {W : Type} {ext : External W} {decContent : JSONDecoder ContentData.t}.

(** The outcome of [GenerateContent] for each platform, the calls
    being made one after the other as the loop of step 6 makes them. *)
Fixpoint contentAttempts (s : ClaudeService) (platforms : list string)
    (savedConcepts : slice Concept.t) : M W (list (result GeneratedContent.t)) :=
  match platforms with
  | [] => ret []
  | platform :: rest =>
    r ← GenerateContent s platform savedConcepts;
    rs ← contentAttempts s rest savedConcepts;
    ret (r :: rs)
  end.
End Observers.

(** ** Test doubles *)

(** A scripted world for concrete runs: what the store holds, what the
    acquirer and the derivation service answer, and whether the store
    refuses generated content.  The world state is the last id given
    out. *)
Record Script := {
  knownSource : option SourceContent.t;
  knownConcepts : list Concept.t;
  knownQuizzes : list QuizQuestion.t;
  knownContents : list GeneratedContent.t;
  video : result VideoInfo.t;
  replies : PromptTemplate -> result string;
  refuseContent : bool }.

Definition unexpected {A} : result A := Err (ErrorString "unexpected statement").

Definition scripted (sc : Script) : External Z := {|
  sourceContentRow q n :=
    match q with
    | SelectSourceContentByURL url =>
      match knownSource sc with
      | Some src => if String.eqb (SourceContent.URL src) url then (Ok src, n) else (Err ErrNoRows, n)
      | None => (Err ErrNoRows, n)
      end
    | InsertSourceContent req =>
      (Ok {| SourceContent.ID := n + 1;
             SourceContent.Type_ := CreateSourceContentRequest.Type_ req;
             SourceContent.URL := CreateSourceContentRequest.URL req;
             SourceContent.Title := CreateSourceContentRequest.Title req;
             SourceContent.Transcript := CreateSourceContentRequest.Transcript req;
             SourceContent.ProcessedAt := 0; SourceContent.CreatedAt := 0 |}, n + 1)%Z
    | _ => (unexpected, n)
    end;
  conceptRow q n :=
    match q with
    | InsertConcept c =>
      (Ok {| Concept.ID := n + 1; Concept.Title := Concept.Title c;
             Concept.Description := Concept.Description c;
             Concept.SourceContentID := Concept.SourceContentID c;
             Concept.CreatedAt := 0; Concept.UpdatedAt := 0 |}, n + 1)%Z
    | _ => (unexpected, n)
    end;
  quizRow q n :=
    match q with
    | InsertQuizQuestion x =>
      (Ok {| QuizQuestion.ID := n + 1; QuizQuestion.ConceptID := QuizQuestion.ConceptID x;
             QuizQuestion.Question := QuizQuestion.Question x;
             QuizQuestion.OptionA := QuizQuestion.OptionA x;
             QuizQuestion.OptionB := QuizQuestion.OptionB x;
             QuizQuestion.OptionC := QuizQuestion.OptionC x;
             QuizQuestion.OptionD := QuizQuestion.OptionD x;
             QuizQuestion.CorrectAnswer := QuizQuestion.CorrectAnswer x;
             QuizQuestion.Explanation := QuizQuestion.Explanation x;
             QuizQuestion.CreatedAt := 0 |}, n + 1)%Z
    | _ => (unexpected, n)
    end;
  contentRow q n :=
    match q with
    | InsertGeneratedContent x =>
      if refuseContent sc then (Err (ErrorString "insert refused"), n) else
      (Ok {| GeneratedContent.ID := n + 1;
             GeneratedContent.Platform := GeneratedContent.Platform x;
             GeneratedContent.Title := GeneratedContent.Title x;
             GeneratedContent.Body := GeneratedContent.Body x;
             GeneratedContent.ConceptIDs := GeneratedContent.ConceptIDs x;
             GeneratedContent.Status := GeneratedContent.Status x;
             GeneratedContent.PublishedAt := None;
             GeneratedContent.CreatedAt := 0; GeneratedContent.UpdatedAt := 0 |}, n + 1)%Z
    | _ => (unexpected, n)
    end;
  conceptRows q n :=
    match q with
    | SelectConceptsBySourceContentID id =>
      (Ok {| scanned :=
               map Ok (filter (fun c => bool_decide (Concept.SourceContentID c = Some id))
                              (knownConcepts sc));
             rowsErr := None |}, n)
    | _ => (unexpected, n)
    end;
  quizRows q n :=
    match q with
    | SelectQuizzesBySourceContentID id =>
      (Ok {| scanned := map Ok (knownQuizzes sc); rowsErr := None |}, n)
    | _ => (unexpected, n)
    end;
  contentRows q n :=
    match q with
    | SelectGeneratedContents =>
      (Ok {| scanned := map Ok (knownContents sc); rowsErr := None |}, n)
    | _ => (unexpected, n)
    end;
  txBegin n := (None, n);
  txCommit n := (None, n);
  txRollback n := n;
  videoInfo url n := (video sc, n);
  sendMessage systemPrompt userMessage n := (replies sc (template userMessage), n)
|}.

(** A decoder that rejects every text, and case tables that change
    nothing: the concrete runs below depend on neither. *)
Definition rejecting {T} : JSONDecoder T := fun _ => Err (ErrorString "invalid character").
Definition noTables : UnicodeTables := fun s => s.

Definition start : State Z := {| world := 0%Z; trace := [] |}.
Definition service : ClaudeService := {| conceptsMin := 3; conceptsMax := 7 |}.

(** [emits P m]: a run of [m] appends events to the trace, all of them
    in [P]. *)
Definition emits {W A} (P : Event -> Prop) (m : M W A) : Prop :=
  forall st, exists evs, trace (m st).2 = trace st ++ evs /\ Forall P evs.

(** A query of the store, outside a transaction. *)
Definition isRead (ev : Event) : Prop :=
  match ev with EvQueryRow _ | EvQuery _ => True | _ => False end.

Section Reach.
Context {W : Type} {ext : External W}.
Context {decConcepts : JSONDecoder (list ConceptData.t)}
        {decQuiz : JSONDecoder (list QuizData.t)}
        {decContent : JSONDecoder ContentData.t} {tables : UnicodeTables}.

(** A run of [ProcessYouTubeURL] from [st] reaches the content
    generation stage in state [st'], with the saved source record,
    the saved concepts and the quizzes of step 5: steps 1 to 5 all
    went through. *)
Definition reachesContentStage (s : ClaudeService) (url : string) (st : State W)
    (sourceContent : SourceContent.t) (savedConcepts : slice Concept.t)
    (allQuizzes : slice QuizQuestion.t) (st' : State W) : Prop :=
  exists st1 info transcript st2 st3 concepts st4 st5 generated st6,
    GetSourceContentByURL url st = (Ok None, st1) /\
    GetVideoInfo url st1 = (Ok info, st2) /\
    VideoInfo.Transcript info = Some transcript /\
    CreateSourceContent
      {| CreateSourceContentRequest.Type_ := "youtube";
         CreateSourceContentRequest.URL := url;
         CreateSourceContentRequest.Title := Metadata.Title (VideoInfo.Metadata info);
         CreateSourceContentRequest.Transcript := Transcript.Text transcript |} st2
      = (Ok sourceContent, st3) /\
    ExtractConcepts s (Transcript.Text transcript) (SourceContent.ID sourceContent) st3
      = (Ok concepts, st4) /\
    CreateConceptsBatch concepts st4 = (Ok savedConcepts, st5) /\
    generateQuizzes s (elems savedConcepts) nilSlice st5 = (generated, st6) /\
    saveQuizzes generated st6 = (allQuizzes, st').
End Reach.

(** [append(s, l...)] for a Go slice and the elements [l]. *)
Definition appendList {A} (s : slice A) (l : list A) : slice A :=
  match l with
  | [] => s
  | _ => Slice (elems s ++ l)
  end.

(** ** Sample runs *)

(** A JSON string literal: the text between double quotes. *)
Definition quoted (s : string) : string :=
  String "034"%char (s +:+ String "034"%char "").

(** The value of [json.Unmarshal] at one document, an error elsewhere:
    enough of the decoder for a run that receives this document. *)
Definition decodes {T} (document : string) (value : T) : JSONDecoder T :=
  fun text =>
    if String.eqb text document then Ok value
    else Err (ErrorString "invalid character").

Definition sampleURL : string := "https://www.youtube.com/watch?v=dQw4w9WgXcQ".

Definition sampleSource : SourceContent.t :=
  {| SourceContent.ID := 7%Z; SourceContent.Type_ := "youtube";
     SourceContent.URL := sampleURL; SourceContent.Title := "Loops";
     SourceContent.Transcript := "a b c";
     SourceContent.ProcessedAt := 0%Z; SourceContent.CreatedAt := 0%Z |}.

Definition sampleConcept (id : Z) (title : string) : Concept.t :=
  {| Concept.ID := id; Concept.Title := title; Concept.Description := "d";
     Concept.SourceContentID := Some 7%Z;
     Concept.CreatedAt := 0%Z; Concept.UpdatedAt := 0%Z |}.

Definition sampleContent (id : Z) (platform : string) (conceptIDs : list Z)
  : GeneratedContent.t :=
  {| GeneratedContent.ID := id; GeneratedContent.Platform := platform;
     GeneratedContent.Title := "t"; GeneratedContent.Body := "b";
     GeneratedContent.ConceptIDs := conceptIDs; GeneratedContent.Status := "draft";
     GeneratedContent.PublishedAt := None;
     GeneratedContent.CreatedAt := 0%Z; GeneratedContent.UpdatedAt := 0%Z |}.

Definition sampleVideo : VideoInfo.t :=
  {| VideoInfo.Transcript := Some {| Transcript.Text := "a b c"; Transcript.Language := "en" |};
     VideoInfo.Metadata :=
       {| Metadata.Title := "Loops"; Metadata.Duration := 60%Z; Metadata.Channel := "ch" |} |}.

(** The url was processed before: the store holds its record, two
    concepts and one content item. *)
Definition processedBefore : Script :=
  {| knownSource := Some sampleSource;
     knownConcepts := [sampleConcept 1%Z "one"; sampleConcept 2%Z "two"];
     knownQuizzes := [];
     knownContents := [sampleContent 9%Z "blog" [1; 2]%Z];
     video := Err ErrCommandFailed;
     replies := fun _ => Err ErrTimeout;
     refuseContent := false |}.

(** A new url, and a derivation service that answers nothing. *)
Definition emptyResponses : Script :=
  {| knownSource := None; knownConcepts := []; knownQuizzes := []; knownContents := [];
     video := Ok sampleVideo;
     replies := fun _ => Err ErrEmptyResponse;
     refuseContent := false |}.

(** The reply to the concept extraction prompt, and what it decodes to. *)
Definition conceptsReply : string :=
  "[{" +:+ quoted "title" +:+ ":" +:+ quoted "Loops" +:+ "," +:+
  quoted "description" +:+ ":" +:+ quoted "Repeat a task" +:+ "}]".

Definition conceptsValue : list ConceptData.t :=
  [{| ConceptData.Title := "Loops"; ConceptData.Description := "Repeat a task" |}].

(** A new url; concept extraction answers, quiz generation and the
    twitter thread fail, the two other platforms answer plain text. *)
Definition twitterFails (refuse : bool) : Script :=
  {| knownSource := None; knownConcepts := []; knownQuizzes := []; knownContents := [];
     video := Ok sampleVideo;
     replies := fun t =>
       match t with
       | ExtractConceptsTemplate => Ok conceptsReply
       | LinkedInTemplate => Ok "A post"
       | BlogTemplate => Ok "An article"
       | _ => Err ErrRateLimitExceeded
       end;
     refuseContent := refuse |}.

(** [ProcessYouTubeURL] in a scripted world. *)
Definition runProcess (sc : Script) (url : string) : result ProcessResult.t * State Z :=
  ProcessYouTubeURL (ext := scripted sc) (decConcepts := decodes conceptsReply conceptsValue)
    (decQuiz := rejecting) (decContent := rejecting) (tables := noTables)
    service url start.

(** How often [gc] is appended for the query [conceptIDs]: once for
    every queried id that is among its concept ids. *)
Definition hits (conceptIDs : list Z) (gc : GeneratedContent.t) : nat :=
  length (filter (fun targetID => targetID ∈ GeneratedContent.ConceptIDs gc) conceptIDs).





(** A SubRip file of three cues, the second being a music annotation. *)
Definition srtWithMusic : string :=
  "1" +:+ nl +:+ "00:00:00,000 --> 00:00:02,000" +:+ nl +:+ "a" +:+ nlnl +:+
  "2" +:+ nl +:+ "00:00:02,000 --> 00:00:04,000" +:+ nl +:+ "[Music]" +:+ nlnl +:+
  "3" +:+ nl +:+ "00:00:04,000 --> 00:00:06,000" +:+ nl +:+ "b" +:+ nl.

(** ** The locator, declaratively *)

(** [sub] is a mapping that declares the extension [ext] and the
    address [url], both as strings. *)
Definition entryHas (sub : JSON) (ext url : string) : Prop :=
  exists m, sub = JObject m /\ m !! "ext" = Some (JString ext) /\ m !! "url" = Some (JString url).

(** The encoding tag of the fall-back: the declared extension, or
    "unknown" when the entry declares none. *)
Definition declaredFormat (m : gmap string JSON) : string :=
  match m !! "ext" with
  | Some (JString ext) => ext
  | _ => "unknown"
  end.


(** The collection [key] is the one the locator uses: the automatic
    captions, or the manual subtitles once the automatic captions have
    given no address. *)
Definition chosen (videoData : gmap string JSON) (key : string) : Prop :=
  key = "automatic_captions" \/
  (key = "subtitles" /\ (fromCollection videoData "automatic_captions").1 = "").

Definition track (ext : string) (url : string) : JSON :=
  JObject {[ "ext" := JString ext; "url" := JString url ]}.

(** The scenario of the specification. *)
Definition scenarioMetadata : gmap string JSON :=
  {[ "automatic_captions" := JObject {[ "en" := JArray [track "json3" "U1"; track "vtt" "U2"] ]} ]}.




(** ** The decoder, declaratively *)














(** ** Further observations on a run *)

(** The events a run of [m] from [st] appends to the trace. *)
Definition added {W A} (m : M W A) (st : State W) : list Event :=
  drop (length (trace st)) (trace (m st).2).

(** The number of calls to the derivation service among [evs]. *)
Fixpoint derivations (evs : list Event) : nat :=
  match evs with
  | [] => 0
  | ev :: rest => (if isDerivation ev then 1 else 0) + derivations rest
  end.

(** The events of a batch: [DB.Begin], the inserts issued, [tx.Commit]
    when it is reached, and the deferred [tx.Rollback]. *)
Definition batchEvents (issued : list Statement) (commit : bool) : list Event :=
  EvBegin :: map EvTxQueryRow issued ++ (if commit then [EvCommit] else []) ++ [EvRollback].

(** What a batch of the rows [stmts] may do: on success every row was
    inserted, in order, the transaction was committed and one row is
    returned for each; on failure either the transaction did not begin,
    or the inserts stopped at the first one that failed, without a
    commit, or every row was inserted and the commit failed. *)
Definition batchShape {A} (stmts : list Statement) (evs : list Event) (r : result (slice A))
  : Prop :=
  match r with
  | Ok saved => len saved = length stmts /\ evs = batchEvents stmts true
  | Err _ =>
    evs = [EvBegin] \/
    (exists k, 0 < k <= length stmts /\ evs = batchEvents (take k stmts) false) \/
    evs = batchEvents stmts true
  end.

Section QuizObservers.
Context {W : Type} {ext : External W}.
Context {decQuiz : JSONDecoder (list QuizData.t)} {tables : UnicodeTables}.

(** The outcome of [GenerateQuiz] for each saved concept, the calls
    being made one after the other as the loop of step 5 makes them. *)
Fixpoint quizAttempts (s : ClaudeService) (savedConcepts : list Concept.t)
  : M W (list (result (slice QuizQuestion.t))) :=
  match savedConcepts with
  | [] => ret []
  | concept :: rest =>
    r ← GenerateQuiz s concept;
    rs ← quizAttempts s rest;
    ret (r :: rs)
  end.
End QuizObservers.

(** [outcome m Q]: every run of [m] appends some events [evs] to the
    trace and returns a value [a] with [Q a evs]. *)
Definition outcome {W A} (m : M W A) (Q : A -> list Event -> Prop) : Prop :=
  forall st, exists evs, trace (m st).2 = trace st ++ evs /\ Q (m st).1 evs.

(** The three calls that come before any derivation: the duplicate
    check, the acquisition and the insert of the source record. *)
Definition earlyCalls (url : string) (req : CreateSourceContentRequest.t) : list Event :=
  [EvQueryRow (SelectSourceContentByURL url); EvGetVideoInfo url;
   EvQueryRow (InsertSourceContent req)].

(** A new url whose captions cannot be acquired. *)
Definition videoFails : Script :=
  {| knownSource := None; knownConcepts := []; knownQuizzes := []; knownContents := [];
     video := Err ErrNoTranscript;
     replies := fun _ => Err ErrTimeout;
     refuseContent := false |}.

(** The rows a run inserts in its batches agree with each other: a
    concept refers to the source record, a quiz question to one of the
    concepts, a content item is a draft for one of the three platforms
    and lists the ids of the concepts, in order. *)
Definition consistentInsert (sourceContent : SourceContent.t) (concepts : slice Concept.t)
    (ev : Event) : Prop :=
  match ev with
  | EvTxQueryRow (InsertConcept c) =>
    Concept.SourceContentID c = Some (SourceContent.ID sourceContent)
  | EvTxQueryRow (InsertQuizQuestion q) =>
    QuizQuestion.ConceptID q ∈ map Concept.ID (elems concepts)
  | EvTxQueryRow (InsertGeneratedContent gc) =>
    GeneratedContent.ConceptIDs gc = map Concept.ID (elems concepts) /\
    GeneratedContent.Status gc = "draft" /\
    GeneratedContent.Platform gc ∈ platforms
  | EvTxQueryRow _ => False
  | _ => True
  end.

(** The events [evs] of a batch of the rows [stmts] are transaction
    calls and inserts of these rows: whatever holds of those holds of
    every event. *)
Definition batchSatisfies (stmts : list Statement) (evs : list Event) : Prop :=
  forall P : Event -> Prop,
    P EvBegin -> P EvCommit -> P EvRollback ->
    Forall (fun q => P (EvTxQueryRow q)) stmts ->
    Forall P evs.

(** ** Validating a url ([pkg/youtube/client.go]) *)

(** [regexp.MatchString]: the pattern matches at some position. *)
Fixpoint searchFrom (re : list atom) (prev : option ascii) (s : string) : bool :=
  match matchHere re prev s with
  | Some _ => true
  | None =>
    match s with
    | String c s' => searchFrom re (Some c) s'
    | EmptyString => false
    end
  end.

Definition MatchString (re : list atom) (s : string) : bool := searchFrom re None s.

(** The characters of [s], each matched literally. *)
Definition lit (s : string) : list atom :=
  map (fun c => Chr (isChar c)) (list_ascii_of_string s).

(** [\w] is [[0-9A-Za-z_]]; [[\w-]] adds the dash. *)
Definition reWord (c : ascii) : bool :=
  let n := nat_of_ascii c in
  ((48 <=? n) && (n <=? 57)) || ((65 <=? n) && (n <=? 90)) ||
  ((97 <=? n) && (n <=? 122)) || (n =? 95).

Definition reWordDash (c : ascii) : bool := reWord c || (nat_of_ascii c =? 45).

(** The two schemes of [https?://] and the two readings of
    [(www\.)?], the longer being tried first. *)
Definition schemes : list string := ["https://"; "http://"].
Definition hosts : list string := ["www."; ""].

(** [^https?://(www\.)?] followed by the literal [rest] and by
    [[\w-]+]: a pattern with two optional parts stands for the four
    sequences that take or leave each of them. *)
Definition urlPattern (rest : string) : list (list atom) :=
  scheme ← schemes;
  host ← hosts;
  [Bol false :: lit (scheme +:+ host +:+ rest) ++ [Plus reWordDash true]].

(** The three patterns of [ValidateURL]. *)
Definition videoPaths : list string :=
  ["youtube.com/watch?v="; "youtu.be/"; "youtube.com/embed/"].

(** [youtube.ValidateURL]; [None] is the nil error.  The three
    patterns compile, so [regexp.MatchString] returns no error. *)
Definition ValidateURL (url : string) : option error :=
  if existsb (fun rest => existsb (fun re => MatchString re url) (urlPattern rest)) videoPaths
  then None
  else Some ErrInvalidURL.

(** The urls [ValidateURL] is meant to accept, said without patterns:
    [pre] followed by at least one byte of [[\w-]], for one of the
    twelve prefixes. *)
Definition startsWithId (pre s : string) : Prop :=
  exists c tail, s = pre +:+ String c tail /\ reWordDash c = true.

Definition acceptedURL (url : string) : Prop :=
  exists scheme host rest,
    scheme ∈ schemes /\ host ∈ hosts /\ rest ∈ videoPaths /\
    startsWithId (scheme +:+ host +:+ rest) url.

(** ** Programs that call tools *)

(** The transcript acquirer and the Claude client leave the process
    through calls of their own (a command, HTTP requests, sleeping).
    A program over the events [E] threads the world and the log of
    the calls made. *)
Record Run (E W : Type) := { now : W; log : list E }.
Arguments now {E W} r.
Arguments log {E W} r.
Arguments Build_Run {E W} now log.

Definition IO (E W A : Type) : Type := Run E W -> A * Run E W.

Definition io_ret {E W A} (a : A) : IO E W A := fun run => (a, run).

Definition io_bind {E W A B} (k : A -> IO E W B) (m : IO E W A) : IO E W B :=
  fun run => let '(a, run') := m run in k a run'.

#[global] Instance IO_bind {E W} : MBind (IO E W) := @io_bind E W.

(** A call: the world answers and the call is appended to the log. *)
Definition perform {E W A} (ev : E) (f : W -> A * W) : IO E W A :=
  fun run => let '(a, w) := f (now run) in (a, Build_Run w (log run ++ [ev])).

(** ** The transcript acquirer ([pkg/youtube/client.go]) *)

(** What [cmd.Run] leaves behind: its error, and the two buffers. *)
Record CommandResult := { runErr : option error; stdout : string; stderr : string }.

(** What the GET of [downloadSubtitle] meets: the request cannot be
    built, [client.Do] fails, or a response arrives, whose body
    [io.ReadAll] reads or fails to read. *)
Inductive Download :=
| RequestRejected (err : error)
| DoFailed (err : error)
| Response (status : Z) (body : result string).

Inductive ToolEvent :=
| EvCommand (path : string) (args : list string)
| EvGet (url : string).

Class Tools (W : Type) := {
  runCommand : string -> list string -> W -> CommandResult * W;
  httpGet : string -> W -> Download * W
}.

(** [int(x)] for the [float64] a JSON number decodes to; the number
    is kept as its literal, so the conversion is a parameter. *)
Class NumberReader := truncate : string -> Z.

(** [fmt.Errorf("%w: %s", cause, detail)]: the error wraps [cause] and
    carries [detail]; [Wrapped] holds the two, the place of the detail
    in the message text not being part of the error value modelled. *)
Definition errorfDetail (cause : error) (detail : string) : error := Wrapped detail cause.

(** The failure of the yt-dlp command, read off its standard error. *)
Definition commandFailure (stderrStr : string) : error :=
  if Contains stderrStr "Private video" ||
     Contains stderrStr "Video unavailable" ||
     Contains stderrStr "This video is not available"
  then ErrVideoPrivate
  else errorfDetail ErrCommandFailed stderrStr.

Module Client.

(** [youtube.Client]; the parser has no state. *)
Record t := { ytdlpPath : string; timeout : Z }.

Section Methods.
Context {W : Type} {tools : Tools W}.
Context {decVideo : JSONDecoder (gmap string JSON)} {decJSON3 : JSONDecoder JSON3Result}.
Context {numbers : NumberReader}.

(** [Client.downloadSubtitle]. *)
Definition downloadSubtitle (c : t) (url : string) : IO ToolEvent W (result string) :=
  d ← perform (EvGet url) (httpGet url);
  match d with
  | RequestRejected err => io_ret (Err (Wrapped "failed to create request" err))
  | DoFailed err => io_ret (Err (Wrapped "failed to download subtitle" err))
  | Response status body =>
    if negb (status =? 200)%Z
    then io_ret (Err (ErrorString ("subtitle download failed with status: " +:+ itoa status)))
    else
      match body with
      | Err err => io_ret (Err (Wrapped "failed to read subtitle data" err))
      | Ok data => io_ret (Ok data)
      end
  end.

(** The [switch subtitleFormat] of [GetTranscript]. *)
Definition parseSubtitle (subtitleFormat subtitleData : string) : result string :=
  if String.eqb subtitleFormat "json3" then ParseJSON3 subtitleData
  else if String.eqb subtitleFormat "vtt" then ParseVTT subtitleData
  else if String.eqb subtitleFormat "srv1" || String.eqb subtitleFormat "srv2" ||
          String.eqb subtitleFormat "srv3" then
    match ParseJSON3 subtitleData with
    | Err _ => ParseVTT subtitleData
    | Ok text => Ok text
    end
  else ParseVTT subtitleData.

Definition transcriptArgs (videoURL : string) : list string :=
  ["--skip-download"; "--write-auto-subs"; "--sub-lang"; "en"; "--print-json"; videoURL].

Definition metadataArgs (videoURL : string) : list string :=
  ["--skip-download"; "--print-json"; videoURL].

(** [Client.GetTranscript]. *)
Definition GetTranscript (c : t) (videoURL : string) : IO ToolEvent W (result Transcript.t) :=
  match ValidateURL videoURL with
  | Some err => io_ret (Err err)
  | None =>
    let args := transcriptArgs videoURL in
    out ← perform (EvCommand (ytdlpPath c) args) (runCommand (ytdlpPath c) args);
    match runErr out with
    | Some _ => io_ret (Err (commandFailure (stderr out)))
    | None =>
      match Unmarshal (stdout out) with
      | Err err => io_ret (Err (Wrapped "failed to parse video data" err))
      | Ok videoData =>
        let '(subtitleURL, subtitleFormat) := findBestSubtitleURL videoData in
        if String.eqb subtitleURL "" then io_ret (Err ErrNoTranscript) else
        d ← downloadSubtitle c subtitleURL;
        match d with
        | Err err => io_ret (Err (Wrapped "failed to download subtitle" err))
        | Ok subtitleData =>
          match parseSubtitle subtitleFormat subtitleData with
          | Err err => io_ret (Err (Wrapped "failed to parse subtitle" err))
          | Ok text =>
            let text := CleanTranscript text in
            if String.eqb text "" then io_ret (Err ErrNoTranscript)
            else io_ret (Ok {| Transcript.Text := text; Transcript.Language := "en" |})
          end
        end
      end
    end
  end.

(** [Client.GetVideoMetadata]. *)
Definition GetVideoMetadata (c : t) (videoURL : string) : IO ToolEvent W (result Metadata.t) :=
  match ValidateURL videoURL with
  | Some err => io_ret (Err err)
  | None =>
    let args := metadataArgs videoURL in
    out ← perform (EvCommand (ytdlpPath c) args) (runCommand (ytdlpPath c) args);
    match runErr out with
    | Some _ => io_ret (Err (commandFailure (stderr out)))
    | None =>
      match Unmarshal (stdout out) with
      | Err err => io_ret (Err (Wrapped "failed to parse video metadata" err))
      | Ok result =>
        let title := match asString (result !! "title") with Some title => title | None => "" end in
        let duration :=
          match result !! "duration" with
          | Some (JNumber duration) => truncate duration
          | _ => 0%Z
          end in
        let channel :=
          match asString (result !! "channel") with
          | Some channel => channel
          | None =>
            match asString (result !! "uploader") with
            | Some uploader => uploader
            | None => ""
            end
          end in
        io_ret (Ok {| Metadata.Title := title; Metadata.Duration := duration;
                      Metadata.Channel := channel |})
      end
    end
  end.

(** [Client.GetVideoInfo]: the pair of a [VideoInfo] pointer and an
    error as Go returns it, the pointer being non-nil beside the error
    when only the transcript failed. *)
Definition GetVideoInfo (c : t) (videoURL : string)
  : IO ToolEvent W (option VideoInfo.t * option error) :=
  m ← GetVideoMetadata c videoURL;
  match m with
  | Err err => io_ret (None, Some err)
  | Ok metadata =>
    t ← GetTranscript c videoURL;
    match t with
    | Err err =>
      io_ret (Some {| VideoInfo.Transcript := None; VideoInfo.Metadata := metadata |},
              Some (Wrapped "got metadata but transcript failed" err))
    | Ok transcript =>
      io_ret (Some {| VideoInfo.Transcript := Some transcript;
                      VideoInfo.Metadata := metadata |}, None)
    end
  end.
End Methods.
End Client.

(** Tools for concrete runs: the command leaves [out] whatever its
    arguments, the GET meets [page]. *)
Definition scriptedTools (out : CommandResult) (page : Download) : Tools unit :=
  {| runCommand _ _ w := (out, w); httpGet _ w := (page, w) |}.

Definition sampleClient : Client.t := {| Client.ytdlpPath := "yt-dlp"; Client.timeout := 120 |}.

Definition idle : Run ToolEvent unit := {| now := tt; log := [] |}.

Definition noNumbers : NumberReader := fun _ => 0%Z.

(** What yt-dlp prints for the scenario of the specification: the
    document that decodes to [scenarioMetadata]. *)
Definition trackDocument (ext url : string) : string :=
  "{" +:+ quoted "ext" +:+ ":" +:+ quoted ext +:+ "," +:+
  quoted "url" +:+ ":" +:+ quoted url +:+ "}".

Definition videoDocument : string :=
  "{" +:+ quoted "automatic_captions" +:+ ":{" +:+ quoted "en" +:+ ":[" +:+
  trackDocument "json3" "U1" +:+ "," +:+ trackDocument "vtt" "U2" +:+ "]}}".

Definition printsCaptions : CommandResult :=
  {| runErr := None; stdout := videoDocument; stderr := "" |}.

(** ** The Claude client ([pkg/claude]) *)

Definition BaseURL : string := "https://api.anthropic.com/v1".
Definition MessagesEndpoint : string := "/messages".
Definition AnthropicVersion : string := "2023-06-01".
Definition DefaultModel : string := "claude-sonnet-4-5-20250929".
Definition DefaultMaxTokens : Z := 4096.

Module Message.
Record t := { Role : string; Content : string }.
End Message.

(** [claude.MessageRequest]; the temperature is a [float64] the client
    never looks at, kept as its literal. *)
Module MessageRequest.
Record t := {
  Model : string; MaxTokens : Z; Messages : list Message.t;
  System : string; Temperature : string }.
End MessageRequest.

Module ContentBlock.
Record t := { Type_ : string; Text : string }.
End ContentBlock.

Module Usage.
Record t := { InputTokens : Z; OutputTokens : Z }.
End Usage.

Module MessageResponse.
Record t := {
  ID : string; Type_ : string; Role : string; Content : list ContentBlock.t;
  Model : string; StopReason : string; StopSequence : string; Usage : Usage.t }.
End MessageResponse.

Module ErrorDetail.
Record t := { Type_ : string; Message : string }.
End ErrorDetail.

Module ErrorResponse.
Record t := { Type_ : string; Error : ErrorDetail.t }.
End ErrorResponse.

(** [json.Marshal], and the text [%v] prints for an error of the
    standard library: both are outside the repository. *)
Class JSONEncoder (T : Type) := Marshal : T -> result string.
Class ErrorPrinter := errorString : error -> string.

(** What one [httpClient.Do] meets: an error, or a response with its
    status and with what [io.ReadAll] would read from its body. *)
Inductive Attempt :=
| Failed (err : error)
| Answered (status : Z) (body : result string).

(** The request the client builds once and sends at every attempt. *)
Record HTTPRequest := { target : string; headers : list (string * string); payload : string }.

Inductive ApiEvent :=
| EvDo (httpReq : HTTPRequest)
| EvSleep (seconds : Z).

(** [http.NewRequestWithContext] may refuse the url; [Do] and
    [time.Sleep] go to the world. *)
Class Network (W : Type) := {
  requestError : string -> option error;
  doRequest : HTTPRequest -> W -> Attempt * W;
  sleepFor : Z -> W -> W
}.

(** How the retry loop of [SendMessage] is left: by a [return] inside
    it, by [break] with the response, or because its condition
    [attempt < maxRetries] no longer holds. *)
Inductive LoopExit :=
| Returned (err : error)
| Broke (status : Z) (body : result string)
| Exhausted.

Module ClaudeClient.

(** [claude.Client] without its HTTP client, which is the world. *)
Record t := { apiKey : string; model : string; baseURL : string }.

Definition maxRetries : Z := 3.

Section Methods.
Context {W : Type} {net : Network W}.
Context {encRequest : JSONEncoder MessageRequest.t}.
Context {decResponse : JSONDecoder MessageResponse.t} {decError : JSONDecoder ErrorResponse.t}.
Context {printer : ErrorPrinter}.

(** The body of the loop [for attempt := 0; attempt < maxRetries;
    attempt++]; [next] is the rest of the loop, run on [continue]. *)
Definition attemptOnce (httpReq : HTTPRequest) (attempt : Z) (next : IO ApiEvent W LoopExit)
  : IO ApiEvent W LoopExit :=
  a ← perform (EvDo httpReq) (doRequest httpReq);
  match a with
  | Failed err =>
    if (attempt =? maxRetries - 1)%Z
    then io_ret (Returned (errorfDetail ErrTimeout (errorString err)))
    else
      let seconds := ((attempt + 1) * 2)%Z in
      _ ← perform (EvSleep seconds) (fun w => (tt, sleepFor seconds w));
      next
  | Answered status body =>
    if (status =? 429)%Z then
      if (attempt =? maxRetries - 1)%Z
      then io_ret (Returned ErrRateLimitExceeded)
      else
        let seconds := ((attempt + 1) * 10)%Z in
        _ ← perform (EvSleep seconds) (fun w => (tt, sleepFor seconds w));
        next
    else io_ret (Broke status body)
  end.

(** The loop, [remaining] iterations being left before its condition
    fails. *)
Fixpoint retryLoop (httpReq : HTTPRequest) (remaining : nat) (attempt : Z)
  : IO ApiEvent W LoopExit :=
  match remaining with
  | O => io_ret Exhausted
  | S k => attemptOnce httpReq attempt (retryLoop httpReq k (attempt + 1)%Z)
  end.

(** What [SendMessage] does with the response the loop leaves. *)
Definition readResponse (status : Z) (body : result string) : result MessageResponse.t :=
  match body with
  | Err err => Err (Wrapped "failed to read response" err)
  | Ok body =>
    if negb (status =? 200)%Z then
      match Unmarshal (T := ErrorResponse.t) body with
      | Err _ =>
        Err (errorfDetail ErrAPIError ("status " +:+ itoa status +:+ ", body: " +:+ body))
      | Ok errResp =>
        Err (errorfDetail ErrAPIError (ErrorDetail.Message (ErrorResponse.Error errResp)))
      end
    else
      match Unmarshal (T := MessageResponse.t) body with
      | Err err => Err (Wrapped "failed to parse response" err)
      | Ok msgResp =>
        match MessageResponse.Content msgResp with
        | [] => Err ErrEmptyResponse
        | first :: _ =>
          if String.eqb (ContentBlock.Text first) "" then Err ErrEmptyResponse
          else Ok msgResp
        end
      end
  end.

(** [Client.SendMessage].  [None] stands for the code after the loop
    running without a response, which is what would happen were the
    loop left by its condition. *)
Definition SendMessage (c : t) (req : MessageRequest.t)
  : IO ApiEvent W (option (result MessageResponse.t)) :=
  let req :=
    if String.eqb (MessageRequest.Model req) "" then
      {| MessageRequest.Model := model c;
         MessageRequest.MaxTokens := MessageRequest.MaxTokens req;
         MessageRequest.Messages := MessageRequest.Messages req;
         MessageRequest.System := MessageRequest.System req;
         MessageRequest.Temperature := MessageRequest.Temperature req |}
    else req in
  let req :=
    if (MessageRequest.MaxTokens req =? 0)%Z then
      {| MessageRequest.Model := MessageRequest.Model req;
         MessageRequest.MaxTokens := DefaultMaxTokens;
         MessageRequest.Messages := MessageRequest.Messages req;
         MessageRequest.System := MessageRequest.System req;
         MessageRequest.Temperature := MessageRequest.Temperature req |}
    else req in
  match Marshal req with
  | Err err => io_ret (Some (Err (Wrapped "failed to marshal request" err)))
  | Ok reqBody =>
    match requestError (baseURL c +:+ MessagesEndpoint) with
    | Some err => io_ret (Some (Err (Wrapped "failed to create request" err)))
    | None =>
      let httpReq :=
        {| target := baseURL c +:+ MessagesEndpoint;
           headers := [("Content-Type", "application/json"); ("x-api-key", apiKey c);
                       ("anthropic-version", AnthropicVersion)];
           payload := reqBody |} in
      exit ← retryLoop httpReq (Z.to_nat maxRetries) 0%Z;
      match exit with
      | Returned err => io_ret (Some (Err err))
      | Broke status body => io_ret (Some (readResponse status body))
      | Exhausted => io_ret None
      end
    end
  end.

(** [Client.SendMessageWithSystem]. *)
Definition SendMessageWithSystem (c : t) (systemPrompt userMessage : string)
  : IO ApiEvent W (option (result string)) :=
  let req :=
    {| MessageRequest.Model := model c;
       MessageRequest.MaxTokens := DefaultMaxTokens;
       MessageRequest.Messages :=
         [{| Message.Role := "user"; Message.Content := userMessage |}];
       MessageRequest.System := systemPrompt;
       MessageRequest.Temperature := "0" |} in
  r ← SendMessage c req;
  match r with
  | None => io_ret None
  | Some (Err err) => io_ret (Some (Err err))
  | Some (Ok resp) =>
    match MessageResponse.Content resp with
    | [] => io_ret (Some (Err ErrEmptyResponse))
    | first :: _ => io_ret (Some (Ok (ContentBlock.Text first)))
    end
  end.

(** [Client.SendSimpleMessage]. *)
Definition SendSimpleMessage (c : t) (userMessage : string)
  : IO ApiEvent W (option (result string)) :=
  let req :=
    {| MessageRequest.Model := model c;
       MessageRequest.MaxTokens := DefaultMaxTokens;
       MessageRequest.Messages :=
         [{| Message.Role := "user"; Message.Content := userMessage |}];
       MessageRequest.System := "";
       MessageRequest.Temperature := "0" |} in
  r ← SendMessage c req;
  match r with
  | None => io_ret None
  | Some (Err err) => io_ret (Some (Err err))
  | Some (Ok resp) =>
    match MessageResponse.Content resp with
    | [] => io_ret (Some (Err ErrEmptyResponse))
    | first :: _ => io_ret (Some (Ok (ContentBlock.Text first)))
    end
  end.
End Methods.
End ClaudeClient.



(** A network for concrete runs: every request meets [answer]. *)
Definition scriptedNetwork (answer : Attempt) : Network unit :=
  {| requestError _ := None; doRequest _ w := (answer, w); sleepFor _ w := w |}.

Definition quiet : Run ApiEvent unit := {| now := tt; log := [] |}.

Definition sampleKey : ClaudeClient.t :=
  {| ClaudeClient.apiKey := "k"; ClaudeClient.model := DefaultModel;
     ClaudeClient.baseURL := BaseURL |}.

(** An encoder for concrete runs, which depend on the document only
    through the decoders. *)
Definition encodesAs {T} (document : string) : JSONEncoder T := fun _ => Ok document.

Definition plainPrinter : ErrorPrinter := fun _ => "error".

(** A reply of the API with one text block, and what it decodes to. *)
Definition apiReply : string :=
  "{" +:+ quoted "content" +:+ ":[{" +:+ quoted "type" +:+ ":" +:+ quoted "text" +:+ "," +:+
  quoted "text" +:+ ":" +:+ quoted "hello" +:+ "}]}".

Definition apiValue : MessageResponse.t :=
  {| MessageResponse.ID := ""; MessageResponse.Type_ := ""; MessageResponse.Role := "";
     MessageResponse.Content := [{| ContentBlock.Type_ := "text"; ContentBlock.Text := "hello" |}];
     MessageResponse.Model := ""; MessageResponse.StopReason := "";
     MessageResponse.StopSequence := "";
     MessageResponse.Usage := {| Usage.InputTokens := 0; Usage.OutputTokens := 0 |} |}.

(** Metadata with captions in French only. *)
Definition frenchOnly : gmap string JSON :=
  {[ "subtitles" := JObject {[ "fr" := JArray [track "vtt" "U9"] ]} ]}.

(** No byte of [s] is [c]. *)
Fixpoint lacks (c : ascii) (s : string) : bool :=
  match s with
  | EmptyString => true
  | String d s' => negb (Ascii.eqb c d) && lacks c s'
  end.

Definition backtick : ascii := "`".

(** ** Statements built as text ([internal/db], the two updates) *)

(** An argument passed beside the text of a statement. *)
Inductive SQLArg :=
| ArgString (s : string)
| ArgInt (n : Z).

Module UpdateConceptRequest.
Record t := { Title : option string; Description : option string }.
End UpdateConceptRequest.

Module UpdateGeneratedContentRequest.
Record t := { Title : option string; Body : option string; Status : option string }.
End UpdateGeneratedContentRequest.

Inductive TextEvent :=
| EvQueryRowText (query : string) (args : list SQLArg).

(** [DB.QueryRow(query, args...).Scan] for a statement given as text. *)
Class TextDB (W : Type) := {
  conceptByText : string -> list SQLArg -> W -> result Concept.t * W;
  contentByText : string -> list SQLArg -> W -> result GeneratedContent.t * W
}.

(** [query[:len(query)-2]]. *)
Definition dropLast2 (query : string) : string :=
  String.substring 0 (String.length query - 2) query.

(** One step of the two builders: [if field != nil], the assignment
    is added to the text, the value to the arguments, and the counter
    moves on. *)
Definition addField (column : string) (field : option string)
    (st : string * list SQLArg * Z) : string * list SQLArg * Z :=
  let '(query, args, argCount) := st in
  match field with
  | Some value =>
    (query +:+ column +:+ " = $" +:+ itoa argCount +:+ ", ", args ++ [ArgString value],
     (argCount + 1)%Z)
  | None => (query, args, argCount)
  end.

Section TextStatements.
Context {W : Type} {db : TextDB W}.

(** [db.UpdateConcept]. *)
Definition UpdateConcept (id : Z) (req : UpdateConceptRequest.t)
  : IO TextEvent W (result Concept.t) :=
  let st := ("UPDATE concepts SET ", [], 1%Z) in
  let st := addField "title" (UpdateConceptRequest.Title req) st in
  let '(query, args, argCount) := addField "description" (UpdateConceptRequest.Description req) st in
  let query := dropLast2 query in
  let query :=
    query +:+ " WHERE id = $" +:+ itoa argCount +:+
    " RETURNING id, title, description, source_content_id, created_at, updated_at" in
  let args := args ++ [ArgInt id] in
  r ← perform (EvQueryRowText query args) (conceptByText query args);
  match r with
  | Err ErrNoRows => io_ret (Err (ErrorString "concept not found"))
  | Err err => io_ret (Err (Wrapped "failed to update concept" err))
  | Ok c => io_ret (Ok c)
  end.

(** [db.UpdateGeneratedContent]. *)
Definition UpdateGeneratedContent (id : Z) (req : UpdateGeneratedContentRequest.t)
  : IO TextEvent W (result GeneratedContent.t) :=
  let st := ("UPDATE generated_contents SET ", [], 1%Z) in
  let st := addField "title" (UpdateGeneratedContentRequest.Title req) st in
  let st := addField "body" (UpdateGeneratedContentRequest.Body req) st in
  let '(query, args, argCount) :=
    addField "status" (UpdateGeneratedContentRequest.Status req) st in
  let query := query +:+ "updated_at = NOW() WHERE id = $" +:+ itoa argCount +:+ " " in
  let args := args ++ [ArgInt id] in
  let query :=
    query +:+
    "RETURNING id, platform, title, body, concept_ids, status, published_at, created_at, updated_at" in
  r ← perform (EvQueryRowText query args) (contentByText query args);
  match r with
  | Err ErrNoRows => io_ret (Err (ErrorString "generated content not found"))
  | Err err => io_ret (Err (Wrapped "failed to update generated content" err))
  | Ok gc => io_ret (Ok gc)
  end.
End TextStatements.

(** The columns a request sets, with their values, in the order of the
    builder. *)
Definition setColumns (fields : list (string * option string)) : list (string * string) :=
  omap (fun '(column, field) => match field with Some v => Some (column, v) | None => None end)
       fields.

(** The assignments [column = $k] for [columns], numbered from [k]. *)
Fixpoint assignments (k : Z) (columns : list string) : list string :=
  match columns with
  | [] => []
  | column :: rest => (column +:+ " = $" +:+ itoa k) :: assignments (k + 1)%Z rest
  end.

(** The statement [UpdateGeneratedContent] is meant to send for the
    columns [set]. *)
Definition contentUpdateText (set : list (string * string)) : string :=
  "UPDATE generated_contents SET " +:+
  Join (assignments 1 (map fst set) ++ ["updated_at = NOW()"]) ", " +:+
  " WHERE id = $" +:+ itoa (1 + Z.of_nat (length set)) +:+
  " RETURNING id, platform, title, body, concept_ids, status, published_at, created_at, updated_at".

(** The statement [UpdateConcept] sends for the columns [set]: with
    no column the two bytes cut from the end are those of [SET ]. *)
Definition conceptUpdateText (set : list (string * string)) : string :=
  match set with
  | [] => "UPDATE concepts SE"
  | _ => "UPDATE concepts SET " +:+ Join (assignments 1 (map fst set)) ", "
  end +:+
  " WHERE id = $" +:+ itoa (1 + Z.of_nat (length set)) +:+
  " RETURNING id, title, description, source_content_id, created_at, updated_at".

(** ** Cleaning, declaratively *)

(** [\s+] replaced by one space: [squeeze inRun s] drops the white
    space that continues a run and writes a space where a run
    begins. *)
Fixpoint squeeze (inRun : bool) (s : string) : string :=
  match s with
  | EmptyString => EmptyString
  | String c s' =>
    if reSpace c then
      if inRun then squeeze true s' else String " " (squeeze true s')
    else String c (squeeze false s')
  end.

(** Every byte of [\s] in [s] is a space and is followed by none; with
    [inRun], [s] does not begin with one either. *)
Fixpoint singleSpaced (inRun : bool) (s : string) : bool :=
  match s with
  | EmptyString => true
  | String c s' =>
    if reSpace c then negb inRun && Ascii.eqb c " " && singleSpaced true s'
    else singleSpaced false s'
  end.

(** The number of bytes of the class [p] at the start of [s], and what
    follows them. *)
Fixpoint runLength (p : ascii -> bool) (s : string) : nat :=
  match s with
  | String c s' => if p c then S (runLength p s') else 0
  | EmptyString => 0
  end.

Fixpoint dropRun (p : ascii -> bool) (s : string) : string :=
  match s with
  | String c s' => if p c then dropRun p s' else s
  | EmptyString => EmptyString
  end.

(** [s] begins with the encoding of a white-space rune. *)
Definition leadsWithSpace (s : string) : bool :=
  match s with
  | String c s1 =>
    asciiSpace c ||
    match s1 with
    | String d s2 =>
      isSpace2 c d ||
      match s2 with
      | String e _ => isSpace3 c d e
      | EmptyString => false
      end
    | EmptyString => false
    end
  | EmptyString => false
  end.

(** * Properties *)

(** ** Running the state monad *)

Section Run.
Context {W : Type}.

Lemma run_bind {A B} (m : M W A) (k : A -> M W B) st a st' :
  m st = (a, st') -> (m ≫= k) st = k a st'.
Proof. intros H. unfold mbind, M_bind, bind. rewrite H. reflexivity. Qed.

Lemma run_bind_eq {A B} (m : M W A) (k : A -> M W B) st :
  (m ≫= k) st = k (m st).1 (m st).2.
Proof. unfold mbind, M_bind, bind. destruct (m st). reflexivity. Qed.

Lemma run_ret {A} (a : A) (st : State W) : ret a st = (a, st).
Proof. reflexivity. Qed.

Lemma run_call {A} (ev : Event) (f : W -> A * W) (st : State W) :
  call ev f st = ((f (world st)).1, Build_State (f (world st)).2 (trace st ++ [ev])).
Proof. unfold call. destruct (f (world st)). reflexivity. Qed.

Lemma emits_ret {A} P (a : A) : emits (W:=W) P (ret a).
Proof. intros st. exists []. rewrite app_nil_r. split; [reflexivity | constructor]. Qed.

Lemma emits_call {A} (P : Event -> Prop) ev (f : W -> A * W) : P ev -> emits P (call ev f).
Proof.
  intros HP st. exists [ev]. rewrite run_call. simpl.
  split; [reflexivity | repeat constructor; exact HP].
Qed.

Lemma emits_bind {A B} P (m : M W A) (k : A -> M W B) :
  emits P m -> (forall a, emits P (k a)) -> emits P (m ≫= k).
Proof.
  intros Hm Hk st. rewrite run_bind_eq.
  destruct (Hm st) as (e1 & E1 & F1).
  destruct (Hk (m st).1 (m st).2) as (e2 & E2 & F2).
  exists (e1 ++ e2). rewrite E2, E1, app_assoc. split; [reflexivity | ].
  apply Forall_app. split; assumption.
Qed.

End Run.

(** One step of an [emits] proof: split a bind, decide a call, or take
    the branches of a match apart. *)
Ltac emits_step :=
  match goal with
  | |- emits _ (_ ≫= _) => apply emits_bind; [ | intros ? ]
  | |- emits _ (ret _) => apply emits_ret
  | |- emits _ (call _ _) => apply emits_call
  | |- emits _ (match ?x with _ => _ end) => destruct x
  | |- emits _ (if ?x then _ else _) => destruct x
  | |- emits _ (let '(_, _) := ?x in _) => destruct x
  end.

Section Batches.
Context {W : Type} {ext : External W}.

Lemma isRead_quiet ev : isRead ev -> isAcquisition ev = false /\ isDerivation ev = false.
Proof. destruct ev; simpl; intros H; try contradiction; split; reflexivity. Qed.


Lemma GetConceptsBySourceContentID_emits id :
  emits isRead (GetConceptsBySourceContentID (W:=W) id).
Proof. unfold GetConceptsBySourceContentID. repeat emits_step; exact I. Qed.

Lemma GetQuizzesBySourceContentID_emits id :
  emits isRead (GetQuizzesBySourceContentID (W:=W) id).
Proof. unfold GetQuizzesBySourceContentID. repeat emits_step; exact I. Qed.

Lemma GetGeneratedContentByConceptIDs_emits ids :
  emits isRead (GetGeneratedContentByConceptIDs (W:=W) ids).
Proof. unfold GetGeneratedContentByConceptIDs. repeat emits_step; exact I. Qed.

Lemma getExistingProcessResult_emits sc :
  emits isRead (getExistingProcessResult (W:=W) sc).
Proof.
  unfold getExistingProcessResult.
  apply emits_bind; [apply GetConceptsBySourceContentID_emits | intros r1].
  apply emits_bind; [apply GetQuizzesBySourceContentID_emits | intros r2].
  apply emits_bind; [ | intros r3; apply emits_ret].
  destruct (0 <? _); [ | apply emits_ret].
  apply emits_bind; [apply GetGeneratedContentByConceptIDs_emits | intros r3].
  destruct r3; apply emits_ret.
Qed.
End Batches.

(** ** The orchestrator *)

Section Orchestrator.
Context {W : Type} {ext : External W}.
Context {decConcepts : JSONDecoder (list ConceptData.t)}
        {decQuiz : JSONDecoder (list QuizData.t)}
        {decContent : JSONDecoder ContentData.t} {tables : UnicodeTables}.


(** C2. When the url is new, the transcript is acquired and the source
    record is saved, and then either concept extraction fails or the
    batch insert of the extracted concepts fails, [ProcessYouTubeURL]
    returns success with the saved SourceContent and empty Concepts,
    Quizzes and GeneratedContent. *)
Theorem ProcessYouTubeURL_concept_failure
    (s : ClaudeService) (url : string) (st st1 st2 st3 st4 : State W)
    (info : VideoInfo.t) (transcript : Transcript.t) (sourceContent : SourceContent.t) :
  GetSourceContentByURL url st = (Ok None, st1) ->
  GetVideoInfo url st1 = (Ok info, st2) ->
  VideoInfo.Transcript info = Some transcript ->
  CreateSourceContent
    {| CreateSourceContentRequest.Type_ := "youtube";
       CreateSourceContentRequest.URL := url;
       CreateSourceContentRequest.Title := Metadata.Title (VideoInfo.Metadata info);
       CreateSourceContentRequest.Transcript := Transcript.Text transcript |} st2
    = (Ok sourceContent, st3) ->
  let extraction :=
    ExtractConcepts s (Transcript.Text transcript) (SourceContent.ID sourceContent) st3 in
  (exists err, extraction = (Err err, st4)) \/
  (exists concepts st' err,
      extraction = (Ok concepts, st') /\ CreateConceptsBatch concepts st' = (Err err, st4)) ->
  ProcessYouTubeURL s url st =
    (Ok {| ProcessResult.SourceContent := Some sourceContent;
           ProcessResult.Concepts := Slice [];
           ProcessResult.Quizzes := Slice [];
           ProcessResult.GeneratedContent := Slice [] |}, st4).
Proof.
  intros Hdup Hinfo Htr Hsave extraction Hfail.
  unfold ProcessYouTubeURL.
  rewrite (run_bind _ _ _ _ _ Hdup), (run_bind _ _ _ _ _ Hinfo), Htr.
  rewrite (run_bind _ _ _ _ _ Hsave).
  destruct Hfail as [(err & Hext) | (concepts & st' & err & Hext & Hbatch)].
  - rewrite (run_bind _ _ _ _ _ Hext). reflexivity.
  - rewrite (run_bind _ _ _ _ _ Hext), (run_bind _ _ _ _ _ Hbatch). reflexivity.
Qed.

(** C10. Called with an empty list ([nil] or empty), [CreateQuizBatch]
    and [CreateGeneratedContentBatch] return an empty non-nil list and
    no error, and leave the world and the trace as they were: no
    transaction is begun and no store operation is issued. *)
Theorem CreateBatch_empty
    (questions : slice QuizQuestion.t) (contents : slice GeneratedContent.t) (st : State W) :
  len questions = 0 ->
  len contents = 0 ->
  CreateQuizBatch questions st = (Ok (Slice []), st) /\
  CreateGeneratedContentBatch contents st = (Ok (Slice []), st).
Proof.
  intros Hq Hc. unfold CreateQuizBatch, CreateGeneratedContentBatch.
  rewrite Hq, Hc. split; reflexivity.
Qed.
End Orchestrator.

Section ContentStage.
Context {W : Type} {ext : External W}.
Context {decConcepts : JSONDecoder (list ConceptData.t)}
        {decQuiz : JSONDecoder (list QuizData.t)}
        {decContent : JSONDecoder ContentData.t} {tables : UnicodeTables}.

Lemma reachesContentStage_run s url st sc saved quizzes st' :
  reachesContentStage s url st sc saved quizzes st' ->
  ProcessYouTubeURL s url st = contentStage s sc saved quizzes st'.
Proof.
  intros (st1 & info & tr & st2 & st3 & cs & st4 & st5 & gen & st6 &
          H1 & H2 & H3 & H4 & H5 & H6 & H7 & H8).
  unfold ProcessYouTubeURL.
  rewrite (run_bind _ _ _ _ _ H1), (run_bind _ _ _ _ _ H2), H3.
  rewrite (run_bind _ _ _ _ _ H4), (run_bind _ _ _ _ _ H5), (run_bind _ _ _ _ _ H6).
  unfold quizStage.
  rewrite (run_bind _ _ _ _ _ H7), (run_bind _ _ _ _ _ H8). reflexivity.
Qed.

Lemma appendList_append1 {A} (acc : slice A) (x : A) (l : list A) :
  appendList (append1 acc x) l = appendList acc (x :: l).
Proof.
  unfold appendList, append1. destruct l; simpl.
  - reflexivity.
  - rewrite <- app_assoc. reflexivity.
Qed.

(** The loop of step 6 keeps the successful attempts, in order. *)
Lemma generateContents_successes s ps saved acc st outs st1 :
  contentAttempts s ps saved st = (outs, st1) ->
  generateContents s ps saved acc st = (appendList acc (successes outs), st1).
Proof.
  revert acc st outs st1. induction ps as [ | p ps IH]; intros acc st outs st1 Hrun.
  - simpl in Hrun. rewrite run_ret in Hrun. inversion Hrun; subst. reflexivity.
  - simpl in Hrun. simpl. rewrite run_bind_eq in Hrun. rewrite run_bind_eq.
    destruct (GenerateContent s p saved st) as [r st'] eqn:Hr. simpl in *.
    rewrite run_bind_eq in Hrun. rewrite run_ret in Hrun.
    destruct (contentAttempts s ps saved st') as [rs st''] eqn:Hrs. simpl in Hrun.
    inversion Hrun; subst. destruct r as [c | e]; simpl.
    + rewrite (IH _ _ _ _ Hrs). rewrite appendList_append1. reflexivity.
    + apply IH. exact Hrs.
Qed.

Lemma contentAttempts_length s ps saved st :
  length (contentAttempts s ps saved st).1 = length ps.
Proof.
  revert st. induction ps as [ | p ps IH]; intros st; simpl.
  - reflexivity.
  - rewrite run_bind_eq, run_bind_eq, run_ret. simpl. rewrite IH. reflexivity.
Qed.

Lemma successes_failures {A} (rs : list (result A)) :
  length (successes rs) + failures rs = length rs.
Proof.
  induction rs as [ | [a | e] rs IH]; simpl; lia.
Qed.

Lemma insertedContents_app e1 e2 :
  insertedContents (e1 ++ e2) = insertedContents e1 ++ insertedContents e2.
Proof.
  induction e1 as [ | ev e1 IH]; simpl; [reflexivity | ].
  destruct ev as [ | | | q | | | | ]; try exact IH.
  destruct q; try exact IH. simpl. rewrite IH. reflexivity.
Qed.

(** The insert loop attempts the rows in order and stops at the first
    refusal; when it succeeds every row was attempted and one row was
    created for each. *)
Lemma insertContents_trace items acc st :
  exists evs,
    trace (insertContents items acc st).2 = trace st ++ evs /\
    Forall (fun ev => isTransaction ev = true) evs /\
    insertedContents evs `prefix_of` items /\
    forall created, (insertContents items acc st).1 = Ok created ->
      insertedContents evs = items /\ len created = len acc + length items.
Proof.
  revert acc st. induction items as [ | gc items IH]; intros acc st.
  - exists []. simpl. rewrite app_nil_r.
    split; [reflexivity | ]. split; [constructor | ]. split; [apply prefix_nil | ].
    intros created Hc. unfold ret in Hc. simpl in Hc. inversion Hc; subst.
    split; [reflexivity | lia].
  - simpl. rewrite run_bind_eq, run_call. simpl.
    destruct (contentRow (InsertGeneratedContent gc) (world st)) as [[row | err] w] eqn:Hrow;
      simpl.
    + destruct (IH (append1 acc row)
                   {| world := w; trace := trace st ++ [EvTxQueryRow (InsertGeneratedContent gc)] |})
        as (evs & E & F & P & S).
      exists (EvTxQueryRow (InsertGeneratedContent gc) :: evs).
      rewrite E. simpl. rewrite <- app_assoc. simpl.
      split; [reflexivity | ]. split; [constructor; [reflexivity | exact F] | ].
      split; [apply prefix_cons; exact P | ].
      intros created Hc. destruct (S created Hc) as [S1 S2].
      split; [rewrite S1; reflexivity | ].
      rewrite S2. unfold len, append1. simpl. rewrite length_app. simpl. lia.
    + exists [EvTxQueryRow (InsertGeneratedContent gc)]. simpl.
      split; [reflexivity | ]. split; [repeat constructor | ].
      split; [apply prefix_cons, prefix_nil | ].
      intros created Hc. discriminate.
Qed.

(** What a run of [inTransaction] is, step by step. *)
Lemma inTransaction_run {A} (inserts : M W (result (slice A))) (st : State W) :
  inTransaction inserts st =
    let '(b, w) := txBegin (world st) in
    let st1 := {| world := w; trace := trace st ++ [EvBegin] |} in
    match b with
    | Some err => (Err (Wrapped "failed to begin transaction" err), st1)
    | None =>
      let '(created, st2) := inserts st1 in
      match created with
      | Err err =>
        (Err err, {| world := txRollback (world st2); trace := trace st2 ++ [EvRollback] |})
      | Ok created =>
        let '(c, w3) := txCommit (world st2) in
        let st3 := {| world := txRollback w3;
                      trace := (trace st2 ++ [EvCommit]) ++ [EvRollback] |} in
        match c with
        | Some err => (Err (Wrapped "failed to commit transaction" err), st3)
        | None => (Ok created, st3)
        end
      end
    end.
Proof.
  unfold inTransaction, mbind, M_bind, bind, call, ret.
  destruct (txBegin (world st)) as [[err | ] w]; [reflexivity | ].
  destruct (inserts _) as [[created | err] st2]; [ | reflexivity].
  destruct (txCommit (world st2)) as [[err | ] w3]; reflexivity.
Qed.

Lemma CreateGeneratedContentBatch_trace contents st :
  exists evs,
    trace (CreateGeneratedContentBatch contents st).2 = trace st ++ evs /\
    Forall (fun ev => isTransaction ev = true) evs /\
    insertedContents evs `prefix_of` elems contents /\
    forall saved, (CreateGeneratedContentBatch contents st).1 = Ok saved ->
      insertedContents evs = elems contents /\ len saved = len contents.
Proof.
  unfold CreateGeneratedContentBatch.
  destruct (len contents =? 0) eqn:Hlen.
  - exists []. unfold ret. cbn [fst snd]. rewrite app_nil_r.
    apply Nat.eqb_eq in Hlen.
    split; [reflexivity | ]. split; [constructor | ]. split; [apply prefix_nil | ].
    intros saved Hs. inversion Hs; subst. split.
    + unfold len in Hlen. apply length_zero_iff_nil in Hlen. rewrite Hlen. reflexivity.
    + rewrite Hlen. reflexivity.
  - rewrite inTransaction_run.
    destruct (txBegin (world st)) as [[err | ] w] eqn:Hb; cbn [fst snd trace].
    + exists [EvBegin].
      split; [reflexivity | ]. split; [repeat constructor | ].
      split; [apply prefix_nil | discriminate].
    + set (st1 := {| world := w; trace := trace st ++ [EvBegin] |}).
      destruct (insertContents_trace (elems contents) (Slice []) st1) as (evs & E & F & P & S).
      destruct (insertContents (elems contents) (Slice []) st1) as [[created | err] st2] eqn:Hins;
        cbn [fst snd] in E, S.
      * assert (Hall : Forall (fun ev => isTransaction ev = true)
                         (EvBegin :: evs ++ [EvCommit; EvRollback])).
        { constructor; [reflexivity | ]. apply Forall_app. split; [exact F | ].
          repeat constructor. }
        assert (Hins' : insertedContents (EvBegin :: evs ++ [EvCommit; EvRollback])
                        = insertedContents evs).
        { simpl. rewrite insertedContents_app. simpl. apply app_nil_r. }
        assert (Htr : (trace st2 ++ [EvCommit]) ++ [EvRollback]
                      = trace st ++ EvBegin :: evs ++ [EvCommit; EvRollback]).
        { rewrite E. subst st1. cbn [trace]. rewrite <- !app_assoc. reflexivity. }
        destruct (txCommit (world st2)) as [[err | ] w3] eqn:Hc; cbn [fst snd trace];
          exists (EvBegin :: evs ++ [EvCommit; EvRollback]);
          (split; [exact Htr | ]); (split; [exact Hall | ]); rewrite Hins';
          (split; [exact P | ]).
        -- discriminate.
        -- intros saved Hs. inversion Hs; subst.
           destruct (S saved eq_refl) as [S1 S2]. split; [exact S1 | ].
           rewrite S2. reflexivity.
      * cbn [fst snd trace]. exists (EvBegin :: evs ++ [EvRollback]).
        split; [rewrite E; subst st1; cbn [trace]; rewrite <- !app_assoc; reflexivity | ].
        split; [constructor; [reflexivity | apply Forall_app; split;
                  [exact F | repeat constructor]] | ].
        simpl. rewrite insertedContents_app. simpl. rewrite app_nil_r.
        split; [exact P | discriminate].
Qed.

(** C3. In a run that reaches the content generation stage, if
    exactly one of the three calls [GenerateContent] (linkedin,
    twitter, blog, in this order) fails, the loop skips it and keeps
    the two generated items; [ProcessYouTubeURL] returns success with
    the saved concepts and the quizzes; the only generated-content
    inserts attempted are those of the two items, in order; when the
    batch insert succeeds the result holds the two saved rows, and
    when it fails the GeneratedContent of the result is empty. *)
Theorem ProcessYouTubeURL_one_platform_fails
    (s : ClaudeService) (url : string) (st0 st st1 : State W)
    (sourceContent : SourceContent.t) (savedConcepts : slice Concept.t)
    (allQuizzes : slice QuizQuestion.t) (outs : list (result GeneratedContent.t)) :
  reachesContentStage s url st0 sourceContent savedConcepts allQuizzes st ->
  contentAttempts s platforms savedConcepts st = (outs, st1) ->
  failures outs = 1 ->
  exists c1 c2 res st2 evs,
    successes outs = [c1; c2] /\
    generateContents s platforms savedConcepts nilSlice st = (Slice [c1; c2], st1) /\
    ProcessYouTubeURL s url st0 = (Ok res, st2) /\
    ProcessResult.SourceContent res = Some sourceContent /\
    ProcessResult.Concepts res = savedConcepts /\
    ProcessResult.Quizzes res = allQuizzes /\
    trace st2 = trace st1 ++ evs /\
    insertedContents evs `prefix_of` [c1; c2] /\
    match (CreateGeneratedContentBatch (Slice [c1; c2]) st1).1 with
    | Ok savedContent =>
      ProcessResult.GeneratedContent res = savedContent /\
      len savedContent = 2 /\
      insertedContents evs = [c1; c2]
    | Err _ => ProcessResult.GeneratedContent res = Slice []
    end.
Proof.
  intros Hreach Hatt Hfail.
  assert (Hlen : length (successes outs) = 2).
  { pose proof (successes_failures outs) as Hsf.
    pose proof (contentAttempts_length s platforms savedConcepts st) as Hl.
    rewrite Hatt in Hl. simpl in Hl. lia. }
  destruct (successes outs) as [ | c1 [ | c2 [ | c3 l]]] eqn:Hsucc; try discriminate.
  pose proof (generateContents_successes s platforms savedConcepts nilSlice st outs st1 Hatt)
    as Hgen.
  rewrite Hsucc in Hgen. change (appendList nilSlice [c1; c2]) with (Slice [c1; c2]) in Hgen.
  destruct (CreateGeneratedContentBatch_trace (Slice [c1; c2]) st1) as (evs & E & F & P & S).
  set (r := CreateGeneratedContentBatch (Slice [c1; c2]) st1) in *.
  assert (Hsave : saveContents (Slice [c1; c2]) st1 =
                  (match r.1 with Ok saved => saved | Err _ => Slice [] end, r.2)).
  { unfold saveContents. change (0 <? len (Slice [c1; c2])) with true. cbv iota.
    rewrite run_bind_eq. fold r. destruct (r.1); reflexivity. }
  rewrite (reachesContentStage_run _ _ _ _ _ _ _ Hreach).
  unfold contentStage. rewrite (run_bind _ _ _ _ _ Hgen), (run_bind _ _ _ _ _ Hsave).
  unfold ret.
  eexists c1, c2, _, r.2, evs.
  split; [reflexivity | ]. split; [exact Hgen | ]. split; [reflexivity | ].
  cbn [ProcessResult.SourceContent ProcessResult.Concepts ProcessResult.Quizzes
       ProcessResult.GeneratedContent].
  split; [reflexivity | ]. split; [reflexivity | ]. split; [reflexivity | ].
  split; [exact E | ]. split; [exact P | ].
  fold r. clearbody r.
  destruct (r.1) as [saved | err] eqn:Hr.
  - destruct (S saved eq_refl) as [S1 S2].
    split; [reflexivity | ]. split; [exact S2 | exact S1].
  - reflexivity.
Qed.
End ContentStage.

(** ** Concrete runs *)


(** A new url and a derivation service that returns EmptyResponse. *)
Lemma ProcessYouTubeURL_concept_failure_witness :
  exists st1 st2 st3 st4 sourceContent,
    GetSourceContentByURL (ext := scripted emptyResponses) sampleURL start = (Ok None, st1) /\
    GetVideoInfo (ext := scripted emptyResponses) sampleURL st1 = (Ok sampleVideo, st2) /\
    CreateSourceContent (ext := scripted emptyResponses)
      {| CreateSourceContentRequest.Type_ := "youtube";
         CreateSourceContentRequest.URL := sampleURL;
         CreateSourceContentRequest.Title := "Loops";
         CreateSourceContentRequest.Transcript := "a b c" |} st2 = (Ok sourceContent, st3) /\
    ExtractConcepts (ext := scripted emptyResponses)
      (decConcepts := decodes conceptsReply conceptsValue) service "a b c"
      (SourceContent.ID sourceContent) st3
      = (Err (Wrapped "failed to extract concepts" ErrEmptyResponse), st4) /\
    runProcess emptyResponses sampleURL =
      (Ok {| ProcessResult.SourceContent := Some sourceContent;
             ProcessResult.Concepts := Slice [];
             ProcessResult.Quizzes := Slice [];
             ProcessResult.GeneratedContent := Slice [] |}, st4).
Proof.
  pose (st1 := (GetSourceContentByURL (ext := scripted emptyResponses) sampleURL start).2).
  pose (st2 := (GetVideoInfo (ext := scripted emptyResponses) sampleURL st1).2).
  pose (r := CreateSourceContent (ext := scripted emptyResponses)
               {| CreateSourceContentRequest.Type_ := "youtube";
                  CreateSourceContentRequest.URL := sampleURL;
                  CreateSourceContentRequest.Title := "Loops";
                  CreateSourceContentRequest.Transcript := "a b c" |} st2).
  pose (sourceContent := match r.1 with Ok sc => sc | Err _ => sampleSource end).
  pose (st4 := (ExtractConcepts (ext := scripted emptyResponses)
                  (decConcepts := decodes conceptsReply conceptsValue) service "a b c"
                  (SourceContent.ID sourceContent) r.2).2).
  assert (H1 : GetSourceContentByURL (ext := scripted emptyResponses) sampleURL start
               = (Ok None, st1)) by (vm_compute; reflexivity).
  assert (H2 : GetVideoInfo (ext := scripted emptyResponses) sampleURL st1
               = (Ok sampleVideo, st2)) by (vm_compute; reflexivity).
  assert (H3 : r = (Ok sourceContent, r.2)) by (vm_compute; reflexivity).
  assert (H4 : ExtractConcepts (ext := scripted emptyResponses)
                 (decConcepts := decodes conceptsReply conceptsValue) service "a b c"
                 (SourceContent.ID sourceContent) r.2
               = (Err (Wrapped "failed to extract concepts" ErrEmptyResponse), st4))
    by (vm_compute; reflexivity).
  exists st1, st2, r.2, st4, sourceContent.
  split; [exact H1 | ]. split; [exact H2 | ]. split; [exact H3 | ]. split; [exact H4 | ].
  apply (ProcessYouTubeURL_concept_failure
           (ext := scripted emptyResponses)
           (decConcepts := decodes conceptsReply conceptsValue)
           (decQuiz := rejecting) (decContent := rejecting) (tables := noTables)
           service sampleURL start st1 st2 r.2 st4 sampleVideo
           {| Transcript.Text := "a b c"; Transcript.Language := "en" |} sourceContent
           H1 H2 eq_refl H3).
  left. eexists. exact H4.
Defined.

(** The two batch functions on [nil] and on the empty slice. *)
Lemma CreateBatch_empty_witness :
  len (@nilSlice QuizQuestion.t) = 0 /\
  len (@Slice GeneratedContent.t []) = 0 /\
  CreateQuizBatch (ext := scripted emptyResponses) nilSlice start = (Ok (Slice []), start) /\
  CreateGeneratedContentBatch (ext := scripted emptyResponses) (Slice []) start
    = (Ok (Slice []), start).
Proof.
  split; [reflexivity | ]. split; [reflexivity | ].
  apply (CreateBatch_empty (ext := scripted emptyResponses) nilSlice (Slice []) start);
    reflexivity.
Defined.

(** A run in which only the twitter thread fails. *)
Lemma ProcessYouTubeURL_one_platform_fails_witness :
  exists sourceContent savedConcepts allQuizzes st outs st1,
    reachesContentStage (ext := scripted (twitterFails false))
      (decConcepts := decodes conceptsReply conceptsValue)
      (decQuiz := rejecting) (tables := noTables)
      service sampleURL start sourceContent savedConcepts allQuizzes st /\
    contentAttempts (ext := scripted (twitterFails false)) (decContent := rejecting)
      service platforms savedConcepts st = (outs, st1) /\
    failures outs = 1 /\
    exists c1 c2 res st2,
      successes outs = [c1; c2] /\
      runProcess (twitterFails false) sampleURL = (Ok res, st2) /\
      ProcessResult.Concepts res = savedConcepts /\
      ProcessResult.Quizzes res = allQuizzes.
Proof.
  eassert (Hreach : reachesContentStage (ext := scripted (twitterFails false))
                      (decConcepts := decodes conceptsReply conceptsValue)
                      (decQuiz := rejecting) (tables := noTables)
                      service sampleURL start _ _ _ _).
  { unfold reachesContentStage. do 10 eexists.
    split; [lazy; reflexivity | ]. split; [lazy; reflexivity | ].
    split; [lazy; reflexivity | ]. split; [lazy; reflexivity | ].
    split; [lazy; reflexivity | ]. split; [lazy; reflexivity | ].
    split; [lazy; reflexivity | ]. lazy; reflexivity. }
  match type of Hreach with
  | reachesContentStage _ _ _ _ ?saved _ ?st =>
    eassert (Hatt : contentAttempts (ext := scripted (twitterFails false))
                      (decContent := rejecting) service platforms saved st = (_, _))
      by (lazy; reflexivity)
  end.
  match type of Hatt with
  | _ = (?outs, _) => assert (Hfail : failures outs = 1) by (vm_compute; reflexivity)
  end.
  do 6 eexists.
  split; [exact Hreach | ]. split; [exact Hatt | ]. split; [exact Hfail | ].
  destruct (ProcessYouTubeURL_one_platform_fails
              (ext := scripted (twitterFails false))
              (decConcepts := decodes conceptsReply conceptsValue)
              (decQuiz := rejecting) (decContent := rejecting) (tables := noTables)
              service sampleURL start _ _ _ _ _ _ Hreach Hatt Hfail)
    as (c1 & c2 & res & st2 & evs & Hs & _ & Hrun & _ & Hcs & Hqs & _).
  exists c1, c2, res, st2. split; [exact Hs | ]. split; [exact Hrun | ].
  split; [exact Hcs | exact Hqs].
Defined.

(** The sample run of the twitter failure: the two other items are
    saved; and when the store refuses generated content the result
    keeps the concept and drops the content. *)
Example twitter_fails_two_items :
  exists res st,
    runProcess (twitterFails false) sampleURL = (Ok res, st) /\
    map GeneratedContent.Platform (elems (ProcessResult.GeneratedContent res))
      = ["linkedin"; "blog"] /\
    map GeneratedContent.Platform (insertedContents (trace st)) = ["linkedin"; "blog"].
Proof. do 2 eexists. split; [vm_compute; reflexivity | ]. split; vm_compute; reflexivity. Qed.

Example twitter_fails_store_refuses :
  exists res st,
    runProcess (twitterFails true) sampleURL = (Ok res, st) /\
    ProcessResult.GeneratedContent res = Slice [] /\
    len (ProcessResult.Concepts res) = 1 /\
    map GeneratedContent.Platform (insertedContents (trace st)) = ["linkedin"].
Proof.
  do 2 eexists. split; [vm_compute; reflexivity | ].
  split; [reflexivity | ]. split; vm_compute; reflexivity.
Qed.

(** ** Lookup of generated content by concept ids *)

Lemma matchTarget_elems targetID contentIDs gc contents :
  elems (matchTarget targetID contentIDs gc contents) =
    elems contents ++ (if bool_decide (targetID ∈ contentIDs) then [gc] else []).
Proof.
  induction contentIDs as [ | contentID rest IH]; simpl.
  - rewrite app_nil_r. reflexivity.
  - destruct (Z.eqb_spec contentID targetID) as [-> | Hne].
    + rewrite bool_decide_eq_true_2 by apply list_elem_of_here. reflexivity.
    + rewrite IH. f_equal. erewrite (bool_decide_ext (targetID ∈ contentID :: rest)).
      * reflexivity.
      * rewrite elem_of_cons. split; [intros [-> | Hin]; [contradiction | exact Hin] | ].
        intros Hin. right. exact Hin.
Qed.

Lemma matchTargets_elems conceptIDs gc contents :
  elems (matchTargets conceptIDs gc contents) = elems contents ++ replicate (hits conceptIDs gc) gc.
Proof.
  revert contents. induction conceptIDs as [ | targetID rest IH]; intros contents; simpl.
  - unfold hits. simpl. rewrite app_nil_r. reflexivity.
  - rewrite IH, matchTarget_elems. unfold hits. rewrite filter_cons.
    destruct (decide (targetID ∈ GeneratedContent.ConceptIDs gc)) as [Hin | Hout].
    + rewrite bool_decide_eq_true_2 by exact Hin. simpl. rewrite <- app_assoc. reflexivity.
    + rewrite bool_decide_eq_false_2 by exact Hout. rewrite app_nil_r. reflexivity.
Qed.

(** What the filter returns on rows that all scan: every stored item,
    in order, as many times as queried ids occur among its concept ids.
    So the items returned are those that share an id with the query,
    but an item sharing several ids is returned several times. *)
Lemma filterRows_multiplicity conceptIDs stored contents :
  exists found,
    filterRows conceptIDs (map Ok stored) contents = Ok found /\
    elems found =
      elems contents ++ flat_map (fun gc => replicate (hits conceptIDs gc) gc) stored.
Proof.
  revert contents. induction stored as [ | gc stored IH]; intros contents; simpl.
  - exists contents. rewrite app_nil_r. split; reflexivity.
  - destruct (IH (matchTargets conceptIDs gc contents)) as (found & Hf & He).
    exists found. split; [exact Hf | ]. rewrite He, matchTargets_elems, <- app_assoc.
    reflexivity.
Qed.

Lemma hits_pos conceptIDs gc :
  0 < hits conceptIDs gc <->
  exists id, id ∈ conceptIDs /\ id ∈ GeneratedContent.ConceptIDs gc.
Proof.
  unfold hits. split.
  - intros Hpos.
    destruct (filter (fun t => t ∈ GeneratedContent.ConceptIDs gc) conceptIDs)
      as [ | id l] eqn:Hfl; [simpl in Hpos; lia | ].
    assert (Hin : id ∈ filter (fun t => t ∈ GeneratedContent.ConceptIDs gc) conceptIDs)
      by (rewrite Hfl; apply list_elem_of_here).
    apply list_elem_of_filter in Hin. exists id. tauto.
  - intros (id & Hq & Hc).
    assert (Hin : id ∈ filter (fun t => t ∈ GeneratedContent.ConceptIDs gc) conceptIDs)
      by (apply list_elem_of_filter; tauto).
    destruct (filter _ conceptIDs); [inversion Hin | simpl; lia].
Qed.

(** The items returned are exactly the stored items that share a
    concept id with the query. *)
Lemma filterRows_membership conceptIDs stored found gc :
  filterRows conceptIDs (map Ok stored) nilSlice = Ok found ->
  gc ∈ elems found <->
  gc ∈ stored /\ exists id, id ∈ conceptIDs /\ id ∈ GeneratedContent.ConceptIDs gc.
Proof.
  intros Hf. destruct (filterRows_multiplicity conceptIDs stored nilSlice) as (found' & Hf' & He).
  rewrite Hf in Hf'. inversion Hf'; subst found'. rewrite He. simpl.
  rewrite <- hits_pos, list_elem_of_In, in_flat_map. split.
  - intros (x & Hx & Hin). apply list_elem_of_In, elem_of_replicate in Hin.
    destruct Hin as [-> Hn]. split; [apply list_elem_of_In; exact Hx | lia].
  - intros [Hs Hpos]. exists gc. split; [apply list_elem_of_In; exact Hs | ].
    apply list_elem_of_In, elem_of_replicate. split; [reflexivity | lia].
Qed.

(** C4, at a failing input.  The store holds one item whose concept ids
    are 1 and 2; queried with the ids 1 and 2,
    [GetGeneratedContentByConceptIDs] returns this item twice. *)
Theorem GetGeneratedContentByConceptIDs_returns_item_twice :
  let gc := sampleContent 9 "blog" [1; 2]%Z in
  knownContents processedBefore = [gc] /\
  (GetGeneratedContentByConceptIDs (ext := scripted processedBefore)
     (Slice [1; 2]%Z) start).1 = Ok (Slice [gc; gc]).
Proof. split; vm_compute; reflexivity. Qed.

(** The same defect in the cached path of [ProcessYouTubeURL]: the
    one stored item comes back twice. *)
Example duplicate_run_repeats_content :
  exists res st,
    runProcess processedBefore sampleURL = (Ok res, st) /\
    len (ProcessResult.GeneratedContent res) = 2.
Proof. do 2 eexists. split; vm_compute; reflexivity. Qed.

(** ** Quiz generation *)

Section Quiz.
Context {W : Type} {ext : External W}.
Context {decQuiz : JSONDecoder (list QuizData.t)} {tables : UnicodeTables}.


End Quiz.



(** ** Cleaning a transcript *)

(** C6, at a failing input.  Cleaning "a [Music] b" leaves the two
    spaces that surrounded the annotation; cleaning the result again
    collapses them: [CleanTranscript] is not idempotent there. *)
Theorem CleanTranscript_not_idempotent :
  let x := "a [Music] b" in
  CleanTranscript x = "a  b" /\
  CleanTranscript (CleanTranscript x) = "a b" /\
  CleanTranscript (CleanTranscript x) <> CleanTranscript x.
Proof.
  split; [vm_compute; reflexivity | ]. split; [vm_compute; reflexivity | ].
  vm_compute. discriminate.
Qed.

(** C7, at failing inputs.  The output of [CleanTranscript] on
    "a [Music] b" contains two consecutive spaces, and this input is the
    output of the SubRip decoder on a file with a music cue; its output
    on "[Mu[Music]sic]" is the noise token "[Music]". *)
Theorem CleanTranscript_leaves_double_space_and_token :
  ParseSRT srtWithMusic = Ok "a [Music] b" /\
  CleanTranscript "a [Music] b" = "a  b" /\
  Contains (CleanTranscript "a [Music] b") "  " = true /\
  CleanTranscript "[Mu[Music]sic]" = "[Music]" /\
  Contains (CleanTranscript "[Mu[Music]sic]") "[Music]" = true.
Proof. repeat split; vm_compute; reflexivity. Qed.

(** ** The caption locator *)

Lemma matchEntry_Some f sub u f' :
  matchEntry f sub = Some (u, f') <-> f' = f /\ entryHas sub f u.
Proof.
  unfold matchEntry, entryHas. split.
  - destruct sub as [ | | | | | m]; simpl; try discriminate.
    destruct (m !! "ext") as [[ | | | ext | | ] | ] eqn:Hext; simpl; try discriminate.
    destruct (String.eqb_spec ext f) as [-> | Hne]; [ | discriminate].
    destruct (m !! "url") as [[ | | | url | | ] | ] eqn:Hurl; simpl; try discriminate.
    intros Heq. inversion Heq; subst. split; [reflexivity | ].
    exists m. split; [reflexivity | ]. split; assumption.
  - intros [-> (m & -> & Hext & Hurl)]. simpl. rewrite Hext. simpl.
    rewrite String.eqb_refl, Hurl. reflexivity.
Qed.













(** The scenario of the specification: json3 is picked over vtt. *)
Example findBestSubtitleURL_scenario :
  findBestSubtitleURL scenarioMetadata = ("U1", "json3").
Proof. vm_compute. reflexivity. Qed.



(** ** Strings *)

Arguments isChar : simpl never.
Arguments notChar : simpl never.
Arguments asciiSpace : simpl never.
Arguments isSpaceRune : simpl never.

Lemma string_app_cons (c : ascii) (s t : string) : String c s +:+ t = String c (s +:+ t).
Proof. reflexivity. Qed.

Lemma string_app_nil_l (s : string) : "" +:+ s = s.
Proof. reflexivity. Qed.

(** Unfold [+:+] on a string that starts with known bytes. *)
Ltac sapp := rewrite ?string_app_cons, ?string_app_nil_l.

Lemma string_app_nil_r (s : string) : s +:+ "" = s.
Proof. induction s as [ | c s IH]; sapp; [reflexivity | f_equal; exact IH]. Qed.

Lemma string_app_assoc (a b c : string) : (a +:+ b) +:+ c = a +:+ (b +:+ c).
Proof. induction a as [ | x a IH]; sapp; [reflexivity | f_equal; exact IH]. Qed.

Lemma string_length_app (a b : string) :
  String.length (a +:+ b) = String.length a + String.length b.
Proof. induction a as [ | x a IH]; sapp; simpl; [reflexivity | f_equal; exact IH]. Qed.

(** [trimLeftSpace] keeps a suffix, [trimRightSpace] a prefix. *)
Lemma trimLeftSpace_suffix (s : string) : exists a, s = a +:+ trimLeftSpace s.
Proof.
  assert (Hn : forall n s, String.length s <= n -> exists a, s = a +:+ trimLeftSpace s).
  { clear s. induction n as [ | n IH]; intros s Hlen.
    - destruct s; [exists ""; reflexivity | simpl in Hlen; lia].
    - destruct s as [ | c s1]; [exists ""; reflexivity | ].
      simpl in Hlen. simpl. destruct (asciiSpace c).
      + destruct (IH s1) as [a Ha]; [lia | ]. exists (String c a). sapp. rewrite <- Ha. reflexivity.
      + destruct s1 as [ | d s2]; [exists ""; reflexivity | ].
        simpl in Hlen. destruct (isSpace2 c d).
        * destruct (IH s2) as [a Ha]; [lia | ]. exists (String c (String d a)).
          sapp. rewrite <- Ha. reflexivity.
        * destruct s2 as [ | e s3]; [exists ""; reflexivity | ].
          simpl in Hlen. destruct (isSpace3 c d e); [ | exists ""; reflexivity].
          destruct (IH s3) as [a Ha]; [lia | ]. exists (String c (String d (String e a))).
          sapp. rewrite <- Ha. reflexivity. }
  apply (Hn (String.length s)). lia.
Qed.

Lemma trimRightSpace_prefix (s : string) : exists b, s = trimRightSpace s +:+ b.
Proof.
  induction s as [ | c s IH]; [exists ""; reflexivity | ].
  destruct IH as [b Hb].
  change (trimRightSpace (String c s))
    with (if isSpaceRune (String c (trimRightSpace s)) then "" else String c (trimRightSpace s)).
  destruct (isSpaceRune (String c (trimRightSpace s))).
  - exists (String c s). reflexivity.
  - exists b. sapp. rewrite <- Hb. reflexivity.
Qed.

(** [TrimSpace s] is a part of [s]. *)
Lemma TrimSpace_infix (s : string) : exists a b, s = a +:+ (TrimSpace s +:+ b).
Proof.
  unfold TrimSpace. destruct (trimLeftSpace_suffix s) as [a Ha].
  destruct (trimRightSpace_prefix (trimLeftSpace s)) as [b Hb].
  exists a, b. rewrite <- Hb. exact Ha.
Qed.

(** ** Tags *)







(** ** The tag pattern *)














(** ** The WebVTT decoder *)





(** * Further properties *)

(** ** The batch functions *)

(** What an insert loop started on the empty slice gives to
    [inTransaction_shape] below. *)
Ltac from_loop lemma items :=
  intros st1; destruct (lemma items (Slice []) st1) as (k & Hk & E & R);
  exists k; rewrite length_map; split; [exact Hk | ]; split; [exact E | ];
  destruct (_.1); [destruct R as [-> R]; split; [reflexivity | exact R] | exact R].

Section BatchShape.
Context {W : Type} {ext : External W}.

Lemma added_spec {A} (m : M W A) (st : State W) evs :
  trace (m st).2 = trace st ++ evs -> added m st = evs.
Proof. unfold added. intros ->. apply drop_app_length. Qed.

Lemma derivations_app e1 e2 : derivations (e1 ++ e2) = derivations e1 + derivations e2.
Proof. induction e1 as [ | ev e1 IH]; simpl; [reflexivity | rewrite IH; lia]. Qed.

Lemma derivations_inserts stmts : derivations (map EvTxQueryRow stmts) = 0.
Proof. induction stmts as [ | q stmts IH]; simpl; [reflexivity | exact IH]. Qed.

Lemma derivations_batchEvents stmts commit : derivations (batchEvents stmts commit) = 0.
Proof.
  unfold batchEvents. simpl. rewrite !derivations_app, derivations_inserts.
  destruct commit; reflexivity.
Qed.

(** The shape of a batch follows from that of its insert loop: the
    loop issues the inserts of a prefix of the rows, all of them when
    it succeeds and at least one when it fails. *)
Lemma inTransaction_shape {A} (inserts : M W (result (slice A))) stmts (st : State W) :
  (forall st1, exists k,
      k <= length stmts /\
      trace (inserts st1).2 = trace st1 ++ map EvTxQueryRow (take k stmts) /\
      match (inserts st1).1 with
      | Ok created => k = length stmts /\ len created = length stmts
      | Err _ => 0 < k
      end) ->
  exists evs,
    trace (inTransaction inserts st).2 = trace st ++ evs /\
    batchShape stmts evs (inTransaction inserts st).1.
Proof.
  intros Hloop. rewrite inTransaction_run.
  destruct (txBegin (world st)) as [[err | ] w]; cbn [fst snd trace].
  - exists [EvBegin]. split; [reflexivity | ]. left. reflexivity.
  - destruct (Hloop {| world := w; trace := trace st ++ [EvBegin] |}) as (k & Hk & E & R).
    destruct (inserts _) as [[created | err] st2]; cbn [fst snd trace] in *.
    + destruct R as [-> Hlen]. rewrite firstn_all in E.
      assert (Htr : (trace st2 ++ [EvCommit]) ++ [EvRollback]
                    = trace st ++ batchEvents stmts true).
      { rewrite E. unfold batchEvents. rewrite <- !app_assoc. reflexivity. }
      destruct (txCommit (world st2)) as [[err | ] w3]; cbn [fst snd trace];
        exists (batchEvents stmts true); (split; [exact Htr | ]); simpl.
      * right. right. reflexivity.
      * split; [exact Hlen | reflexivity].
    + exists (batchEvents (take k stmts) false).
      split; [rewrite E; unfold batchEvents; rewrite <- !app_assoc; reflexivity | ].
      simpl. right. left. exists k. split; [lia | reflexivity].
Qed.

Lemma insertConcepts_shape items acc st :
  exists k,
    k <= length items /\
    trace (insertConcepts items acc st).2
      = trace st ++ map EvTxQueryRow (take k (map InsertConcept items)) /\
    match (insertConcepts items acc st).1 with
    | Ok created => k = length items /\ len created = len acc + length items
    | Err _ => 0 < k
    end.
Proof.
  revert acc st. induction items as [ | c items IH]; intros acc st.
  - exists 0. simpl. rewrite app_nil_r. split; [lia | ]. split; [reflexivity | ].
    split; [reflexivity | lia].
  - simpl. rewrite run_bind_eq, run_call. simpl.
    destruct (conceptRow (InsertConcept c) (world st)) as [[row | err] w]; simpl.
    + destruct (IH (append1 acc row)
                   {| world := w; trace := trace st ++ [EvTxQueryRow (InsertConcept c)] |})
        as (k & Hk & E & R).
      exists (S k). split; [lia | ]. split.
      * rewrite E. simpl. rewrite <- app_assoc. reflexivity.
      * destruct (insertConcepts items (append1 acc row) _).1; [ | lia].
        destruct R as [-> R]. split; [reflexivity | ].
        rewrite R. unfold len, append1. simpl. rewrite length_app. simpl. lia.
    + exists 1. split; [lia | ]. split; [reflexivity | lia].
Qed.

Lemma insertQuestions_shape items acc st :
  exists k,
    k <= length items /\
    trace (insertQuestions items acc st).2
      = trace st ++ map EvTxQueryRow (take k (map InsertQuizQuestion items)) /\
    match (insertQuestions items acc st).1 with
    | Ok created => k = length items /\ len created = len acc + length items
    | Err _ => 0 < k
    end.
Proof.
  revert acc st. induction items as [ | c items IH]; intros acc st.
  - exists 0. simpl. rewrite app_nil_r. split; [lia | ]. split; [reflexivity | ].
    split; [reflexivity | lia].
  - simpl. rewrite run_bind_eq, run_call. simpl.
    destruct (quizRow (InsertQuizQuestion c) (world st)) as [[row | err] w]; simpl.
    + destruct (IH (append1 acc row)
                   {| world := w; trace := trace st ++ [EvTxQueryRow (InsertQuizQuestion c)] |})
        as (k & Hk & E & R).
      exists (S k). split; [lia | ]. split.
      * rewrite E. simpl. rewrite <- app_assoc. reflexivity.
      * destruct (insertQuestions items (append1 acc row) _).1; [ | lia].
        destruct R as [-> R]. split; [reflexivity | ].
        rewrite R. unfold len, append1. simpl. rewrite length_app. simpl. lia.
    + exists 1. split; [lia | ]. split; [reflexivity | lia].
Qed.

Lemma insertContents_shape items acc st :
  exists k,
    k <= length items /\
    trace (insertContents items acc st).2
      = trace st ++ map EvTxQueryRow (take k (map InsertGeneratedContent items)) /\
    match (insertContents items acc st).1 with
    | Ok created => k = length items /\ len created = len acc + length items
    | Err _ => 0 < k
    end.
Proof.
  revert acc st. induction items as [ | c items IH]; intros acc st.
  - exists 0. simpl. rewrite app_nil_r. split; [lia | ]. split; [reflexivity | ].
    split; [reflexivity | lia].
  - simpl. rewrite run_bind_eq, run_call. simpl.
    destruct (contentRow (InsertGeneratedContent c) (world st)) as [[row | err] w]; simpl.
    + destruct (IH (append1 acc row)
                   {| world := w; trace := trace st ++ [EvTxQueryRow (InsertGeneratedContent c)] |})
        as (k & Hk & E & R).
      exists (S k). split; [lia | ]. split.
      * rewrite E. simpl. rewrite <- app_assoc. reflexivity.
      * destruct (insertContents items (append1 acc row) _).1; [ | lia].
        destruct R as [-> R]. split; [reflexivity | ].
        rewrite R. unfold len, append1. simpl. rewrite length_app. simpl. lia.
    + exists 1. split; [lia | ]. split; [reflexivity | lia].
Qed.

End BatchShape.

(** ** A calculus of outcomes *)

Section Outcome.
Context {W : Type}.

Lemma outcome_ret {A} (a : A) (Q : A -> list Event -> Prop) :
  Q a [] -> outcome (W:=W) (ret a) Q.
Proof. intros HQ st. exists []. rewrite app_nil_r. split; [reflexivity | exact HQ]. Qed.

Lemma outcome_call {A} ev (f : W -> A * W) (Q : A -> list Event -> Prop) :
  (forall a, Q a [ev]) -> outcome (call ev f) Q.
Proof. intros HQ st. exists [ev]. rewrite run_call. split; [reflexivity | apply HQ]. Qed.

Lemma outcome_bind {A B} (m : M W A) (k : A -> M W B) Q1 (Q : B -> list Event -> Prop) :
  outcome m Q1 ->
  (forall a e1, Q1 a e1 -> outcome (k a) (fun b e2 => Q b (e1 ++ e2))) ->
  outcome (m ≫= k) Q.
Proof.
  intros Hm Hk st. rewrite run_bind_eq.
  destruct (Hm st) as (e1 & E1 & H1).
  destruct (Hk _ _ H1 (m st).2) as (e2 & E2 & H2).
  exists (e1 ++ e2). rewrite E2, E1, app_assoc. split; [reflexivity | exact H2].
Qed.

Lemma outcome_weaken {A} (m : M W A) (Q Q' : A -> list Event -> Prop) :
  outcome m Q -> (forall a evs, Q a evs -> Q' a evs) -> outcome m Q'.
Proof.
  intros Hm HQ st. destruct (Hm st) as (evs & E & H1). exists evs.
  split; [exact E | apply HQ; exact H1].
Qed.

Lemma outcome_added {A} (m : M W A) Q st : outcome m Q -> Q (m st).1 (added m st).
Proof.
  intros Hm. destruct (Hm st) as (evs & E & H1).
  rewrite (added_spec _ _ _ E). exact H1.
Qed.

Lemma outcome_run {A} (m : M W A) Q st a st' :
  outcome m Q -> m st = (a, st') -> exists evs, trace st' = trace st ++ evs /\ Q a evs.
Proof.
  intros Hm Hrun. destruct (Hm st) as (evs & E & H1). rewrite Hrun in E, H1.
  exists evs. split; assumption.
Qed.
End Outcome.

(** ** The stages of the pipeline *)

Section Pipeline.
Context {W : Type} {ext : External W}.
Context {decConcepts : JSONDecoder (list ConceptData.t)}
        {decQuiz : JSONDecoder (list QuizData.t)}
        {decContent : JSONDecoder ContentData.t} {tables : UnicodeTables}.

Lemma batchShape_quiet {A} stmts evs (r : result (slice A)) :
  batchShape stmts evs r -> derivations evs = 0.
Proof.
  destruct r as [saved | err]; simpl.
  - intros [_ ->]. apply derivations_batchEvents.
  - intros [-> | [(k & _ & ->) | ->]];
      [reflexivity | apply derivations_batchEvents | apply derivations_batchEvents].
Qed.

Lemma inTransaction_quiet {A} (inserts : M W (result (slice A))) stmts :
  (forall st1, exists k,
      k <= length stmts /\
      trace (inserts st1).2 = trace st1 ++ map EvTxQueryRow (take k stmts) /\
      match (inserts st1).1 with
      | Ok created => k = length stmts /\ len created = length stmts
      | Err _ => 0 < k
      end) ->
  outcome (inTransaction inserts)
    (fun r evs => derivations evs = 0 /\
                  match r with Ok saved => len saved = length stmts | Err _ => True end).
Proof.
  intros Hloop st. destruct (inTransaction_shape inserts stmts st Hloop) as (evs & E & S).
  exists evs. split; [exact E | ]. split; [exact (batchShape_quiet _ _ _ S) | ].
  destruct (_.1); [apply S | exact I].
Qed.

Lemma CreateConceptsBatch_quiet concepts :
  outcome (CreateConceptsBatch concepts)
    (fun r evs => derivations evs = 0 /\
                  match r with Ok saved => len saved = len concepts | Err _ => True end).
Proof.
  unfold CreateConceptsBatch. destruct (len concepts =? 0) eqn:Hlen.
  - apply outcome_ret. apply Nat.eqb_eq in Hlen. rewrite Hlen. split; reflexivity.
  - eapply outcome_weaken;
      [apply (inTransaction_quiet _ (map InsertConcept (elems concepts)));
       from_loop insertConcepts_shape (elems concepts) | ].
    intros r evs [Hd Hr]. split; [exact Hd | ].
    destruct r; [rewrite length_map in Hr; exact Hr | exact I].
Qed.

Lemma CreateQuizBatch_quiet questions :
  outcome (CreateQuizBatch questions)
    (fun r evs => derivations evs = 0 /\
                  match r with Ok saved => len saved = len questions | Err _ => True end).
Proof.
  unfold CreateQuizBatch. destruct (len questions =? 0) eqn:Hlen.
  - apply outcome_ret. apply Nat.eqb_eq in Hlen. rewrite Hlen. split; reflexivity.
  - eapply outcome_weaken;
      [apply (inTransaction_quiet _ (map InsertQuizQuestion (elems questions)));
       from_loop insertQuestions_shape (elems questions) | ].
    intros r evs [Hd Hr]. split; [exact Hd | ].
    destruct r; [rewrite length_map in Hr; exact Hr | exact I].
Qed.

Lemma CreateGeneratedContentBatch_quiet contents :
  outcome (CreateGeneratedContentBatch contents)
    (fun r evs => derivations evs = 0 /\
                  match r with Ok saved => len saved = len contents | Err _ => True end).
Proof.
  unfold CreateGeneratedContentBatch. destruct (len contents =? 0) eqn:Hlen.
  - apply outcome_ret. apply Nat.eqb_eq in Hlen. rewrite Hlen. split; reflexivity.
  - eapply outcome_weaken;
      [apply (inTransaction_quiet _ (map InsertGeneratedContent (elems contents)));
       from_loop insertContents_shape (elems contents) | ].
    intros r evs [Hd Hr]. split; [exact Hd | ].
    destruct r; [rewrite length_map in Hr; exact Hr | exact I].
Qed.

Lemma ExtractConcepts_outcome s transcript id :
  outcome (ExtractConcepts s transcript id) (fun _ evs => derivations evs = 1).
Proof.
  unfold ExtractConcepts.
  eapply outcome_bind; [apply outcome_call with (Q := fun _ e => derivations e = 1); reflexivity | ].
  intros r e1 H1. destruct r as [text | err]; [destruct (ParseJSONResponse text) | ];
    apply outcome_ret; rewrite app_nil_r; exact H1.
Qed.

Lemma GenerateQuiz_outcome s concept :
  outcome (GenerateQuiz s concept) (fun _ evs => derivations evs = 1).
Proof.
  unfold GenerateQuiz.
  eapply outcome_bind; [apply outcome_call with (Q := fun _ e => derivations e = 1); reflexivity | ].
  intros r e1 H1. destruct r as [text | err]; [destruct (ParseJSONResponse text) | ];
    apply outcome_ret; rewrite app_nil_r; exact H1.
Qed.

Lemma GenerateContent_outcome s platform concepts :
  outcome (GenerateContent s platform concepts) (fun _ evs => derivations evs = 1).
Proof.
  unfold GenerateContent. destruct (getContentPrompts _ _) as [systemPrompt userPrompt].
  eapply outcome_bind; [apply outcome_call with (Q := fun _ e => derivations e = 1); reflexivity | ].
  intros r e1 H1. destruct r as [text | err];
    apply outcome_ret; rewrite app_nil_r; exact H1.
Qed.

Lemma generateQuizzes_outcome s cs acc :
  outcome (generateQuizzes s cs acc) (fun _ evs => derivations evs = length cs).
Proof.
  revert acc. induction cs as [ | c cs IH]; intros acc; simpl.
  - apply outcome_ret. reflexivity.
  - eapply outcome_bind; [apply GenerateQuiz_outcome | ].
    intros r e1 H1. destruct r as [quizzes | err];
      (eapply outcome_weaken; [apply IH | ]);
      intros a evs Hd; cbv beta in *; rewrite derivations_app; lia.
Qed.

Lemma generateContents_outcome s ps saved acc :
  outcome (generateContents s ps saved acc) (fun _ evs => derivations evs = length ps).
Proof.
  revert acc. induction ps as [ | p ps IH]; intros acc; simpl.
  - apply outcome_ret. reflexivity.
  - eapply outcome_bind; [apply GenerateContent_outcome | ].
    intros r e1 H1. destruct r as [content | err];
      (eapply outcome_weaken; [apply IH | ]);
      intros a evs Hd; cbv beta in *; rewrite derivations_app; lia.
Qed.

Lemma saveQuizzes_outcome allQuizzes :
  outcome (saveQuizzes allQuizzes)
    (fun saved evs => derivations evs = 0 /\
                      (saved = Slice [] \/ len saved = len allQuizzes)).
Proof.
  unfold saveQuizzes. destruct (0 <? len allQuizzes).
  - eapply outcome_bind; [apply CreateQuizBatch_quiet | ].
    intros r e1 [H1 H2]. destruct r as [saved | err];
      apply outcome_ret; rewrite app_nil_r; (split; [exact H1 | ]); [right; exact H2 | left; reflexivity].
  - apply outcome_ret. split; [reflexivity | right; reflexivity].
Qed.

Lemma saveContents_outcome generated :
  outcome (saveContents generated)
    (fun saved evs => derivations evs = 0 /\
                      (saved = Slice [] \/ len saved = len generated)).
Proof.
  unfold saveContents. destruct (0 <? len generated).
  - eapply outcome_bind; [apply CreateGeneratedContentBatch_quiet | ].
    intros r e1 [H1 H2]. destruct r as [saved | err];
      apply outcome_ret; rewrite app_nil_r; (split; [exact H1 | ]); [right; exact H2 | left; reflexivity].
  - apply outcome_ret. split; [reflexivity | right; reflexivity].
Qed.

(** Steps 5 to 7 cannot fail: they return the saved source record and
    the saved concepts, after one derivation call for every concept
    and one for every platform. *)
Lemma quizStage_outcome s sourceContent savedConcepts :
  outcome (quizStage s sourceContent savedConcepts)
    (fun r evs =>
       derivations evs = len savedConcepts + 3 /\
       exists res, r = Ok res /\
         ProcessResult.SourceContent res = Some sourceContent /\
         ProcessResult.Concepts res = savedConcepts).
Proof.
  unfold quizStage, contentStage.
  eapply outcome_bind; [apply generateQuizzes_outcome | ]. intros gen e1 H1.
  eapply outcome_bind; [apply saveQuizzes_outcome | ]. intros quizzes e2 [H2 _].
  eapply outcome_bind; [apply generateContents_outcome | ]. intros contents e3 H3.
  eapply outcome_bind; [apply saveContents_outcome | ]. intros saved e4 [H4 _].
  apply outcome_ret. rewrite app_nil_r, !derivations_app, H1, H2, H3, H4.
  split; [unfold len; simpl; lia | ].
  eexists. split; [reflexivity | ]. split; reflexivity.
Qed.

Lemma derivations_reads evs : Forall isRead evs -> derivations evs = 0.
Proof.
  induction 1 as [ | ev evs Hev _ IH]; simpl; [reflexivity | ].
  destruct (isRead_quiet ev Hev) as [_ ->]. exact IH.
Qed.

Lemma GetSourceContentByURL_outcome url :
  outcome (GetSourceContentByURL url)
    (fun _ evs => evs = [EvQueryRow (SelectSourceContentByURL url)]).
Proof.
  unfold GetSourceContentByURL.
  eapply outcome_bind;
    [apply outcome_call
       with (Q := fun _ e => e = [EvQueryRow (SelectSourceContentByURL url)]); reflexivity | ].
  intros r e1 ->. destruct r as [sc | []]; apply outcome_ret; reflexivity.
Qed.

Lemma CreateSourceContent_outcome req :
  outcome (CreateSourceContent req) (fun _ evs => evs = [EvQueryRow (InsertSourceContent req)]).
Proof.
  unfold CreateSourceContent.
  eapply outcome_bind;
    [apply outcome_call
       with (Q := fun _ e => e = [EvQueryRow (InsertSourceContent req)]); reflexivity | ].
  intros r e1 ->. destruct r as [sc | err]; apply outcome_ret; reflexivity.
Qed.

Lemma getExistingProcessResult_outcome sourceContent :
  outcome (getExistingProcessResult sourceContent)
    (fun r evs =>
       derivations evs = 0 /\
       exists res, r = Ok res /\ ProcessResult.SourceContent res = Some sourceContent).
Proof.
  intros st. destruct (getExistingProcessResult_emits sourceContent st) as (evs & E & F).
  exists evs. split; [exact E | ]. split; [apply derivations_reads; exact F | ].
  unfold getExistingProcessResult. rewrite !run_bind_eq, run_ret. cbn [fst].
  eexists. split; reflexivity.
Qed.

(** Every run of [ProcessYouTubeURL]: an error comes from one of the
    three early calls, before any derivation; a success carries a
    source record and has made no derivation call (the url was known),
    one (the concepts could not be had) or one for the extraction, one
    for every saved concept and one for each of the three platforms. *)
Lemma ProcessYouTubeURL_outcome s url :
  outcome (ProcessYouTubeURL s url)
    (fun r evs =>
       match r with
       | Err _ =>
         derivations evs = 0 /\ evs <> [] /\ exists req, evs `prefix_of` earlyCalls url req
       | Ok res =>
         (exists sc, ProcessResult.SourceContent res = Some sc) /\
         (derivations evs = 0 \/
          (derivations evs = 1 /\ exists sc, res = sourceOnly sc) \/
          derivations evs = len (ProcessResult.Concepts res) + 4)
       end).
Proof.
  pose (noReq := {| CreateSourceContentRequest.Type_ := "";
                    CreateSourceContentRequest.URL := "";
                    CreateSourceContentRequest.Title := "";
                    CreateSourceContentRequest.Transcript := "" |}).
  unfold ProcessYouTubeURL.
  eapply outcome_bind; [apply GetSourceContentByURL_outcome | ]. intros existing e1 ->.
  destruct existing as [[existing | ] | err].
  - eapply outcome_weaken; [apply getExistingProcessResult_outcome | ].
    intros r evs (Hd & res & -> & Hsc). split; [eauto | ]. left. exact Hd.
  - unfold GetVideoInfo.
    eapply outcome_bind;
      [apply outcome_call with (Q := fun _ e => e = [EvGetVideoInfo url]); reflexivity | ].
    intros info e2 ->. destruct info as [info | err].
    + destruct (VideoInfo.Transcript info) as [transcript | ].
      * eapply outcome_bind; [apply CreateSourceContent_outcome | ]. intros saved e3 ->.
        destruct saved as [sourceContent | err].
        -- eapply outcome_bind; [apply ExtractConcepts_outcome | ]. intros extracted e4 H4.
           destruct extracted as [concepts | err].
           ++ eapply outcome_bind; [apply CreateConceptsBatch_quiet | ].
              intros saved e5 [H5 _]. destruct saved as [savedConcepts | err].
              ** eapply outcome_weaken; [apply quizStage_outcome | ].
                 intros r evs (Hd & res & -> & Hsc & Hcs). split; [eauto | ].
                 right. right. rewrite Hcs, !derivations_app, Hd, H4, H5. simpl. lia.
              ** apply outcome_ret. split; [eexists; reflexivity | ].
                 right. left. rewrite !derivations_app, H4, H5. simpl. eauto.
           ++ apply outcome_ret. split; [eexists; reflexivity | ].
              right. left. rewrite !derivations_app, H4. simpl. eauto.
        -- apply outcome_ret. split; [reflexivity | ]. split; [discriminate | ].
           eexists. exists []. reflexivity.
      * apply outcome_ret. split; [reflexivity | ]. split; [discriminate | ].
        exists noReq. eexists [_]. reflexivity.
    + apply outcome_ret. split; [reflexivity | ]. split; [discriminate | ].
      exists noReq. eexists [_]. reflexivity.
  - apply outcome_ret. split; [reflexivity | ]. split; [discriminate | ].
    exists noReq. eexists [_; _]. reflexivity.
Qed.

(** X2. A successful [ProcessYouTubeURL] always carries a source
    record: the [SourceContent] of the result is never nil, which the
    handler relies on when it reads [result.SourceContent.ID]. *)
Theorem ProcessYouTubeURL_ok_has_source
    (s : ClaudeService) (url : string) (st st' : State W) (res : ProcessResult.t) :
  ProcessYouTubeURL s url st = (Ok res, st') ->
  exists sourceContent, ProcessResult.SourceContent res = Some sourceContent.
Proof.
  intros Hrun.
  destruct (outcome_run _ _ _ _ _ (ProcessYouTubeURL_outcome s url) Hrun) as (evs & _ & Hsc & _).
  exact Hsc.
Qed.

(** X3. When [ProcessYouTubeURL] returns an error, the calls it made
    are a non-empty prefix of: the duplicate check, the acquisition,
    the insert of the source record.  No derivation call was made and
    no transaction was begun. *)
Theorem ProcessYouTubeURL_error_is_early
    (s : ClaudeService) (url : string) (st st' : State W) (err : error) :
  ProcessYouTubeURL s url st = (Err err, st') ->
  exists evs req,
    trace st' = trace st ++ evs /\
    evs <> [] /\
    evs `prefix_of` earlyCalls url req /\
    Forall (fun ev => isDerivation ev = false /\ isTransaction ev = false) evs.
Proof.
  intros Hrun.
  destruct (outcome_run _ _ _ _ _ (ProcessYouTubeURL_outcome s url) Hrun)
    as (evs & E & _ & Hne & req & Hpre).
  exists evs, req. split; [exact E | ]. split; [exact Hne | ]. split; [exact Hpre | ].
  destruct Hpre as [k Hk].
  assert (Hall : Forall (fun ev => isDerivation ev = false /\ isTransaction ev = false)
                   (earlyCalls url req)) by (repeat constructor).
  rewrite Hk in Hall. apply Forall_app in Hall. apply Hall.
Qed.

(** X4. The number of derivation calls of a run of
    [ProcessYouTubeURL]: none when it fails; when it succeeds, none
    (the url was processed before), or one with a result that holds
    the source record only (the concepts could not be extracted or
    saved), or four more than the number of concepts in the result
    (the extraction, a quiz for every concept, and the three
    platforms). *)
Theorem ProcessYouTubeURL_derivation_calls (s : ClaudeService) (url : string) (st : State W) :
  let n := derivations (added (ProcessYouTubeURL s url) st) in
  match (ProcessYouTubeURL s url st).1 with
  | Err _ => n = 0
  | Ok res =>
    n = 0 \/
    (n = 1 /\ exists sourceContent, res = sourceOnly sourceContent) \/
    n = len (ProcessResult.Concepts res) + 4
  end.
Proof.
  pose proof (outcome_added _ _ st (ProcessYouTubeURL_outcome s url)) as Hout.
  cbv beta in Hout. cbv zeta.
  destruct ((ProcessYouTubeURL s url st).1) as [res | err].
  - apply Hout.
  - apply Hout.
Qed.

(** X5. Once the source record is saved, [ProcessYouTubeURL] cannot
    fail: it returns success with that record, and either nothing else
    (the concepts could not be extracted or saved) or exactly the
    concept rows the batch insert returned, one for every extracted
    concept. *)
Theorem ProcessYouTubeURL_after_source_saved
    (s : ClaudeService) (url : string) (st st1 st2 st3 : State W)
    (info : VideoInfo.t) (transcript : Transcript.t) (sourceContent : SourceContent.t) :
  GetSourceContentByURL url st = (Ok None, st1) ->
  GetVideoInfo url st1 = (Ok info, st2) ->
  VideoInfo.Transcript info = Some transcript ->
  CreateSourceContent
    {| CreateSourceContentRequest.Type_ := "youtube";
       CreateSourceContentRequest.URL := url;
       CreateSourceContentRequest.Title := Metadata.Title (VideoInfo.Metadata info);
       CreateSourceContentRequest.Transcript := Transcript.Text transcript |} st2
    = (Ok sourceContent, st3) ->
  exists res st',
    ProcessYouTubeURL s url st = (Ok res, st') /\
    ProcessResult.SourceContent res = Some sourceContent /\
    (res = sourceOnly sourceContent \/
     exists concepts st4 saved st5,
       ExtractConcepts s (Transcript.Text transcript) (SourceContent.ID sourceContent) st3
         = (Ok concepts, st4) /\
       CreateConceptsBatch concepts st4 = (Ok saved, st5) /\
       ProcessResult.Concepts res = saved /\
       len saved = len concepts).
Proof.
  intros Hdup Hinfo Htr Hsave. unfold ProcessYouTubeURL.
  rewrite (run_bind _ _ _ _ _ Hdup), (run_bind _ _ _ _ _ Hinfo), Htr.
  rewrite (run_bind _ _ _ _ _ Hsave).
  destruct (ExtractConcepts s (Transcript.Text transcript) (SourceContent.ID sourceContent) st3)
    as [[concepts | err] st4] eqn:Hext; rewrite (run_bind _ _ _ _ _ Hext).
  - destruct (CreateConceptsBatch concepts st4) as [[saved | err] st5] eqn:Hbatch;
      rewrite (run_bind _ _ _ _ _ Hbatch).
    + destruct (quizStage s sourceContent saved st5) as [r st'] eqn:Hq.
      destruct (outcome_run _ _ _ _ _ (quizStage_outcome s sourceContent saved) Hq)
        as (evs & _ & _ & res & -> & Hsc & Hcs).
      exists res, st'. split; [reflexivity | ]. split; [exact Hsc | ].
      right. exists concepts, st4, saved, st5.
      split; [reflexivity | ]. split; [exact Hbatch | ]. split; [exact Hcs | ].
      destruct (outcome_run _ _ _ _ _ (CreateConceptsBatch_quiet concepts) Hbatch)
        as (evs' & _ & _ & Hlen).
      exact Hlen.
    + exists (sourceOnly sourceContent), st5. rewrite run_ret.
      split; [reflexivity | ]. split; [reflexivity | left; reflexivity].
  - exists (sourceOnly sourceContent), st4. rewrite run_ret.
    split; [reflexivity | ]. split; [reflexivity | left; reflexivity].
Qed.
End Pipeline.

(** ** Quiz generation for the saved concepts *)

Section QuizLoop.
Context {W : Type} {ext : External W}.
Context {decQuiz : JSONDecoder (list QuizData.t)} {tables : UnicodeTables}.

Lemma elems_appendAll {A} (s t : slice A) : elems (appendAll s t) = elems s ++ elems t.
Proof.
  unfold appendAll. destruct s as [ | l]; simpl.
  - destruct (elems t); reflexivity.
  - reflexivity.
Qed.

(** X6. The loop of step 5 makes the same calls as one attempt per
    saved concept, and collects the questions of the attempts that
    succeeded, in the order of the concepts; a concept whose quiz
    generation fails contributes nothing and does not stop the loop. *)
Theorem generateQuizzes_keeps_successes
    (s : ClaudeService) (savedConcepts : list Concept.t) (allQuizzes : slice QuizQuestion.t)
    (st : State W) :
  let outs := quizAttempts s savedConcepts st in
  (generateQuizzes s savedConcepts allQuizzes st).2 = outs.2 /\
  elems (generateQuizzes s savedConcepts allQuizzes st).1
    = elems allQuizzes ++ concat (map elems (successes outs.1)) /\
  length outs.1 = length savedConcepts.
Proof.
  revert allQuizzes st. induction savedConcepts as [ | c cs IH]; intros acc st; simpl.
  - unfold ret. simpl. rewrite app_nil_r. auto.
  - rewrite !run_bind_eq.
    destruct (GenerateQuiz s c st) as [[quizzes | err] st1]; cbn [fst snd].
    + destruct (IH (appendAll acc quizzes) st1) as (E & R & L).
      split; [exact E | ]. split; [ | simpl; rewrite L; reflexivity].
      rewrite R, elems_appendAll. simpl. rewrite app_assoc. reflexivity.
    + destruct (IH acc st1) as (E & R & L).
      split; [exact E | ]. split; [exact R | simpl; rewrite L; reflexivity].
Qed.
End QuizLoop.

(** ** Concrete runs of the pipeline *)

(** A new url whose derivation calls all fail: the result has the
    source record. *)
Lemma ProcessYouTubeURL_ok_has_source_witness :
  exists res st',
    runProcess emptyResponses sampleURL = (Ok res, st') /\
    exists sourceContent, ProcessResult.SourceContent res = Some sourceContent.
Proof.
  eassert (Hrun : runProcess emptyResponses sampleURL = (Ok _, _)) by (lazy; reflexivity).
  do 2 eexists. split; [exact Hrun | ].
  exact (ProcessYouTubeURL_ok_has_source _ _ _ _ _ Hrun).
Defined.

(** A new url whose captions cannot be acquired: the run fails after
    the duplicate check and the acquisition. *)
Lemma ProcessYouTubeURL_error_is_early_witness :
  exists err st',
    runProcess videoFails sampleURL = (Err err, st') /\
    exists evs req,
      trace st' = trace start ++ evs /\
      evs <> [] /\
      evs `prefix_of` earlyCalls sampleURL req /\
      Forall (fun ev => isDerivation ev = false /\ isTransaction ev = false) evs.
Proof.
  eassert (Hrun : runProcess videoFails sampleURL = (Err _, _)) by (lazy; reflexivity).
  do 2 eexists. split; [exact Hrun | ].
  exact (ProcessYouTubeURL_error_is_early _ _ _ _ _ Hrun).
Defined.

(** A new url, one concept extracted and saved. *)
Lemma ProcessYouTubeURL_after_source_saved_witness :
  exists st1 st2 st3 sourceContent,
    GetSourceContentByURL (ext := scripted (twitterFails false)) sampleURL start
      = (Ok None, st1) /\
    GetVideoInfo (ext := scripted (twitterFails false)) sampleURL st1 = (Ok sampleVideo, st2) /\
    CreateSourceContent (ext := scripted (twitterFails false))
      {| CreateSourceContentRequest.Type_ := "youtube";
         CreateSourceContentRequest.URL := sampleURL;
         CreateSourceContentRequest.Title := "Loops";
         CreateSourceContentRequest.Transcript := "a b c" |} st2 = (Ok sourceContent, st3) /\
    exists res st',
      runProcess (twitterFails false) sampleURL = (Ok res, st') /\
      ProcessResult.SourceContent res = Some sourceContent.
Proof.
  eassert (H1 : GetSourceContentByURL (ext := scripted (twitterFails false)) sampleURL start
                = (Ok None, _)) by (lazy; reflexivity).
  match type of H1 with
  | _ = (_, ?st1) =>
    eassert (H2 : GetVideoInfo (ext := scripted (twitterFails false)) sampleURL st1
                  = (Ok sampleVideo, _)) by (lazy; reflexivity)
  end.
  match type of H2 with
  | _ = (_, ?st2) =>
    eassert (H3 : CreateSourceContent (ext := scripted (twitterFails false))
                    {| CreateSourceContentRequest.Type_ := "youtube";
                       CreateSourceContentRequest.URL := sampleURL;
                       CreateSourceContentRequest.Title := "Loops";
                       CreateSourceContentRequest.Transcript := "a b c" |} st2
                  = (Ok _, _)) by (lazy; reflexivity)
  end.
  do 4 eexists. split; [exact H1 | ]. split; [exact H2 | ]. split; [exact H3 | ].
  destruct (ProcessYouTubeURL_after_source_saved
              (ext := scripted (twitterFails false))
              (decConcepts := decodes conceptsReply conceptsValue)
              (decQuiz := rejecting) (decContent := rejecting) (tables := noTables)
              service sampleURL start _ _ _ sampleVideo
              {| Transcript.Text := "a b c"; Transcript.Language := "en" |} _
              H1 H2 eq_refl H3)
    as (res & st' & Hrun & Hsc & _).
  exists res, st'. split; [exact Hrun | exact Hsc].
Defined.

(** ** The rows a run inserts *)

Section Inserts.
Context {W : Type} {ext : External W}.
Context {decConcepts : JSONDecoder (list ConceptData.t)}
        {decQuiz : JSONDecoder (list QuizData.t)}
        {decContent : JSONDecoder ContentData.t} {tables : UnicodeTables}.

Lemma batchEvents_satisfies stmts k commit : batchSatisfies stmts (batchEvents (take k stmts) commit).
Proof.
  intros P Hb Hc Hr Hq. unfold batchEvents. constructor; [exact Hb | ].
  apply Forall_app. split.
  - apply Forall_map. apply Forall_take. exact Hq.
  - destruct commit; repeat constructor; assumption.
Qed.

Lemma batchShape_satisfies {A} stmts evs (r : result (slice A)) :
  batchShape stmts evs r -> batchSatisfies stmts evs.
Proof.
  destruct r as [saved | err]; simpl.
  - intros [_ ->]. rewrite <- (firstn_all stmts) at 2. apply batchEvents_satisfies.
  - intros [-> | [(k & _ & ->) | ->]].
    + intros P Hb _ _ _. repeat constructor. exact Hb.
    + apply batchEvents_satisfies.
    + rewrite <- (firstn_all stmts) at 2. apply batchEvents_satisfies.
Qed.

Lemma inTransaction_satisfies {A} (inserts : M W (result (slice A))) stmts :
  (forall st1, exists k,
      k <= length stmts /\
      trace (inserts st1).2 = trace st1 ++ map EvTxQueryRow (take k stmts) /\
      match (inserts st1).1 with
      | Ok created => k = length stmts /\ len created = length stmts
      | Err _ => 0 < k
      end) ->
  outcome (inTransaction inserts) (fun _ evs => batchSatisfies stmts evs).
Proof.
  intros Hloop st. destruct (inTransaction_shape inserts stmts st Hloop) as (evs & E & S).
  exists evs. split; [exact E | exact (batchShape_satisfies _ _ _ S)].
Qed.

Lemma batchSatisfies_nil stmts : batchSatisfies stmts [].
Proof. intros P _ _ _ _. constructor. Qed.

Lemma CreateConceptsBatch_satisfies concepts :
  outcome (CreateConceptsBatch concepts)
    (fun _ evs => batchSatisfies (map InsertConcept (elems concepts)) evs).
Proof.
  unfold CreateConceptsBatch. destruct (len concepts =? 0).
  - apply outcome_ret. apply batchSatisfies_nil.
  - apply inTransaction_satisfies. from_loop insertConcepts_shape (elems concepts).
Qed.

Lemma CreateQuizBatch_satisfies questions :
  outcome (CreateQuizBatch questions)
    (fun _ evs => batchSatisfies (map InsertQuizQuestion (elems questions)) evs).
Proof.
  unfold CreateQuizBatch. destruct (len questions =? 0).
  - apply outcome_ret. apply batchSatisfies_nil.
  - apply inTransaction_satisfies. from_loop insertQuestions_shape (elems questions).
Qed.

Lemma CreateGeneratedContentBatch_satisfies contents :
  outcome (CreateGeneratedContentBatch contents)
    (fun _ evs => batchSatisfies (map InsertGeneratedContent (elems contents)) evs).
Proof.
  unfold CreateGeneratedContentBatch. destruct (len contents =? 0).
  - apply outcome_ret. apply batchSatisfies_nil.
  - apply inTransaction_satisfies. from_loop insertContents_shape (elems contents).
Qed.

Lemma quiet_consistent sourceContent concepts ev :
  isTransaction ev = false -> consistentInsert sourceContent concepts ev.
Proof. destruct ev; simpl; intros Hev; try discriminate; exact I. Qed.

Lemma read_consistent sourceContent concepts ev :
  isRead ev -> consistentInsert sourceContent concepts ev.
Proof. destruct ev; simpl; intros Hev; try contradiction; exact I. Qed.

Lemma ExtractConcepts_refers s transcript id :
  outcome (ExtractConcepts s transcript id)
    (fun r evs =>
       Forall (fun ev => isTransaction ev = false) evs /\
       match r with
       | Ok concepts => Forall (fun c => Concept.SourceContentID c = Some id) (elems concepts)
       | Err _ => True
       end).
Proof.
  unfold ExtractConcepts.
  eapply outcome_bind;
    [apply outcome_call with (Q := fun _ e => Forall (fun ev => isTransaction ev = false) e);
     intros; repeat constructor | ].
  intros r e1 H1.
  destruct r as [text | err]; [destruct (ParseJSONResponse text) as [data | err] | ];
    apply outcome_ret; rewrite app_nil_r; (split; [exact H1 | ]); try exact I.
  simpl. apply Forall_map. apply Forall_true. intros c. reflexivity.
Qed.

Lemma GenerateQuiz_refers s concept :
  outcome (GenerateQuiz s concept)
    (fun r evs =>
       Forall (fun ev => isTransaction ev = false) evs /\
       match r with
       | Ok quizzes =>
         Forall (fun q => QuizQuestion.ConceptID q = Concept.ID concept) (elems quizzes)
       | Err _ => True
       end).
Proof.
  unfold GenerateQuiz.
  eapply outcome_bind;
    [apply outcome_call with (Q := fun _ e => Forall (fun ev => isTransaction ev = false) e);
     intros; repeat constructor | ].
  intros r e1 H1.
  destruct r as [text | err]; [destruct (ParseJSONResponse text) as [data | err] | ];
    apply outcome_ret; rewrite app_nil_r; (split; [exact H1 | ]); try exact I.
  simpl. apply Forall_map. apply Forall_true. intros q. reflexivity.
Qed.

Lemma GenerateContent_refers s platform concepts :
  outcome (GenerateContent s platform concepts)
    (fun r evs =>
       Forall (fun ev => isTransaction ev = false) evs /\
       match r with
       | Ok gc =>
         GeneratedContent.ConceptIDs gc = map Concept.ID (elems concepts) /\
         GeneratedContent.Status gc = "draft" /\
         GeneratedContent.Platform gc = platform
       | Err _ => True
       end).
Proof.
  unfold GenerateContent. destruct (getContentPrompts _ _) as [systemPrompt userPrompt].
  eapply outcome_bind;
    [apply outcome_call with (Q := fun _ e => Forall (fun ev => isTransaction ev = false) e);
     intros; repeat constructor | ].
  intros r e1 H1.
  destruct r as [text | err]; apply outcome_ret; rewrite app_nil_r; (split; [exact H1 | ]);
    [ | exact I].
  simpl. auto.
Qed.

Lemma generateQuizzes_refers s cs acc (ids : list Z) :
  Forall (fun c => Concept.ID c ∈ ids) cs ->
  Forall (fun q => QuizQuestion.ConceptID q ∈ ids) (elems acc) ->
  outcome (generateQuizzes s cs acc)
    (fun r evs =>
       Forall (fun ev => isTransaction ev = false) evs /\
       Forall (fun q => QuizQuestion.ConceptID q ∈ ids) (elems r)).
Proof.
  revert acc. induction cs as [ | c cs IH]; intros acc Hcs Hacc; simpl.
  - apply outcome_ret. split; [constructor | exact Hacc].
  - inversion Hcs as [ | c' cs' Hc Hrest]; subst.
    eapply outcome_bind; [apply GenerateQuiz_refers | ].
    intros r e1 [H1 Hr]. destruct r as [quizzes | err].
    + eapply outcome_weaken; [apply IH; [exact Hrest | ] | ].
      * rewrite elems_appendAll. apply Forall_app. split; [exact Hacc | ].
        eapply Forall_impl; [exact Hr | ]. intros q Hq. cbv beta in Hq. rewrite Hq. exact Hc.
      * intros a evs [Ha Hb]. split; [apply Forall_app; split; assumption | exact Hb].
    + eapply outcome_weaken; [apply IH; [exact Hrest | exact Hacc] | ].
      intros a evs [Ha Hb]. split; [apply Forall_app; split; assumption | exact Hb].
Qed.

Lemma generateContents_refers s ps saved acc (all : list string) :
  Forall (fun p => p ∈ all) ps ->
  Forall (fun gc =>
            GeneratedContent.ConceptIDs gc = map Concept.ID (elems saved) /\
            GeneratedContent.Status gc = "draft" /\
            GeneratedContent.Platform gc ∈ all) (elems acc) ->
  outcome (generateContents s ps saved acc)
    (fun r evs =>
       Forall (fun ev => isTransaction ev = false) evs /\
       Forall (fun gc =>
                 GeneratedContent.ConceptIDs gc = map Concept.ID (elems saved) /\
                 GeneratedContent.Status gc = "draft" /\
                 GeneratedContent.Platform gc ∈ all) (elems r)).
Proof.
  revert acc. induction ps as [ | p ps IH]; intros acc Hps Hacc; simpl.
  - apply outcome_ret. split; [constructor | exact Hacc].
  - inversion Hps as [ | p' ps' Hp Hrest]; subst.
    eapply outcome_bind; [apply GenerateContent_refers | ].
    intros r e1 [H1 Hr]. destruct r as [content | err].
    + eapply outcome_weaken; [apply IH; [exact Hrest | ] | ].
      * simpl. apply Forall_app. split; [exact Hacc | ].
        destruct Hr as (R1 & R2 & R3). repeat constructor; try assumption.
        rewrite R3. exact Hp.
      * intros a evs [Ha Hb]. split; [apply Forall_app; split; assumption | exact Hb].
    + eapply outcome_weaken; [apply IH; [exact Hrest | exact Hacc] | ].
      intros a evs [Ha Hb]. split; [apply Forall_app; split; assumption | exact Hb].
Qed.

Lemma saveQuizzes_satisfies allQuizzes :
  outcome (saveQuizzes allQuizzes)
    (fun _ evs => batchSatisfies (map InsertQuizQuestion (elems allQuizzes)) evs).
Proof.
  unfold saveQuizzes. destruct (0 <? len allQuizzes).
  - eapply outcome_bind; [apply CreateQuizBatch_satisfies | ].
    intros r e1 H1. destruct r; apply outcome_ret; rewrite app_nil_r; exact H1.
  - apply outcome_ret. apply batchSatisfies_nil.
Qed.

Lemma saveContents_satisfies generated :
  outcome (saveContents generated)
    (fun _ evs => batchSatisfies (map InsertGeneratedContent (elems generated)) evs).
Proof.
  unfold saveContents. destruct (0 <? len generated).
  - eapply outcome_bind; [apply CreateGeneratedContentBatch_satisfies | ].
    intros r e1 H1. destruct r; apply outcome_ret; rewrite app_nil_r; exact H1.
  - apply outcome_ret. apply batchSatisfies_nil.
Qed.
Lemma quizStage_consistent s sourceContent savedConcepts :
  outcome (quizStage s sourceContent savedConcepts)
    (fun r evs =>
       exists res, r = Ok res /\
         ProcessResult.SourceContent res = Some sourceContent /\
         ProcessResult.Concepts res = savedConcepts /\
         Forall (consistentInsert sourceContent savedConcepts) evs).
Proof.
  unfold quizStage, contentStage.
  eapply outcome_bind;
    [apply (generateQuizzes_refers s (elems savedConcepts) nilSlice
              (map Concept.ID (elems savedConcepts))); [ | constructor] | ].
  { apply Forall_forall. intros c Hc. apply list_elem_of_In, in_map, list_elem_of_In, Hc. }
  intros gen e1 [H1 G1].
  eapply outcome_bind; [apply saveQuizzes_satisfies | ]. intros quizzes e2 H2.
  eapply outcome_bind;
    [apply (generateContents_refers s platforms savedConcepts nilSlice platforms);
     [ | constructor] | ].
  { apply Forall_forall. intros p Hp. exact Hp. }
  intros contents e3 [H3 G3].
  eapply outcome_bind; [apply saveContents_satisfies | ]. intros saved e4 H4.
  apply outcome_ret. eexists. split; [reflexivity | ]. split; [reflexivity | ].
  split; [reflexivity | ]. rewrite app_nil_r.
  repeat (apply Forall_app; split).
  - eapply Forall_impl; [exact H1 | apply quiet_consistent].
  - apply H2; try exact I. apply Forall_map. exact G1.
  - eapply Forall_impl; [exact H3 | apply quiet_consistent].
  - apply H4; try exact I. apply Forall_map. exact G3.
Qed.

Lemma getExistingProcessResult_reads sourceContent :
  outcome (getExistingProcessResult sourceContent)
    (fun r evs =>
       Forall isRead evs /\
       exists res, r = Ok res /\ ProcessResult.SourceContent res = Some sourceContent).
Proof.
  intros st. destruct (getExistingProcessResult_emits sourceContent st) as (evs & E & F).
  exists evs. split; [exact E | ]. split; [exact F | ].
  unfold getExistingProcessResult. rewrite !run_bind_eq, run_ret. cbn [fst].
  eexists. split; reflexivity.
Qed.

(** In every successful run the rows inserted in batches agree with
    the source record and the concepts of the result. *)
Lemma ProcessYouTubeURL_consistent s url :
  outcome (ProcessYouTubeURL s url)
    (fun r evs =>
       match r with
       | Ok res =>
         exists sourceContent,
           ProcessResult.SourceContent res = Some sourceContent /\
           Forall (consistentInsert sourceContent (ProcessResult.Concepts res)) evs
       | Err _ => True
       end).
Proof.
  unfold ProcessYouTubeURL.
  eapply outcome_bind; [apply GetSourceContentByURL_outcome | ]. intros existing e1 ->.
  destruct existing as [[existing | ] | err]; [ | | apply outcome_ret; exact I].
  - eapply outcome_weaken; [apply getExistingProcessResult_reads | ].
    intros r evs (Hd & res & -> & Hsc). exists existing. split; [exact Hsc | ].
    constructor; [exact I | ]. eapply Forall_impl; [exact Hd | apply read_consistent].
  - unfold GetVideoInfo.
    eapply outcome_bind;
      [apply outcome_call with (Q := fun _ e => e = [EvGetVideoInfo url]); reflexivity | ].
    intros info e2 ->. destruct info as [info | err]; [ | apply outcome_ret; exact I].
    destruct (VideoInfo.Transcript info) as [transcript | ]; [ | apply outcome_ret; exact I].
    eapply outcome_bind; [apply CreateSourceContent_outcome | ]. intros saved e3 ->.
    destruct saved as [sourceContent | err]; [ | apply outcome_ret; exact I].
    eapply outcome_bind; [apply ExtractConcepts_refers | ]. intros extracted e4 [H4 G4].
    assert (Hearly : forall cs evs,
               Forall (consistentInsert sourceContent cs) evs ->
               Forall (consistentInsert sourceContent cs)
                 ([EvQueryRow (SelectSourceContentByURL url)] ++ [EvGetVideoInfo url] ++
                  [EvQueryRow (InsertSourceContent
                     {| CreateSourceContentRequest.Type_ := "youtube";
                        CreateSourceContentRequest.URL := url;
                        CreateSourceContentRequest.Title :=
                          Metadata.Title (VideoInfo.Metadata info);
                        CreateSourceContentRequest.Transcript :=
                          Transcript.Text transcript |})] ++ evs)).
    { intros cs evs Hevs. repeat (constructor; [exact I | ]). exact Hevs. }
    assert (H4' : forall cs, Forall (consistentInsert sourceContent cs) e4).
    { intros cs. eapply Forall_impl; [exact H4 | apply quiet_consistent]. }
    destruct extracted as [concepts | err].
    + eapply outcome_bind; [apply CreateConceptsBatch_satisfies | ]. intros saved e5 H5.
      assert (H5' : forall cs, Forall (consistentInsert sourceContent cs) e5).
      { intros cs. apply H5; try exact I. apply Forall_map. exact G4. }
      destruct saved as [savedConcepts | err].
      * eapply outcome_weaken; [apply quizStage_consistent | ].
        intros r evs (res & -> & Hsc & Hcs & Hevs). exists sourceContent.
        split; [exact Hsc | ]. rewrite Hcs. apply Hearly.
        apply Forall_app. split; [apply H4' | ]. apply Forall_app. split; [apply H5' | exact Hevs].
      * apply outcome_ret. exists sourceContent. split; [reflexivity | ].
        apply Hearly. apply Forall_app. split; [apply H4' | ].
        apply Forall_app. split; [apply H5' | constructor].
    + apply outcome_ret. exists sourceContent. split; [reflexivity | ].
      apply Hearly. apply Forall_app. split; [apply H4' | constructor].
Qed.

(** X7. In a successful run of [ProcessYouTubeURL] every row inserted
    in a batch agrees with the result: each concept refers to the
    source record of the result, each quiz question refers to one of
    the concepts of the result, and each content item is a draft for
    linkedin, twitter or blog whose concept ids are the ids of the
    concepts of the result, in order. *)
Theorem ProcessYouTubeURL_inserts_consistent
    (s : ClaudeService) (url : string) (st st' : State W) (res : ProcessResult.t) :
  ProcessYouTubeURL s url st = (Ok res, st') ->
  exists sourceContent evs,
    ProcessResult.SourceContent res = Some sourceContent /\
    trace st' = trace st ++ evs /\
    Forall (consistentInsert sourceContent (ProcessResult.Concepts res)) evs.
Proof.
  intros Hrun.
  destruct (outcome_run _ _ _ _ _ (ProcessYouTubeURL_consistent s url) Hrun)
    as (evs & E & sc & Hsc & Hall).
  exists sc, evs. split; [exact Hsc | ]. split; [exact E | exact Hall].
Qed.
End Inserts.

(** The run in which only the twitter thread fails inserts one concept
    and two content items. *)
Lemma ProcessYouTubeURL_inserts_consistent_witness :
  exists res st',
    runProcess (twitterFails false) sampleURL = (Ok res, st') /\
    exists sourceContent evs,
      ProcessResult.SourceContent res = Some sourceContent /\
      trace st' = trace start ++ evs /\
      Forall (consistentInsert sourceContent (ProcessResult.Concepts res)) evs.
Proof.
  eassert (Hrun : runProcess (twitterFails false) sampleURL = (Ok _, _)) by (lazy; reflexivity).
  do 2 eexists. split; [exact Hrun | ].
  exact (ProcessYouTubeURL_inserts_consistent _ _ _ _ _ Hrun).
Defined.

(** ** Validating a url *)

Lemma matchHere_star_total p prev s : is_Some (matchHere [Star p true] prev s).
Proof.
  revert prev. induction s as [ | c s IH]; intros prev; simpl.
  - eexists. reflexivity.
  - destruct (p c); [ | eexists; reflexivity].
    destruct (IH (Some c)) as [r Hr]. simpl in Hr. rewrite Hr. eexists. reflexivity.
Qed.

Lemma matchHere_plus p prev s :
  is_Some (matchHere [Plus p true] prev s) <->
  exists c tail, s = String c tail /\ p c = true.
Proof.
  destruct s as [ | c s].
  - simpl. split; [intros [r Hr]; discriminate | intros (c & tail & Heq & _); discriminate].
  - change (matchHere [Plus p true] prev (String c s))
      with (if p c then matchHere [Star p true] (Some c) s else None).
    destruct (p c) eqn:Hp.
    + split; [intros _; exists c, s; auto | intros _; apply matchHere_star_total].
    + split; [intros [r Hr]; discriminate | ].
      intros (c' & tail & Heq & Hp'). inversion Heq; subst. congruence.
Qed.

Lemma matchHere_lit_plus pre p prev s :
  is_Some (matchHere (lit pre ++ [Plus p true]) prev s) <->
  exists c tail, s = pre +:+ String c tail /\ p c = true.
Proof.
  revert prev s. induction pre as [ | a pre IH]; intros prev s.
  - change (lit "" ++ [Plus p true]) with [Plus p true]. rewrite matchHere_plus.
    split; intros (c & tail & Heq & Hp); exists c, tail; (split; [exact Heq | exact Hp]).
  - change (lit (String a pre) ++ [Plus p true])
      with (Chr (isChar a) :: (lit pre ++ [Plus p true])).
    destruct s as [ | c s].
    + simpl. split; [intros [r Hr]; discriminate | ].
      intros (c & tail & Heq & _). discriminate.
    + change (matchHere (Chr (isChar a) :: (lit pre ++ [Plus p true])) prev (String c s))
        with (if isChar a c then matchHere (lit pre ++ [Plus p true]) (Some c) s else None).
      unfold isChar. destruct (Ascii.eqb_spec a c) as [-> | Hne].
      * rewrite IH. split; intros (c' & tail & Heq & Hp); exists c', tail.
        -- split; [rewrite Heq; reflexivity | exact Hp].
        -- split; [rewrite string_app_cons in Heq; inversion Heq; reflexivity | exact Hp].
      * split; [intros [r Hr]; discriminate | ].
        intros (c' & tail & Heq & _). rewrite string_app_cons in Heq.
        inversion Heq; subst. contradiction.
Qed.

Lemma searchFrom_anchored re c s : searchFrom (Bol false :: re) (Some c) s = false.
Proof.
  revert c. induction s as [ | d s IH]; intros c; simpl; [reflexivity | apply IH].
Qed.

(** A pattern of [ValidateURL] matches the strings that start with its
    literal part followed by a byte of [[\w-]]. *)
Lemma MatchString_prefix pre url :
  MatchString (Bol false :: lit pre ++ [Plus reWordDash true]) url = true <->
  startsWithId pre url.
Proof.
  unfold MatchString, startsWithId. rewrite <- matchHere_lit_plus with (prev := None).
  destruct url as [ | c url].
  - change (searchFrom (Bol false :: lit pre ++ [Plus reWordDash true]) None "")
      with (match matchHere (lit pre ++ [Plus reWordDash true]) None "" with
            | Some _ => true
            | None => false
            end).
    destruct (matchHere _ None ""); split; try reflexivity; try discriminate.
    + intros _. eexists. reflexivity.
    + intros [r Hr]. discriminate.
  - change (searchFrom (Bol false :: lit pre ++ [Plus reWordDash true]) None (String c url))
      with (match matchHere (lit pre ++ [Plus reWordDash true]) None (String c url) with
            | Some _ => true
            | None => searchFrom (Bol false :: lit pre ++ [Plus reWordDash true]) (Some c) url
            end).
    destruct (matchHere _ None (String c url)).
    + split; [intros _; eexists; reflexivity | reflexivity].
    + rewrite searchFrom_anchored. split; [discriminate | intros [r Hr]; discriminate].
Qed.

Lemma urlPattern_elems rest re :
  re ∈ urlPattern rest <->
  exists scheme host,
    scheme ∈ schemes /\ host ∈ hosts /\
    re = Bol false :: lit (scheme +:+ host +:+ rest) ++ [Plus reWordDash true].
Proof.
  unfold urlPattern. rewrite list_elem_of_bind. split.
  - intros (scheme & Hre & Hs). apply list_elem_of_bind in Hre.
    destruct Hre as (host & Hre & Hh). apply list_elem_of_singleton in Hre.
    exists scheme, host. auto.
  - intros (scheme & host & Hs & Hh & ->). exists scheme. split; [ | exact Hs].
    apply list_elem_of_bind. exists host. split; [ | exact Hh].
    apply list_elem_of_singleton. reflexivity.
Qed.

Lemma ValidateURL_acceptedURL (url : string) : ValidateURL url = None <-> acceptedURL url.
Proof.
  unfold ValidateURL, acceptedURL. split.
  - destruct (existsb _ videoPaths) eqn:Hex; [intros _ | discriminate].
    apply existsb_exists in Hex. destruct Hex as (rest & Hrest & Hex).
    apply existsb_exists in Hex. destruct Hex as (re & Hre & Hm).
    apply list_elem_of_In in Hrest. apply list_elem_of_In, urlPattern_elems in Hre.
    destruct Hre as (scheme & host & Hs & Hh & ->).
    apply MatchString_prefix in Hm.
    exists scheme, host, rest. auto.
  - intros (scheme & host & rest & Hs & Hh & Hr & Hid).
    assert (Hex : existsb
              (fun rest => existsb (fun re => MatchString re url) (urlPattern rest)) videoPaths
              = true); [ | rewrite Hex; reflexivity].
    apply existsb_exists. exists rest. split; [apply list_elem_of_In; exact Hr | ].
    apply existsb_exists.
    exists (Bol false :: lit (scheme +:+ host +:+ rest) ++ [Plus reWordDash true]).
    split; [ | apply MatchString_prefix; exact Hid].
    apply list_elem_of_In, urlPattern_elems. exists scheme, host. auto.
Qed.


(** X9. [ValidateURL] looks at a prefix only: a url it accepts stays
    accepted whatever is appended to it. *)
Theorem ValidateURL_prefix_only (url suffix : string) :
  ValidateURL url = None -> ValidateURL (url +:+ suffix) = None.
Proof.
  rewrite !ValidateURL_acceptedURL.
  intros (scheme & host & rest & Hs & Hh & Hr & c & tail & -> & Hc).
  exists scheme, host, rest. split; [exact Hs | ]. split; [exact Hh | ]. split; [exact Hr | ].
  exists c, (tail +:+ suffix). split; [ | exact Hc].
  rewrite string_app_assoc, string_app_cons. reflexivity.
Qed.

Lemma ValidateURL_prefix_only_witness :
  ValidateURL sampleURL = None /\
  ValidateURL (sampleURL +:+ " and anything") = None.
Proof.
  split; [reflexivity | ].
  apply (ValidateURL_prefix_only sampleURL " and anything"). reflexivity.
Defined.

(** ** The transcript acquirer *)

Section Acquirer.
Context {W : Type} {tools : Tools W}.
Context {decVideo : JSONDecoder (gmap string JSON)} {decJSON3 : JSONDecoder JSON3Result}.
Context {numbers : NumberReader}.

(** The ways [GetTranscript] can go: the url is refused and nothing
    is run; the command ran and the call failed before the download;
    the download was made and the call failed; or the call succeeded
    after the command and one download. *)
Lemma GetTranscript_cases (c : Client.t) (url : string) (run : Run ToolEvent W) :
  let r := Client.GetTranscript c url run in
  let cmd := EvCommand (Client.ytdlpPath c) (Client.transcriptArgs url) in
  (exists err, ValidateURL url = Some err /\ r = (Err err, run)) \/
  (ValidateURL url = None /\
   ((exists err, r.1 = Err err /\ log r.2 = log run ++ [cmd]) \/
    (exists err u, r.1 = Err err /\ log r.2 = log run ++ [cmd; EvGet u]) \/
    (exists t u videoData format data text,
       r.1 = Ok t /\ log r.2 = log run ++ [cmd; EvGet u] /\
       findBestSubtitleURL videoData = (u, format) /\ u <> "" /\
       Client.parseSubtitle format data = Ok text /\
       Transcript.Text t = CleanTranscript text /\
       Transcript.Text t <> "" /\ Transcript.Language t = "en"))).
Proof.
  unfold Client.GetTranscript. cbv zeta.
  destruct (ValidateURL url) as [err | ] eqn:Hv; [left; eauto | right].
  split; [reflexivity | ].
  unfold mbind, IO_bind, io_bind, perform.
  destruct (runCommand _ _ (now run)) as [out w].
  destruct (runErr out); [left; eexists; split; reflexivity | ].
  destruct (Unmarshal (stdout out)) as [videoData | err];
    [ | left; eexists; split; reflexivity].
  destruct (findBestSubtitleURL videoData) as [u format] eqn:Hbest.
  destruct (String.eqb_spec u "") as [-> | Hu]; [left; eexists; split; reflexivity | ].
  right. unfold Client.downloadSubtitle, mbind, IO_bind, io_bind, perform. cbn [now log].
  rewrite <- app_assoc. cbn [app].
  destruct (httpGet u w) as [[err | err | status body] w'];
    try (left; exists (Wrapped "failed to download subtitle"
                         (Wrapped "failed to create request" err)), u; split; reflexivity);
    try (left; exists (Wrapped "failed to download subtitle"
                         (Wrapped "failed to download subtitle" err)), u; split; reflexivity).
  destruct (negb (status =? 200)%Z); [left; do 2 eexists; split; reflexivity | ].
  destruct body as [data | err]; [ | left; do 2 eexists; split; reflexivity].
  unfold io_ret.
  destruct (Client.parseSubtitle format data) as [text | err] eqn:Hparse;
    [ | left; do 2 eexists; split; reflexivity].
  destruct (String.eqb_spec (CleanTranscript text) "") as [Hempty | Hne];
    [left; do 2 eexists; split; reflexivity | ].
  right. exists {| Transcript.Text := CleanTranscript text; Transcript.Language := "en" |},
           u, videoData, format, data, text.
  cbn [fst snd Transcript.Text Transcript.Language]. auto 10.
Qed.

(** The ways [GetVideoMetadata] can go. *)
Lemma GetVideoMetadata_cases (c : Client.t) (url : string) (run : Run ToolEvent W) :
  let r := Client.GetVideoMetadata c url run in
  (exists err, ValidateURL url = Some err /\ r = (Err err, run)) \/
  (ValidateURL url = None /\
   log r.2 = log run ++ [EvCommand (Client.ytdlpPath c) (Client.metadataArgs url)]).
Proof.
  unfold Client.GetVideoMetadata. cbv zeta.
  destruct (ValidateURL url) as [err | ] eqn:Hv; [left; eauto | right].
  split; [reflexivity | ].
  unfold mbind, IO_bind, io_bind, perform.
  destruct (runCommand _ _ (now run)) as [out w].
  destruct (runErr out); [reflexivity | ].
  destruct (Unmarshal (stdout out)) as [result | err]; reflexivity.
Qed.

(** X10. A url that [ValidateURL] refuses is refused by
    [GetTranscript], [GetVideoMetadata] and [GetVideoInfo] before any
    command is run or any request made: they return the error of
    [ValidateURL] and leave the world and the log as they were. *)
Theorem Client_refuses_invalid_url
    (c : Client.t) (url : string) (err : error) (run : Run ToolEvent W) :
  ValidateURL url = Some err ->
  Client.GetTranscript c url run = (Err err, run) /\
  Client.GetVideoMetadata c url run = (Err err, run) /\
  Client.GetVideoInfo c url run = ((None, Some err), run).
Proof.
  intros Hv.
  assert (Hm : Client.GetVideoMetadata c url run = (Err err, run)).
  { unfold Client.GetVideoMetadata. rewrite Hv. reflexivity. }
  split; [unfold Client.GetTranscript; rewrite Hv; reflexivity | ].
  split; [exact Hm | ].
  unfold Client.GetVideoInfo, mbind, IO_bind, io_bind. rewrite Hm. reflexivity.
Qed.


(** X12. [GetVideoInfo] never returns a nil value with a nil error;
    a value beside a nil error always has a transcript, whose text is
    not empty; a value beside an error has none.  So after a call
    without error the transcript is there. *)
Theorem GetVideoInfo_transcript (c : Client.t) (url : string) (run : Run ToolEvent W) :
  match (Client.GetVideoInfo c url run).1 with
  | (Some info, None) =>
    exists t, VideoInfo.Transcript info = Some t /\ Transcript.Text t <> ""
  | (Some info, Some _) => VideoInfo.Transcript info = None
  | (None, Some _) => True
  | (None, None) => False
  end.
Proof.
  unfold Client.GetVideoInfo, mbind, IO_bind, io_bind.
  destruct (Client.GetVideoMetadata c url run) as [[metadata | err] run1]; [ | exact I].
  pose proof (GetTranscript_cases c url run1) as Hc. cbv zeta in Hc.
  destruct (Client.GetTranscript c url run1) as [[t | err] run2]; cbn [fst snd] in *;
    [ | reflexivity].
  exists t. split; [reflexivity | ].
  destruct Hc as [(err & _ & Habs) | [Hv [(err & Habs & _) | [(err & u & Habs & _) | Hok]]]];
    try discriminate.
  destruct Hok as (t' & u & videoData & format & data & text & Ht & _ & _ & _ & _ & _ & Hne & _).
  inversion Ht; subst t'. exact Hne.
Qed.

(** X13. The calls of [GetVideoInfo], in order: the metadata command,
    the transcript command, the download of the captions.  Each is
    made only after the ones before it, so the log grows by a prefix
    of these three; and a call without error made all three. *)
Theorem GetVideoInfo_calls (c : Client.t) (url : string) (run : Run ToolEvent W) :
  let r := Client.GetVideoInfo c url run in
  exists evs u,
    log r.2 = log run ++ evs /\
    evs `prefix_of` [EvCommand (Client.ytdlpPath c) (Client.metadataArgs url);
                     EvCommand (Client.ytdlpPath c) (Client.transcriptArgs url);
                     EvGet u] /\
    (r.1.2 = None -> length evs = 3).
Proof.
  cbv zeta. unfold Client.GetVideoInfo, mbind, IO_bind, io_bind, io_ret.
  pose proof (GetVideoMetadata_cases c url run) as Hm. cbv zeta in Hm.
  destruct (Client.GetVideoMetadata c url run) as [[metadata | err] run1]; cbn [fst snd] in *.
  - destruct Hm as [(err & _ & Habs) | [Hv Hlog1]]; [discriminate | ].
    pose proof (GetTranscript_cases c url run1) as Hc. cbv zeta in Hc.
    destruct (Client.GetTranscript c url run1) as [[t | err] run2]; cbn [fst snd] in *;
      (destruct Hc as [(err' & Hv' & _) | [_ Hc]]; [congruence | ]);
      destruct Hc as [(err' & Hr & Hlog) | [(err' & u & Hr & Hlog) | Hok]];
      try discriminate.
    + destruct Hok as (t' & u & _ & _ & _ & _ & _ & Hlog & _).
      exists [EvCommand (Client.ytdlpPath c) (Client.metadataArgs url);
              EvCommand (Client.ytdlpPath c) (Client.transcriptArgs url); EvGet u], u.
      rewrite Hlog, Hlog1, <- app_assoc. split; [reflexivity | ].
      split; [reflexivity | reflexivity].
    + exists [EvCommand (Client.ytdlpPath c) (Client.metadataArgs url);
              EvCommand (Client.ytdlpPath c) (Client.transcriptArgs url)], "".
      rewrite Hlog, Hlog1, <- app_assoc. split; [reflexivity | ].
      split; [eexists [_]; reflexivity | discriminate].
    + exists [EvCommand (Client.ytdlpPath c) (Client.metadataArgs url);
              EvCommand (Client.ytdlpPath c) (Client.transcriptArgs url); EvGet u], u.
      rewrite Hlog, Hlog1, <- app_assoc. split; [reflexivity | ].
      split; [reflexivity | reflexivity].
    + destruct Hok as (t' & _ & _ & _ & _ & _ & Habs & _). discriminate.
  - destruct Hm as [(err' & _ & Hr) | [_ Hlog1]].
    + inversion Hr; subst. exists [], "". rewrite app_nil_r.
      split; [reflexivity | ]. split; [apply prefix_nil | discriminate].
    + exists [EvCommand (Client.ytdlpPath c) (Client.metadataArgs url)], "".
      split; [exact Hlog1 | ]. split; [eexists [_; _]; reflexivity | discriminate].
Qed.
(** X14. Decoding the downloaded captions fails only for the format
    "json3", and then because the data is not a JSON3 document: for
    "vtt", for the three srv formats (which fall back to WebVTT) and
    for any other format the decoding returns a text. *)
Theorem parseSubtitle_error (format data : string) (err : error) :
  Client.parseSubtitle format data = Err err ->
  format = "json3" /\
  exists cause,
    Unmarshal (T := JSON3Result) data = Err cause /\
    err = Wrapped "failed to parse JSON3" cause.
Proof.
  unfold Client.parseSubtitle.
  destruct (String.eqb_spec format "json3") as [-> | Hne].
  - unfold ParseJSON3. destruct (Unmarshal data) as [res | cause]; [discriminate | ].
    intros Heq. inversion Heq. split; [reflexivity | ]. exists cause. auto.
  - destruct (String.eqb format "vtt"); [unfold ParseVTT; discriminate | ].
    destruct (_ || _); [ | unfold ParseVTT; discriminate].
    destruct (ParseJSON3 data); [discriminate | unfold ParseVTT; discriminate].
Qed.
End Acquirer.

(** ** Concrete runs of the acquirer *)

Lemma Client_refuses_invalid_url_witness :
  ValidateURL "not a url" = Some ErrInvalidURL /\
  Client.GetVideoInfo (tools := scriptedTools printsCaptions (DoFailed ErrTimeout))
    (decVideo := rejecting) (decJSON3 := rejecting) (numbers := noNumbers)
    sampleClient "not a url" idle = ((None, Some ErrInvalidURL), idle).
Proof.
  split; [reflexivity | ].
  apply (Client_refuses_invalid_url
           (tools := scriptedTools printsCaptions (DoFailed ErrTimeout))
           (decVideo := rejecting) (decJSON3 := rejecting) (numbers := noNumbers)
           sampleClient "not a url" ErrInvalidURL idle).
  reflexivity.
Defined.


Lemma parseSubtitle_error_witness :
  exists err,
    Client.parseSubtitle (decJSON3 := rejecting) "json3" "WEBVTT" = Err err /\
    exists cause, err = Wrapped "failed to parse JSON3" cause.
Proof.
  eassert (Hrun : Client.parseSubtitle (decJSON3 := rejecting) "json3" "WEBVTT" = Err _)
    by (vm_compute; reflexivity).
  eexists. split; [exact Hrun | ].
  destruct (parseSubtitle_error _ _ _ Hrun) as (_ & cause & _ & Herr).
  exists cause. exact Herr.
Defined.

(** ** The Claude client *)

Section ClaudeClientProperties.
Context {W : Type} {net : Network W}.
Context {encRequest : JSONEncoder MessageRequest.t}.
Context {decResponse : JSONDecoder MessageResponse.t} {decError : JSONDecoder ErrorResponse.t}.
Context {printer : ErrorPrinter}.


Lemma readResponse_ok status body resp :
  ClaudeClient.readResponse status body = Ok resp ->
  exists first rest,
    MessageResponse.Content resp = first :: rest /\ ContentBlock.Text first <> "".
Proof.
  unfold ClaudeClient.readResponse. destruct body as [text | err]; [ | discriminate].
  destruct (negb (status =? 200)%Z).
  - destruct (Unmarshal text); discriminate.
  - destruct (Unmarshal text) as [msgResp | err]; [ | discriminate].
    destruct (MessageResponse.Content msgResp) as [ | first rest] eqn:Hc; [discriminate | ].
    destruct (String.eqb_spec (ContentBlock.Text first) ""); [discriminate | ].
    intros Heq. inversion Heq; subst. exists first, rest. auto.
Qed.



(** X16. The text [SendMessageWithSystem] and [SendSimpleMessage]
    return without error is never empty. *)
Theorem SendMessage_text_nonempty
    (c : ClaudeClient.t) (systemPrompt userMessage text : string) (run run' : Run ApiEvent W) :
  ClaudeClient.SendMessageWithSystem c systemPrompt userMessage run = (Some (Ok text), run') \/
  ClaudeClient.SendSimpleMessage c userMessage run = (Some (Ok text), run') ->
  text <> "".
Proof.
  assert (Hsend : forall req r run1,
             ClaudeClient.SendMessage c req run = (Some (Ok r), run1) ->
             exists first rest,
               MessageResponse.Content r = first :: rest /\ ContentBlock.Text first <> "").
  { intros req r run1. unfold ClaudeClient.SendMessage.
    destruct (Marshal _) as [reqBody | err]; [ | discriminate].
    destruct (requestError _) as [err | ]; [discriminate | ].
    cbv zeta. unfold mbind, IO_bind, io_bind.
    destruct (ClaudeClient.retryLoop _ _ _ run) as [[err | status body | ] run2];
      unfold io_ret; try discriminate.
    intros Heq. inversion Heq as [[Hr Hrun]]. exact (readResponse_ok _ _ _ Hr). }
  unfold ClaudeClient.SendMessageWithSystem, ClaudeClient.SendSimpleMessage.
  cbv zeta. unfold mbind, IO_bind, io_bind.
  intros [Hrun | Hrun];
    match type of Hrun with
    | context [ClaudeClient.SendMessage c ?q run] =>
      pose proof (Hsend q) as Hq;
      destruct (ClaudeClient.SendMessage c q run) as [[[resp | err] | ] run1];
      unfold io_ret in Hrun; try discriminate;
      destruct (Hq resp run1 eq_refl) as (first & rest & Hc & Hne);
      rewrite Hc in Hrun; inversion Hrun; subst; exact Hne
    end.
Qed.

(** What the request becomes before it is marshalled. *)
Lemma SendMessage_marshalled (c : ClaudeClient.t) (req : MessageRequest.t)
    (run : Run ApiEvent W) :
  (forall r, exists reqBody, Marshal r = Ok reqBody) ->
  requestError (ClaudeClient.baseURL c +:+ MessagesEndpoint) = None ->
  exists httpReq,
    ClaudeClient.SendMessage c req run =
      (let '(exit, run') :=
         ClaudeClient.retryLoop httpReq (Z.to_nat ClaudeClient.maxRetries) 0%Z run in
       match exit with
       | Returned err => (Some (Err err), run')
       | Broke status body => (Some (ClaudeClient.readResponse status body), run')
       | Exhausted => (None, run')
       end).
Proof.
  intros Hm Hr. unfold ClaudeClient.SendMessage.
  match goal with |- context [Marshal ?r] => destruct (Hm r) as [reqBody ->] end.
  rewrite Hr. cbv zeta. unfold mbind, IO_bind, io_bind.
  exists {| target := ClaudeClient.baseURL c +:+ MessagesEndpoint;
            headers := [("Content-Type", "application/json");
                        ("x-api-key", ClaudeClient.apiKey c);
                        ("anthropic-version", AnthropicVersion)];
            payload := reqBody |}.
  destruct (ClaudeClient.retryLoop _ _ _ run) as [[err | status body | ] run1]; reflexivity.
Qed.

(** X17. When every attempt is answered with status 429,
    [SendMessage] sends the request three times, sleeping 10 and then
    20 seconds in between, and reports RateLimitExceeded. *)
Theorem SendMessage_rate_limited
    (c : ClaudeClient.t) (req : MessageRequest.t) (run : Run ApiEvent W) :
  (forall r, exists reqBody, Marshal r = Ok reqBody) ->
  requestError (ClaudeClient.baseURL c +:+ MessagesEndpoint) = None ->
  (forall httpReq w, exists body w', doRequest httpReq w = (Answered 429 body, w')) ->
  exists httpReq,
    (ClaudeClient.SendMessage c req run).1 = Some (Err ErrRateLimitExceeded) /\
    log (ClaudeClient.SendMessage c req run).2 =
      log run ++ [EvDo httpReq; EvSleep 10; EvDo httpReq; EvSleep 20; EvDo httpReq].
Proof.
  intros Hm Hr Hall. destruct (SendMessage_marshalled c req run Hm Hr) as [httpReq ->].
  exists httpReq. change (Z.to_nat ClaudeClient.maxRetries) with 3.
  cbn [ClaudeClient.retryLoop].
  unfold ClaudeClient.attemptOnce, mbind, IO_bind, io_bind, perform, io_ret.
  change (0 =? ClaudeClient.maxRetries - 1)%Z with false.
  change (0 + 1 =? ClaudeClient.maxRetries - 1)%Z with false.
  change (0 + 1 + 1 =? ClaudeClient.maxRetries - 1)%Z with true.
  repeat
    (match goal with
     | |- context [doRequest ?r ?w] => destruct (Hall r w) as (? & ? & ->)
     end; cbn [now log fst snd]; change (429 =? 429)%Z with true; cbv beta iota).
  cbn [now log fst snd]. rewrite <- !app_assoc. split; reflexivity.
Qed.

End ClaudeClientProperties.

(** ** Concrete runs of the Claude client *)

Lemma SendMessage_text_nonempty_witness :
  exists text run',
    ClaudeClient.SendMessageWithSystem
      (net := scriptedNetwork (Answered 200 (Ok apiReply)))
      (encRequest := encodesAs "{}") (decResponse := decodes apiReply apiValue)
      (decError := rejecting) (printer := plainPrinter)
      sampleKey "You are an expert educator." "Explain loops." quiet
      = (Some (Ok text), run') /\
    text <> "".
Proof.
  eassert (Hrun : ClaudeClient.SendMessageWithSystem
                    (net := scriptedNetwork (Answered 200 (Ok apiReply)))
                    (encRequest := encodesAs "{}") (decResponse := decodes apiReply apiValue)
                    (decError := rejecting) (printer := plainPrinter)
                    sampleKey "You are an expert educator." "Explain loops." quiet
                  = (Some (Ok _), _)) by (vm_compute; reflexivity).
  do 2 eexists. split; [exact Hrun | ].
  eapply (SendMessage_text_nonempty
            (net := scriptedNetwork (Answered 200 (Ok apiReply)))
            (encRequest := encodesAs "{}") (decResponse := decodes apiReply apiValue)
            (decError := rejecting) (printer := plainPrinter)
            sampleKey "You are an expert educator." "Explain loops." _ quiet).
  left. exact Hrun.
Defined.

Lemma SendMessage_rate_limited_witness :
  exists httpReq req,
    (ClaudeClient.SendMessage
       (net := scriptedNetwork (Answered 429 (Ok "")))
       (encRequest := encodesAs "{}") (decResponse := rejecting) (decError := rejecting)
       (printer := plainPrinter) sampleKey req quiet).1
      = Some (Err ErrRateLimitExceeded) /\
    log (ClaudeClient.SendMessage
           (net := scriptedNetwork (Answered 429 (Ok "")))
           (encRequest := encodesAs "{}") (decResponse := rejecting) (decError := rejecting)
           (printer := plainPrinter) sampleKey req quiet).2
      = [EvDo httpReq; EvSleep 10; EvDo httpReq; EvSleep 20; EvDo httpReq].
Proof.
  pose (req := {| MessageRequest.Model := ""; MessageRequest.MaxTokens := 0%Z;
                  MessageRequest.Messages :=
                    [{| Message.Role := "user"; Message.Content := "hi" |}];
                  MessageRequest.System := ""; MessageRequest.Temperature := "0" |}).
  destruct (SendMessage_rate_limited
              (net := scriptedNetwork (Answered 429 (Ok "")))
              (encRequest := encodesAs "{}") (decResponse := rejecting) (decError := rejecting)
              (printer := plainPrinter) sampleKey req quiet)
    as (httpReq & Hres & Hlog).
  - intros r. exists "{}". reflexivity.
  - reflexivity.
  - intros httpReq w. exists (Ok ""), w. reflexivity.
  - exists httpReq, req. split; [exact Hres | exact Hlog].
Defined.


(** ** The caption locator, read backwards *)

Lemma scanEntries_Some f es u f' :
  scanEntries f es = Some (u, f') -> f' = f /\ exists sub, sub ∈ es /\ entryHas sub f u.
Proof.
  induction es as [ | e es IH]; simpl; [discriminate | ].
  destruct (matchEntry f e) as [[u0 f0] | ] eqn:Hm.
  - intros Heq. inversion Heq; subst. apply matchEntry_Some in Hm. destruct Hm as [-> Hhas].
    split; [reflexivity | ]. exists e. split; [apply list_elem_of_here | exact Hhas].
  - intros Hrest. destruct (IH Hrest) as [-> (sub & Hin & Hhas)].
    split; [reflexivity | ]. exists sub. split; [apply elem_of_cons; right; exact Hin | exact Hhas].
Qed.

Lemma scanEntries_None_inv f es :
  scanEntries f es = None -> forall e u, e ∈ es -> ~ entryHas e f u.
Proof.
  induction es as [ | e0 es IH]; simpl; intros Hnone e u Hin Hhas.
  - apply elem_of_nil in Hin. exact Hin.
  - destruct (matchEntry f e0) as [r | ] eqn:Hm; [discriminate | ].
    apply elem_of_cons in Hin. destruct Hin as [-> | Hin].
    + assert (Hs : matchEntry f e0 = Some (u, f)) by (apply matchEntry_Some; auto).
      congruence.
    + exact (IH Hnone e u Hin Hhas).
Qed.

Lemma scanFormats_Some fs es u f :
  scanFormats fs es = Some (u, f) -> f ∈ fs /\ exists sub, sub ∈ es /\ entryHas sub f u.
Proof.
  induction fs as [ | f0 fs IH]; simpl; [discriminate | ].
  destruct (scanEntries f0 es) as [[u0 f1] | ] eqn:Hs.
  - intros Heq. inversion Heq; subst. apply scanEntries_Some in Hs. destruct Hs as [-> Hsub].
    split; [apply list_elem_of_here | exact Hsub].
  - intros Hrest. destruct (IH Hrest) as [Hin Hsub].
    split; [apply elem_of_cons; right; exact Hin | exact Hsub].
Qed.

Lemma scanFormats_None_inv fs es :
  scanFormats fs es = None -> forall f e u, f ∈ fs -> e ∈ es -> ~ entryHas e f u.
Proof.
  induction fs as [ | f0 fs IH]; simpl; intros Hnone f e u Hf Hin.
  - apply elem_of_nil in Hf. destruct Hf.
  - destruct (scanEntries f0 es) as [r | ] eqn:Hs; [discriminate | ].
    apply elem_of_cons in Hf. destruct Hf as [-> | Hf].
    + exact (scanEntries_None_inv _ _ Hs e u Hin).
    + exact (IH Hnone f e u Hf Hin).
Qed.

Lemma firstAvailable_Some first u f :
  firstAvailable first = (u, f) -> u <> "" ->
  exists m, first = JObject m /\ m !! "url" = Some (JString u) /\ f = declaredFormat m.
Proof.
  unfold firstAvailable. destruct first as [ | | | | | m]; simpl;
    try (intros Heq Hne; inversion Heq; subst; contradiction).
  destruct (m !! "url") as [[ | | | url | | ] | ] eqn:Hurl; simpl;
    try (intros Heq Hne; inversion Heq; subst; contradiction).
  intros Heq _. inversion Heq; subst. exists m. split; [reflexivity | ].
  split; [exact Hurl | ]. unfold declaredFormat.
  destruct (m !! "ext") as [[ | | | ext | | ] | ]; reflexivity.
Qed.

(** The address a collection gives is that of one of its English
    entries: an entry that declares the returned format, which is a
    preferred one, or else the first entry. *)
Lemma fromCollection_sound videoData key url format :
  fromCollection videoData key = (url, format) -> url <> "" ->
  exists caps first rest sub,
    videoData !! key = Some (JObject caps) /\
    caps !! "en" = Some (JArray (first :: rest)) /\
    sub ∈ first :: rest /\
    ((format ∈ formatPreference /\ entryHas sub format url) \/
     (sub = first /\
      (exists m, first = JObject m /\ m !! "url" = Some (JString url) /\
                 format = declaredFormat m) /\
      forall f e u, f ∈ formatPreference -> e ∈ first :: rest -> ~ entryHas e f u)).
Proof.
  unfold fromCollection, asObject.
  destruct (videoData !! key) as [[ | | | | | caps] | ] eqn:Hkey;
    try (intros Heq Hne; inversion Heq; subst; contradiction).
  unfold extractSubtitleURL, asArray.
  destruct (caps !! "en") as [[ | | | | [ | first rest] | ] | ] eqn:Hen;
    try (intros Heq Hne; inversion Heq; subst; contradiction).
  destruct (scanFormats formatPreference (first :: rest)) as [[u f] | ] eqn:Hscan.
  - intros Heq _. inversion Heq; subst.
    destruct (scanFormats_Some _ _ _ _ Hscan) as [Hf (sub & Hin & Hhas)].
    exists caps, first, rest, sub.
    split; [reflexivity | ]. split; [exact Hen | ]. split; [exact Hin | ].
    left. split; assumption.
  - intros Hfirst Hne. exists caps, first, rest, first.
    split; [reflexivity | ]. split; [exact Hen | ]. split; [apply list_elem_of_here | ].
    right. split; [reflexivity | ].
    split; [exact (firstAvailable_Some _ _ _ Hfirst Hne) | ].
    exact (scanFormats_None_inv _ _ Hscan).
Qed.

Lemma fromCollection_no_english videoData key :
  (forall caps first rest,
      videoData !! key = Some (JObject caps) -> caps !! "en" <> Some (JArray (first :: rest))) ->
  fromCollection videoData key = ("", "").
Proof.
  intros Hno. unfold fromCollection, asObject.
  destruct (videoData !! key) as [[ | | | | | caps] | ] eqn:Hkey; try reflexivity.
  unfold extractSubtitleURL, asArray.
  destruct (caps !! "en") as [[ | | | | [ | first rest] | ] | ] eqn:Hen; try reflexivity.
  destruct (Hno caps first rest eq_refl Hen).
Qed.

(** X19. Whatever non-empty address [findBestSubtitleURL] returns is
    the address of an English entry of the collection it uses (the
    automatic captions, or the manual subtitles once the automatic
    ones gave nothing): either an entry that declares the returned
    format, which is then one of the five preferred formats, or the
    first entry, when no entry declares a preferred format with an
    address, the format being its extension or "unknown". *)
Theorem findBestSubtitleURL_sound (videoData : gmap string JSON) (url format : string) :
  findBestSubtitleURL videoData = (url, format) ->
  url <> "" ->
  exists key caps first rest sub,
    chosen videoData key /\
    videoData !! key = Some (JObject caps) /\
    caps !! "en" = Some (JArray (first :: rest)) /\
    sub ∈ first :: rest /\
    ((format ∈ formatPreference /\ entryHas sub format url) \/
     (sub = first /\
      (exists m, first = JObject m /\ m !! "url" = Some (JString url) /\
                 format = declaredFormat m) /\
      forall f e u, f ∈ formatPreference -> e ∈ first :: rest -> ~ entryHas e f u)).
Proof.
  unfold findBestSubtitleURL.
  destruct (fromCollection videoData "automatic_captions") as [u1 f1] eqn:Hauto.
  destruct (String.eqb_spec u1 "") as [-> | Hu1]; simpl.
  - destruct (fromCollection videoData "subtitles") as [u2 f2] eqn:Hsubs.
    destruct (String.eqb_spec u2 "") as [-> | Hu2]; simpl;
      intros Heq Hne; inversion Heq; subst; [contradiction | ].
    destruct (fromCollection_sound _ _ _ _ Hsubs Hne) as (caps & first & rest & sub & Hrest).
    exists "subtitles", caps, first, rest, sub.
    split; [right; split; [reflexivity | rewrite Hauto; reflexivity] | exact Hrest].
  - intros Heq Hne. inversion Heq; subst.
    destruct (fromCollection_sound _ _ _ _ Hauto Hne) as (caps & first & rest & sub & Hrest).
    exists "automatic_captions", caps, first, rest, sub.
    split; [left; reflexivity | exact Hrest].
Qed.

(** X20. When neither the automatic captions nor the manual subtitles
    hold a non-empty English list, [findBestSubtitleURL] returns the
    empty address and the empty format. *)
Theorem findBestSubtitleURL_no_english (videoData : gmap string JSON) :
  (forall key caps first rest,
      key ∈ ["automatic_captions"; "subtitles"] ->
      videoData !! key = Some (JObject caps) ->
      caps !! "en" <> Some (JArray (first :: rest))) ->
  findBestSubtitleURL videoData = ("", "").
Proof.
  intros Hno. unfold findBestSubtitleURL.
  rewrite !fromCollection_no_english; [reflexivity | | ];
    intros caps first rest; apply Hno; rewrite !elem_of_cons; auto.
Qed.

Lemma findBestSubtitleURL_sound_witness :
  findBestSubtitleURL scenarioMetadata = ("U1", "json3") /\
  exists key caps first rest sub,
    chosen scenarioMetadata key /\
    scenarioMetadata !! key = Some (JObject caps) /\
    caps !! "en" = Some (JArray (first :: rest)) /\
    sub ∈ first :: rest.
Proof.
  assert (Hrun : findBestSubtitleURL scenarioMetadata = ("U1", "json3"))
    by (vm_compute; reflexivity).
  split; [exact Hrun | ].
  destruct (findBestSubtitleURL_sound scenarioMetadata "U1" "json3" Hrun)
    as (key & caps & first & rest & sub & H1 & H2 & H3 & H4 & _); [discriminate | ].
  exists key, caps, first, rest, sub. auto.
Defined.

Lemma findBestSubtitleURL_no_english_witness :
  findBestSubtitleURL frenchOnly = ("", "").
Proof.
  apply (findBestSubtitleURL_no_english frenchOnly).
  intros key caps first rest Hkey Hcaps.
  rewrite !elem_of_cons, elem_of_nil in Hkey. destruct Hkey as [-> | [-> | []]].
  - vm_compute in Hcaps. discriminate.
  - assert (Hc : caps = {[ "fr" := JArray [track "vtt" "U9"] ]}).
    { unfold frenchOnly in Hcaps. rewrite lookup_singleton_eq in Hcaps.
      inversion Hcaps. reflexivity. }
    subst caps. rewrite lookup_singleton_ne; discriminate.
Defined.

(** ** Reading a fenced reply *)

Lemma prefix_app_self (p s : string) : String.prefix p (p +:+ s) = true.
Proof.
  induction p as [ | a p IH].
  - rewrite string_app_nil_l. destruct s; reflexivity.
  - rewrite string_app_cons. simpl. destruct (ascii_dec a a); [exact IH | contradiction].
Qed.

Lemma prefix_other (c d : ascii) (p s : string) :
  Ascii.eqb c d = false -> String.prefix (String c p) (String d s) = false.
Proof.
  intros Hne. simpl. destruct (ascii_dec c d) as [-> | ]; [ | reflexivity].
  rewrite Ascii.eqb_refl in Hne. discriminate.
Qed.

(** The first occurrence of a pattern that begins with [c], after a
    text without [c]. *)
Lemma index_after_clean (c : ascii) (pat pre rest : string) :
  lacks c pre = true ->
  String.index 0 (String c pat) (pre +:+ String c pat +:+ rest) = Some (String.length pre).
Proof.
  intros Hpre. induction pre as [ | a pre IH].
  - rewrite string_app_nil_l.
    change (String c pat +:+ rest) with (String c (pat +:+ rest)).
    change (String.index 0 (String c pat) (String c (pat +:+ rest)))
      with (if String.prefix (String c pat) (String c (pat +:+ rest)) then Some 0
            else match String.index 0 (String c pat) (pat +:+ rest) with
                 | Some n => Some (S n)
                 | None => None
                 end).
    change (String c (pat +:+ rest)) with (String c pat +:+ rest).
    rewrite prefix_app_self. reflexivity.
  - simpl in Hpre. apply andb_true_iff in Hpre. destruct Hpre as [Ha Hpre].
    apply negb_true_iff in Ha. rewrite string_app_cons.
    change (String.index 0 (String c pat) (String a (pre +:+ String c pat +:+ rest)))
      with (if String.prefix (String c pat) (String a (pre +:+ String c pat +:+ rest))
            then Some 0
            else match String.index 0 (String c pat) (pre +:+ String c pat +:+ rest) with
                 | Some n => Some (S n)
                 | None => None
                 end).
    rewrite (prefix_other _ _ _ _ Ha), (IH Hpre). reflexivity.
Qed.

Lemma index_clean (c : ascii) (pat s : string) :
  lacks c s = true -> String.index 0 (String c pat) s = None.
Proof.
  intros Hs. induction s as [ | a s IH]; [reflexivity | ].
  simpl in Hs. apply andb_true_iff in Hs. destruct Hs as [Ha Hs]. apply negb_true_iff in Ha.
  change (String.index 0 (String c pat) (String a s))
    with (if String.prefix (String c pat) (String a s) then Some 0
          else match String.index 0 (String c pat) s with
               | Some n => Some (S n)
               | None => None
               end).
  rewrite (prefix_other _ _ _ _ Ha), (IH Hs). reflexivity.
Qed.

Lemma Contains_clean (c : ascii) (pat s : string) :
  lacks c s = true -> Contains s (String c pat) = false.
Proof.
  intros Hs. induction s as [ | a s IH]; [reflexivity | ].
  simpl in Hs. apply andb_true_iff in Hs. destruct Hs as [Ha Hs]. apply negb_true_iff in Ha.
  change (Contains (String a s) (String c pat))
    with (String.prefix (String c pat) (String a s) || Contains s (String c pat)).
  rewrite (prefix_other _ _ _ _ Ha), (IH Hs). reflexivity.
Qed.

Lemma Contains_after_clean (c : ascii) (pat pre s : string) :
  lacks c pre = true -> Contains (pre +:+ s) (String c pat) = Contains s (String c pat).
Proof.
  intros Hpre. induction pre as [ | a pre IH]; [rewrite string_app_nil_l; reflexivity | ].
  simpl in Hpre. apply andb_true_iff in Hpre. destruct Hpre as [Ha Hpre].
  apply negb_true_iff in Ha. rewrite string_app_cons.
  change (Contains (String a (pre +:+ s)) (String c pat))
    with (String.prefix (String c pat) (String a (pre +:+ s)) ||
          Contains (pre +:+ s) (String c pat)).
  rewrite (prefix_other _ _ _ _ Ha), (IH Hpre). reflexivity.
Qed.

Lemma Contains_here (p s : string) : Contains (p +:+ s) p = true.
Proof.
  destruct (p +:+ s) as [ | a t] eqn:Heq.
  - destruct p; [reflexivity | discriminate].
  - change (Contains (String a t) p) with (String.prefix p (String a t) || Contains t p).
    rewrite <- Heq, prefix_app_self. reflexivity.
Qed.

Lemma substring_skip (a b : string) (n : nat) :
  String.substring (String.length a) n (a +:+ b) = String.substring 0 n b.
Proof. induction a as [ | c a IH]; [reflexivity | exact IH]. Qed.

Lemma substring_take (b c : string) : String.substring 0 (String.length b) (b +:+ c) = b.
Proof.
  induction b as [ | x b IH]; simpl.
  - destruct c; reflexivity.
  - rewrite IH. reflexivity.
Qed.

Lemma from_app (a b : string) : from (String.length a) (a +:+ b) = b.
Proof.
  unfold from. rewrite substring_skip, string_length_app.
  replace (String.length a + String.length b - String.length a) with (String.length b) by lia.
  rewrite <- (string_app_nil_r b) at 2. apply substring_take.
Qed.

(** X21. A reply without a backtick is handed to the decoder as it
    is. *)
Theorem fencedJSON_plain (text : string) :
  lacks backtick text = true -> fencedJSON text = text.
Proof.
  intros Hclean. unfold fencedJSON, backtick in *.
  rewrite (Contains_clean "`" "``json" text Hclean).
  rewrite (Contains_clean "`" "``" text Hclean). reflexivity.
Qed.

(** X22. From a reply that holds a block fenced with [```json] and
    [```], the decoder is handed what stands between the two fences,
    whatever follows the block, when neither what precedes the block
    nor the block itself holds a backtick. *)
Theorem fencedJSON_json_block (pre body post : string) :
  lacks backtick pre = true ->
  lacks backtick body = true ->
  fencedJSON (pre +:+ "```json" +:+ body +:+ "```" +:+ post) = body.
Proof.
  intros Hpre Hbody. unfold fencedJSON, backtick in *.
  rewrite (Contains_after_clean "`" "``json" pre _ Hpre).
  rewrite (Contains_here "```json").
  rewrite (index_after_clean "`" "``json" pre _ Hpre).
  assert (Hsplit : pre +:+ "```json" +:+ body +:+ "```" +:+ post
                   = (pre +:+ "```json") +:+ (body +:+ "```" +:+ post))
    by (rewrite string_app_assoc; reflexivity).
  assert (Hlen : String.length pre + String.length "```json"
                 = String.length (pre +:+ "```json"))
    by (rewrite string_length_app; reflexivity).
  rewrite Hlen, Hsplit, from_app.
  rewrite (index_after_clean "`" "``" body _ Hbody).
  rewrite substring_skip. apply substring_take.
Qed.

Lemma fencedJSON_plain_witness :
  lacks backtick "[1, 2]" = true /\ fencedJSON "[1, 2]" = "[1, 2]".
Proof.
  split; [reflexivity | ]. apply (fencedJSON_plain "[1, 2]"). reflexivity.
Defined.

Lemma fencedJSON_json_block_witness :
  fencedJSON ("Here you are:" +:+ nl +:+ "```json" +:+ nl +:+ "[1, 2]" +:+ nl +:+ "```" +:+ nl)
  = nl +:+ "[1, 2]" +:+ nl.
Proof.
  apply (fencedJSON_json_block ("Here you are:" +:+ nl) (nl +:+ "[1, 2]" +:+ nl) nl);
    reflexivity.
Defined.

Lemma prefix_clean (c : ascii) (pat s : string) :
  lacks c s = true -> String.prefix (String c pat) s = false.
Proof.
  destruct s as [ | a s]; [reflexivity | ]. simpl lacks. intros Hs.
  apply andb_true_iff in Hs. destruct Hs as [Ha _]. apply negb_true_iff in Ha.
  apply prefix_other. exact Ha.
Qed.

Lemma lacks_app (c : ascii) (a b : string) :
  lacks c (a +:+ b) = lacks c a && lacks c b.
Proof.
  induction a as [ | x a IH]; [rewrite string_app_nil_l; reflexivity | ].
  rewrite string_app_cons. simpl. rewrite IH, andb_assoc. reflexivity.
Qed.

Lemma Contains_cons (a : ascii) (s pat : string) :
  Contains (String a s) pat = String.prefix pat (String a s) || Contains s pat.
Proof. reflexivity. Qed.

(** X23. From a reply that holds a block fenced with a bare [```]
    line and [```], the decoder is handed what stands between the
    fences, when there is no other backtick in the reply and the
    closing fence is not followed by the word json. *)
Theorem fencedJSON_bare_block (pre body post : string) :
  lacks backtick pre = true ->
  lacks backtick body = true ->
  lacks backtick post = true ->
  String.prefix "json" post = false ->
  fencedJSON (pre +:+ "```" +:+ nl +:+ body +:+ "```" +:+ post) = body.
Proof.
  intros Hpre Hbody Hpost Hjson. unfold fencedJSON, backtick in *.
  assert (Hno : Contains (pre +:+ "```" +:+ nl +:+ body +:+ "```" +:+ post) "```json" = false).
  { rewrite (Contains_after_clean "`" "``json" pre _ Hpre).
    unfold nl. rewrite !string_app_cons, !string_app_nil_l.
    rewrite !Contains_cons, (Contains_after_clean "`" "``json" body _ Hbody).
    rewrite !Contains_cons, (Contains_clean "`" "``json" post Hpost).
    simpl. rewrite Hjson, (prefix_clean "`" "json" post Hpost).
    rewrite (prefix_clean "`" "`json" post Hpost). reflexivity. }
  assert (Hyes : Contains (pre +:+ "```" +:+ nl +:+ body +:+ "```" +:+ post) "```" = true)
    by (rewrite (Contains_after_clean "`" "``" pre _ Hpre); apply (Contains_here "```")).
  assert (Hidx : String.index 0 "```" (pre +:+ "```" +:+ nl +:+ body +:+ "```" +:+ post)
                 = Some (String.length pre))
    by (apply (index_after_clean "`" "``" pre _ Hpre)).
  assert (Hfrom1 : from (String.length pre + String.length "```")
                     (pre +:+ "```" +:+ nl +:+ body +:+ "```" +:+ post)
                   = nl +:+ body +:+ "```" +:+ post).
  { replace (String.length pre + String.length "```") with (String.length (pre +:+ "```"))
      by (rewrite string_length_app; reflexivity).
    rewrite <- (string_app_assoc pre "```"). apply from_app. }
  assert (Hnl : String.index 0 nl (nl +:+ body +:+ "```" +:+ post) = Some 0).
  { unfold nl. rewrite string_app_cons, string_app_nil_l. simpl.
    destruct (ascii_dec LF LF); [ | contradiction].
    destruct (body +:+ "```" +:+ post); reflexivity. }
  assert (Hlen2 : String.length pre + String.length "```" + 0 + 1
                  = String.length (pre +:+ "```" +:+ nl)).
  { rewrite !string_length_app. simpl. lia. }
  assert (Hsplit2 : pre +:+ "```" +:+ nl +:+ body +:+ "```" +:+ post
                    = (pre +:+ "```" +:+ nl) +:+ (body +:+ "```" +:+ post))
    by (rewrite !string_app_assoc; reflexivity).
  assert (Hfrom2 : from (String.length pre + String.length "```" + 0 + 1)
                     (pre +:+ "```" +:+ nl +:+ body +:+ "```" +:+ post)
                   = body +:+ "```" +:+ post)
    by (rewrite Hlen2, Hsplit2; apply from_app).
  assert (Hsub : String.substring (String.length pre + String.length "```" + 0 + 1)
                   (String.length body)
                   (pre +:+ "```" +:+ nl +:+ body +:+ "```" +:+ post)
                 = body)
    by (rewrite Hlen2, Hsplit2, substring_skip; apply substring_take).
  remember (pre +:+ "```" +:+ nl +:+ body +:+ "```" +:+ post) as text eqn:Ht.
  rewrite Hno, Hyes, Hidx, Hfrom1, Hnl, Hfrom2.
  rewrite (index_after_clean "`" "``" body _ Hbody). exact Hsub.
Qed.

Lemma fencedJSON_bare_block_witness :
  fencedJSON ("```" +:+ nl +:+ "[1, 2]" +:+ "```" +:+ nl) = "[1, 2]".
Proof.
  apply (fencedJSON_bare_block "" "[1, 2]" nl); reflexivity.
Defined.

(** ** The statements of the two updates *)

Section TextStatementsProperties.
Context {W : Type} {db : TextDB W}.

(** X24. [UpdateGeneratedContent] sends one statement: the columns
    the request sets are assigned the placeholders $1, $2, ... in the
    order title, body, status, followed by the assignment of
    updated_at; the row is selected by the next placeholder; and the
    arguments are the values of these columns, in the same order,
    followed by the id. *)
Theorem UpdateGeneratedContent_statement
    (id : Z) (req : UpdateGeneratedContentRequest.t) (run : Run TextEvent W) :
  let set := setColumns [("title", UpdateGeneratedContentRequest.Title req);
                         ("body", UpdateGeneratedContentRequest.Body req);
                         ("status", UpdateGeneratedContentRequest.Status req)] in
  log (UpdateGeneratedContent id req run).2 =
    log run ++ [EvQueryRowText (contentUpdateText set)
                  (map (fun cv => ArgString cv.2) set ++ [ArgInt id])].
Proof.
  destruct req as [[title | ] [body | ] [status | ]];
    cbv zeta; unfold UpdateGeneratedContent, mbind, IO_bind, io_bind, perform;
    cbn [addField UpdateGeneratedContentRequest.Title UpdateGeneratedContentRequest.Body
         UpdateGeneratedContentRequest.Status];
    match goal with
    | |- context [contentByText ?q ?a (now run)] =>
      destruct (contentByText q a (now run)) as [[gc | []] w]
    end; reflexivity.
Qed.

(** X25. [UpdateConcept] sends one statement, whose arguments are
    the values of the columns the request sets, in the order title,
    description, followed by the id.  When the request sets a column
    the text assigns the placeholders $1, $2 in that order and
    selects the row by the next one; when it sets none, the text
    reads [UPDATE concepts SE WHERE id = $1 ...]: the two bytes cut
    off as a trailing comma are the end of the keyword. *)
Theorem UpdateConcept_statement
    (id : Z) (req : UpdateConceptRequest.t) (run : Run TextEvent W) :
  let set := setColumns [("title", UpdateConceptRequest.Title req);
                         ("description", UpdateConceptRequest.Description req)] in
  log (UpdateConcept id req run).2 =
    log run ++ [EvQueryRowText (conceptUpdateText set)
                  (map (fun cv => ArgString cv.2) set ++ [ArgInt id])].
Proof.
  destruct req as [[title | ] [description | ]];
    cbv zeta; unfold UpdateConcept, mbind, IO_bind, io_bind, perform;
    cbn [addField UpdateConceptRequest.Title UpdateConceptRequest.Description];
    match goal with
    | |- context [conceptByText ?q ?a (now run)] =>
      destruct (conceptByText q a (now run)) as [[c | []] w]
    end; reflexivity.
Qed.
End TextStatementsProperties.

(** ** Cleaning a transcript without bracketed tokens *)

Lemma squeeze_singleSpaced b s : singleSpaced b (squeeze b s) = true.
Proof.
  revert b. induction s as [ | c s IH]; intros b; simpl; [reflexivity | ].
  destruct (reSpace c) eqn:Hc.
  - destruct b; [apply IH | ]. simpl. rewrite IH. reflexivity.
  - simpl. rewrite Hc. apply IH.
Qed.

Lemma singleSpaced_squeeze b s : singleSpaced b s = true -> squeeze b s = s.
Proof.
  revert b. induction s as [ | c s IH]; intros b; simpl; [reflexivity | ].
  destruct (reSpace c) eqn:Hc.
  - intros Hs. apply andb_true_iff in Hs. destruct Hs as [Hs Hrest].
    apply andb_true_iff in Hs. destruct Hs as [Hb Hsp].
    apply negb_true_iff in Hb. subst b.
    apply Ascii.eqb_eq in Hsp. subst c. rewrite (IH true Hrest). reflexivity.
  - intros Hs. rewrite (IH false Hs). reflexivity.
Qed.

Lemma singleSpaced_weaken b s : singleSpaced b s = true -> singleSpaced false s = true.
Proof.
  destruct s as [ | c s]; [reflexivity | ]. simpl. destruct (reSpace c); [ | auto].
  intros Hs. apply andb_true_iff in Hs. destruct Hs as [Hs Hrest].
  apply andb_true_iff in Hs. destruct Hs as [_ Hsp]. rewrite Hsp, Hrest. reflexivity.
Qed.

Lemma singleSpaced_suffix b a s : singleSpaced b (a +:+ s) = true -> singleSpaced false s = true.
Proof.
  revert b. induction a as [ | c a IH]; intros b.
  - rewrite string_app_nil_l. apply singleSpaced_weaken.
  - rewrite string_app_cons. simpl. destruct (reSpace c).
    + intros Hs. apply andb_true_iff in Hs. destruct Hs as [_ Hrest]. exact (IH true Hrest).
    + apply IH.
Qed.

Lemma singleSpaced_prefix b p q : singleSpaced b (p +:+ q) = true -> singleSpaced b p = true.
Proof.
  revert b. induction p as [ | c p IH]; intros b; [reflexivity | ].
  rewrite string_app_cons. simpl. destruct (reSpace c).
  - intros Hs. apply andb_true_iff in Hs. destruct Hs as [Hs Hrest].
    rewrite Hs, (IH true Hrest). reflexivity.
  - apply IH.
Qed.

Lemma matchHere_star_run p prev s : matchHere [Star p true] prev s = Some (dropRun p s).
Proof.
  revert prev. induction s as [ | c s IH]; intros prev; simpl; [reflexivity | ].
  destruct (p c); [ | reflexivity].
  specialize (IH (Some c)). simpl in IH. rewrite IH. reflexivity.
Qed.

Lemma dropRun_length p s : String.length s - String.length (dropRun p s) = runLength p s.
Proof.
  assert (Hle : forall t, String.length (dropRun p t) <= String.length t).
  { induction t as [ | c t IH]; simpl; [lia | ]. destruct (p c); simpl; lia. }
  induction s as [ | c s IH]; simpl; [reflexivity | ].
  destruct (p c); simpl; [ | lia]. specialize (Hle s). lia.
Qed.

Lemma matchLen_whitespace prev c s :
  matchLen reWhitespace prev (String c s) =
    if reSpace c then Some (S (runLength reSpace s)) else None.
Proof.
  unfold matchLen, reWhitespace.
  change (matchHere [Plus reSpace true] prev (String c s))
    with (if reSpace c then matchHere [Star reSpace true] (Some c) s else None).
  destruct (reSpace c); [ | reflexivity].
  rewrite matchHere_star_run. f_equal.
  pose proof (dropRun_length reSpace s) as Hlen.
  simpl String.length. rewrite <- Hlen.
  assert (Hle' : forall t, String.length (dropRun reSpace t) <= String.length t).
  { induction t as [ | d t IH]; simpl; [lia | ]. destruct (reSpace d); simpl; lia. }
  specialize (Hle' s). lia.
Qed.

(** Replacing [\s+] by a space squeezes every run of white space. *)
Lemma replaceFrom_whitespace s :
  (forall prev, replaceFrom reWhitespace " " 0 prev s = squeeze false s) /\
  (forall prev, replaceFrom reWhitespace " " (runLength reSpace s) prev s = squeeze true s).
Proof.
  induction s as [ | c s [IH0 IHrun]]; [split; reflexivity | ].
  assert (H0 : forall prev,
             replaceFrom reWhitespace " " 0 prev (String c s) = squeeze false (String c s)).
  { intros prev.
    change (replaceFrom reWhitespace " " 0 prev (String c s))
      with (match matchLen reWhitespace prev (String c s) with
            | Some (S n) => " " +:+ replaceFrom reWhitespace " " n (Some c) s
            | _ => String c (replaceFrom reWhitespace " " 0 (Some c) s)
            end).
    rewrite matchLen_whitespace. simpl squeeze. destruct (reSpace c).
    - rewrite IHrun. reflexivity.
    - rewrite IH0. reflexivity. }
  split; [exact H0 | ]. intros prev. simpl runLength. simpl squeeze.
  destruct (reSpace c) eqn:Hc.
  - simpl. apply IHrun.
  - rewrite H0. simpl. rewrite Hc. reflexivity.
Qed.

Lemma ReplaceAllString_whitespace s : ReplaceAllString reWhitespace s " " = squeeze false s.
Proof. unfold ReplaceAllString. apply replaceFrom_whitespace. Qed.

Lemma squeeze_lacks (c : ascii) b s :
  Ascii.eqb c " " = false -> lacks c s = true -> lacks c (squeeze b s) = true.
Proof.
  intros Hsp. revert b. induction s as [ | d s IH]; intros b; simpl; [reflexivity | ].
  intros Hs. apply andb_true_iff in Hs. destruct Hs as [Hd Hs].
  destruct (reSpace d).
  - destruct b; [exact (IH true Hs) | ]. simpl. rewrite Hsp, (IH true Hs). reflexivity.
  - simpl. rewrite Hd, (IH false Hs). reflexivity.
Qed.

Lemma TrimSpace_lacks (c : ascii) s : lacks c s = true -> lacks c (TrimSpace s) = true.
Proof.
  intros Hs. destruct (TrimSpace_infix s) as (a & b & Heq).
  rewrite Heq, !lacks_app in Hs.
  apply andb_true_iff in Hs. destruct Hs as [_ Hs].
  apply andb_true_iff in Hs. apply Hs.
Qed.

(** Nothing is replaced in a text that lacks the first byte of the
    token. *)
Lemma ReplaceAll_lacks (c : ascii) (old new s : string) :
  lacks c s = true -> ReplaceAll s (String c old) new = s.
Proof.
  unfold ReplaceAll. induction s as [ | d s IH]; [reflexivity | ].
  simpl lacks. intros Hs. apply andb_true_iff in Hs. destruct Hs as [Hd Hs].
  apply negb_true_iff in Hd.
  change (replaceAllFrom (String c old) new 0 (String d s))
    with (if String.prefix (String c old) (String d s)
          then new +:+ replaceAllFrom (String c old) new (String.length (String c old) - 1) s
          else String d (replaceAllFrom (String c old) new 0 s)).
  rewrite (prefix_other _ _ _ _ Hd), (IH Hs). reflexivity.
Qed.

Lemma trimLeftSpace_fixed s : leadsWithSpace s = false -> trimLeftSpace s = s.
Proof.
  destruct s as [ | c [ | d [ | e s]]]; simpl; try reflexivity.
  - rewrite orb_false_r. intros ->. reflexivity.
  - rewrite orb_false_r. intros Hl. apply orb_false_elim in Hl. destruct Hl as [-> ->].
    reflexivity.
  - intros Hl. apply orb_false_elim in Hl. destruct Hl as [-> Hl].
    apply orb_false_elim in Hl. destruct Hl as [-> ->]. reflexivity.
Qed.

Lemma trimLeftSpace_leads s : leadsWithSpace (trimLeftSpace s) = false.
Proof.
  assert (Hn : forall n t, String.length t <= n -> leadsWithSpace (trimLeftSpace t) = false).
  { induction n as [ | n IH]; intros t Hlen.
    - destruct t; [reflexivity | simpl in Hlen; lia].
    - destruct t as [ | c t1]; [reflexivity | ]. simpl in Hlen.
      change (trimLeftSpace (String c t1))
        with (if asciiSpace c then trimLeftSpace t1 else
              match t1 with
              | String d t2 =>
                if isSpace2 c d then trimLeftSpace t2 else
                match t2 with
                | String e t3 => if isSpace3 c d e then trimLeftSpace t3 else String c t1
                | EmptyString => String c t1
                end
              | EmptyString => String c t1
              end).
      destruct (asciiSpace c) eqn:Hc; [apply IH; lia | ].
      destruct t1 as [ | d t2]; [simpl; rewrite Hc; reflexivity | ]. simpl in Hlen.
      destruct (isSpace2 c d) eqn:Hd; [apply IH; lia | ].
      destruct t2 as [ | e t3]; [simpl; rewrite Hc, Hd; reflexivity | ]. simpl in Hlen.
      destruct (isSpace3 c d e) eqn:He; [apply IH; lia | ].
      simpl. rewrite Hc, Hd, He. reflexivity. }
  apply (Hn (String.length s)). lia.
Qed.

Lemma leadsWithSpace_prefix p b : leadsWithSpace (p +:+ b) = false -> leadsWithSpace p = false.
Proof.
  destruct p as [ | c [ | d [ | e p]]]; rewrite ?string_app_cons, ?string_app_nil_l;
    simpl; try reflexivity.
  - intros Hl. apply orb_false_elim in Hl. destruct Hl as [-> _]. reflexivity.
  - intros Hl. apply orb_false_elim in Hl. destruct Hl as [-> Hl].
    apply orb_false_elim in Hl. destruct Hl as [-> _]. reflexivity.
  - auto.
Qed.

Lemma trimRightSpace_idempotent s : trimRightSpace (trimRightSpace s) = trimRightSpace s.
Proof.
  induction s as [ | c s IH]; [reflexivity | ].
  change (trimRightSpace (String c s))
    with (if isSpaceRune (String c (trimRightSpace s)) then EmptyString
          else String c (trimRightSpace s)).
  destruct (isSpaceRune (String c (trimRightSpace s))) eqn:Hr; [reflexivity | ].
  change (trimRightSpace (String c (trimRightSpace s)))
    with (if isSpaceRune (String c (trimRightSpace (trimRightSpace s))) then EmptyString
          else String c (trimRightSpace (trimRightSpace s))).
  rewrite IH, Hr. reflexivity.
Qed.

(** [strings.TrimSpace] changes nothing in what it returns. *)
Lemma TrimSpace_idempotent s : TrimSpace (TrimSpace s) = TrimSpace s.
Proof.
  unfold TrimSpace.
  assert (Hl : trimLeftSpace (trimRightSpace (trimLeftSpace s)) = trimRightSpace (trimLeftSpace s)).
  { apply trimLeftSpace_fixed.
    destruct (trimRightSpace_prefix (trimLeftSpace s)) as [b Hb].
    apply (leadsWithSpace_prefix _ b). rewrite <- Hb. apply trimLeftSpace_leads. }
  rewrite Hl. apply trimRightSpace_idempotent.
Qed.

(** X26. On a text without an opening bracket, [CleanTranscript]
    does what its comment says: in the result every white-space byte
    of the class [\s] is a single space between two other bytes, the
    result has no white space at either end, and cleaning it again
    changes nothing. *)
Theorem CleanTranscript_without_brackets (text : string) :
  lacks "[" text = true ->
  let cleaned := CleanTranscript text in
  cleaned = TrimSpace (squeeze false text) /\
  singleSpaced false cleaned = true /\
  TrimSpace cleaned = cleaned /\
  CleanTranscript cleaned = cleaned.
Proof.
  intros Htext.
  assert (Hclean : forall t, lacks "[" t = true ->
                     CleanTranscript t = TrimSpace (squeeze false t)).
  { intros t Ht. unfold CleanTranscript. rewrite ReplaceAllString_whitespace.
    assert (Hsq : lacks "[" (squeeze false t) = true) by (apply squeeze_lacks; auto).
    rewrite (ReplaceAll_lacks "[" "Music]" "" _ Hsq).
    rewrite (ReplaceAll_lacks "[" "Applause]" "" _ Hsq).
    rewrite (ReplaceAll_lacks "[" "Laughter]" "" _ Hsq). reflexivity. }
  cbv zeta. rewrite (Hclean text Htext).
  assert (Hss : singleSpaced false (TrimSpace (squeeze false text)) = true).
  { destruct (TrimSpace_infix (squeeze false text)) as (a & b & Heq).
    pose proof (squeeze_singleSpaced false text) as Hs. rewrite Heq in Hs.
    apply singleSpaced_suffix in Hs. apply (singleSpaced_prefix _ _ _ Hs). }
  split; [reflexivity | ]. split; [exact Hss | ].
  split; [apply TrimSpace_idempotent | ].
  rewrite Hclean.
  - rewrite (singleSpaced_squeeze _ _ Hss). apply TrimSpace_idempotent.
  - apply TrimSpace_lacks. apply squeeze_lacks; auto.
Qed.

Lemma CleanTranscript_without_brackets_witness :
  lacks "[" ("  a" +:+ nl +:+ nl +:+ "b  c ") = true /\
  CleanTranscript ("  a" +:+ nl +:+ nl +:+ "b  c ") = "a b c" /\
  CleanTranscript "a b c" = "a b c".
Proof.
  split; [reflexivity | ].
  destruct (CleanTranscript_without_brackets ("  a" +:+ nl +:+ nl +:+ "b  c ") eq_refl)
    as (_ & _ & _ & Hidem).
  assert (Hrun : CleanTranscript ("  a" +:+ nl +:+ nl +:+ "b  c ") = "a b c")
    by (vm_compute; reflexivity).
  split; [exact Hrun | ]. rewrite Hrun in Hidem. exact Hidem.
Defined.

(** ** What the decoders and the lookups return *)

Section Returns.
Context {W : Type} {ext : External W}.
Context {decJSON3 : JSONDecoder JSON3Result} {decContent : JSONDecoder ContentData.t}.

(** X27. [ParseSRT] and [ParseVTT] never fail; [ParseJSON3] fails
    only when its input is not a JSON3 document; and the text the
    three decoders and [CleanTranscript] return has no white space at
    either end. *)
Theorem decoders_return_trimmed_text (data : string) :
  (exists text, ParseSRT data = Ok text /\ TrimSpace text = text) /\
  (exists text, ParseVTT data = Ok text /\ TrimSpace text = text) /\
  match ParseJSON3 data with
  | Ok text => TrimSpace text = text
  | Err err =>
    exists cause,
      Unmarshal (T := JSON3Result) data = Err cause /\
      err = Wrapped "failed to parse JSON3" cause
  end /\
  TrimSpace (CleanTranscript data) = CleanTranscript data.
Proof.
  split; [eexists; split; [reflexivity | apply TrimSpace_idempotent] | ].
  split; [eexists; split; [reflexivity | apply TrimSpace_idempotent] | ].
  split; [ | apply TrimSpace_idempotent].
  unfold ParseJSON3. destruct (Unmarshal data) as [res | cause].
  - apply TrimSpace_idempotent.
  - exists cause. split; reflexivity.
Qed.

Lemma scanAll_Ok {A} msg (rows : list (result A)) acc r :
  scanAll msg rows acc = Ok r -> exists l, rows = map Ok l /\ r = appendList acc l.
Proof.
  revert acc. induction rows as [ | [row | err] rows IH]; intros acc; simpl.
  - intros Heq. inversion Heq; subst. exists []. split; reflexivity.
  - intros Hrest. destruct (IH _ Hrest) as (l & -> & ->).
    exists (row :: l). split; [reflexivity | apply appendList_append1].
  - discriminate.
Qed.

(** X28. A lookup by source content returns every row or none: when
    [GetConceptsBySourceContentID] or [GetQuizzesBySourceContentID]
    returns without error, the query succeeded, every row was scanned
    without error, the cursor reported no error, and the result holds
    the rows in the order of the cursor; it is the nil slice exactly
    when there was no row. *)
Theorem lookups_return_every_row (sourceContentID : Z) (st : State W) :
  match (GetConceptsBySourceContentID sourceContentID st).1 with
  | Ok concepts =>
    exists rows,
      (conceptRows (SelectConceptsBySourceContentID sourceContentID) (world st)).1 = Ok rows /\
      scanned rows = map Ok (elems concepts) /\ rowsErr rows = None /\
      (concepts = nilSlice <-> scanned rows = [])
  | Err _ => True
  end /\
  match (GetQuizzesBySourceContentID sourceContentID st).1 with
  | Ok questions =>
    exists rows,
      (quizRows (SelectQuizzesBySourceContentID sourceContentID) (world st)).1 = Ok rows /\
      scanned rows = map Ok (elems questions) /\ rowsErr rows = None /\
      (questions = nilSlice <-> scanned rows = [])
  | Err _ => True
  end.
Proof.
  assert (Hnil : forall A (l : list A), appendList nilSlice l = nilSlice <-> map (@Ok A) l = []).
  { intros A l. destruct l; simpl; split; try reflexivity; discriminate. }
  assert (Helems : forall A (l : list A), elems (appendList nilSlice l) = l).
  { intros A l. destruct l; reflexivity. }
  unfold GetConceptsBySourceContentID, GetQuizzesBySourceContentID.
  rewrite !run_bind_eq, !run_call. cbn [fst snd].
  split.
  - destruct (conceptRows _ (world st)) as [[rows | err] w]; cbn [fst]; [ | exact I].
    destruct (scanAll _ (scanned rows) nilSlice) as [concepts | err] eqn:Hscan; [ | exact I].
    destruct (rowsErr rows) eqn:Herr; [exact I | ]. cbn [fst].
    destruct (scanAll_Ok _ _ _ _ Hscan) as (l & Hl & ->).
    exists rows. rewrite Helems, Hl. split; [reflexivity | ]. split; [reflexivity | ].
    split; [exact Herr | apply Hnil].
  - destruct (quizRows _ (world st)) as [[rows | err] w]; cbn [fst]; [ | exact I].
    destruct (scanAll _ (scanned rows) nilSlice) as [questions | err] eqn:Hscan; [ | exact I].
    destruct (rowsErr rows) eqn:Herr; [exact I | ]. cbn [fst].
    destruct (scanAll_Ok _ _ _ _ Hscan) as (l & Hl & ->).
    exists rows. rewrite Helems, Hl. split; [reflexivity | ]. split; [reflexivity | ].
    split; [exact Herr | apply Hnil].
Qed.

(** X29. [GenerateContent] does not fail on a reply it cannot decode:
    whenever the service answers, it returns an item, which holds the
    decoded title and body when the reply decodes, and otherwise the
    reply itself as the body under a title made from the concepts. *)
Theorem GenerateContent_tolerates_plain_text
    (s : ClaudeService) (platform : string) (concepts : slice Concept.t) (st : State W)
    (text : string) (w : W) :
  let prompts := getContentPrompts platform (conceptsText 0%Z (elems concepts)) in
  sendMessage prompts.1 prompts.2 (world st) = (Ok text, w) ->
  exists gc,
    (GenerateContent s platform concepts st).1 = Ok gc /\
    match ParseJSONResponse (T := ContentData.t) text with
    | Ok data =>
      GeneratedContent.Title gc = ContentData.Title data /\
      GeneratedContent.Body gc = ContentData.Body data
    | Err _ =>
      GeneratedContent.Title gc = generateTitleFromConcepts concepts /\
      GeneratedContent.Body gc = text
    end.
Proof.
  cbv zeta. unfold GenerateContent.
  destruct (getContentPrompts platform _) as [systemPrompt userPrompt]. cbn [fst snd].
  intros Hsend. rewrite run_bind_eq, run_call, Hsend. cbn [fst snd]. rewrite run_ret.
  eexists. split; [reflexivity | ]. cbn [GeneratedContent.Title GeneratedContent.Body].
  destruct (ParseJSONResponse text); split; reflexivity.
Qed.
End Returns.

Lemma GenerateContent_tolerates_plain_text_witness :
  exists gc,
    (GenerateContent (ext := scripted (twitterFails false)) (decContent := rejecting)
       service "linkedin" (Slice [sampleConcept 1 "Loops"]) start).1 = Ok gc /\
    GeneratedContent.Title gc = "Loops" /\
    GeneratedContent.Body gc = "A post".
Proof.
  destruct (GenerateContent_tolerates_plain_text
              (ext := scripted (twitterFails false)) (decContent := rejecting)
              service "linkedin" (Slice [sampleConcept 1 "Loops"]) start "A post" 0%Z eq_refl)
    as (gc & Hrun & Hgc).
  exists gc. split; [exact Hrun | exact Hgc].
Defined.
